(** * convex-signals-client: the subscription-and-cache manager

    A shallow embedding of [ConvexSignalsClient] (client.ts) as explicit
    state passing over a heap of cells, promises and timers, together
    with the properties of its registry, reference counting, loading
    flag, sync/await bridge and computed queries. The client modelled is
    the one with reference-counted subscriptions and [destroy]; the two
    members that differ in the variant with the tri-state authenticated
    cell are given next to it.

    The JavaScript heap is made explicit: every object the code closes
    over (a ConvexSignal, a Promise, a timer, a backend subscription, a
    computed) lives in a list and its identity is its index; creating an
    object appends to the list, so a fresh identity never clobbers an
    existing one. *)

From stdpp Require Import base option list gmap strings.
From Stdlib Require Import ZArith.

Local Open Scope Z_scope.

(** ** Values, tokens and identities *)

(** A query result; [None] is JavaScript's [undefined]. *)
Abbreviation Value := (option Z).
(** The arguments of a query, in serialized form. *)
Abbreviation Args := string.
(** [QueryToken] of convex/browser. *)
Abbreviation QueryToken := (string * string)%type.

Abbreviation CellId := nat.
Abbreviation SubId := nat.
Abbreviation PromiseId := nat.
Abbreviation TimerId := nat.
Abbreviation ListenerId := nat.
Abbreviation ComputedId := nat.

(** ** The backend collaborator ([BaseConvexClient]) *)

Module Backend.

(** Modelled from the spec: the backend's canonicalisation of a query
    (convex/browser, outside this repository). Equal (name, args) pairs
    give equal tokens and distinct pairs distinct tokens; nothing else
    of the encoding is used. *)
Definition serializePathAndArgs (name : string) (args : Args) : QueryToken :=
  (name, args).

(** One backend subscription handed out by [subscribe]: the token it is
    for and how often its [unsubscribe] capability has been invoked. *)
Record Subscription := mkSubscription {
  sub_token : QueryToken;
  sub_unsubscribed : nat;
}.

(** Modelled from the spec: [BaseConvexClient] (convex/browser, outside
    this repository) as a counting fake: it records every subscription
    it opened and every call of an unsubscribe capability, keeps, as the
    library does, the number of subscribers it holds per token, buffers
    the local query results, and remembers whether an auth-change
    callback has been installed. *)
Record t := mkBackend {
  subscriptions : list Subscription;
  localResults : gmap QueryToken Z;
  onAuthChange : bool;
  numSubscribers : gmap QueryToken nat;
}.

Definition empty : t :=
  {| subscriptions := []; localResults := ∅; onAuthChange := false;
     numSubscribers := ∅ |}.

(** The library's bookkeeping per token: [subscribe] adds a subscriber
    to the token's entry (creating it with one), and every unsubscribe
    capability for the token removes one, the last one removing the
    entry. On a token without entry the library's code fails on the
    missing entry and nothing is removed. *)
Definition addSubscriber (tok : QueryToken) (m : gmap QueryToken nat)
    : gmap QueryToken nat :=
  <[tok := S (default 0%nat (m !! tok))]> m.

Definition removeSubscriber (tok : QueryToken) (m : gmap QueryToken nat)
    : gmap QueryToken nat :=
  match m !! tok with
  | Some (S (S n)) => <[tok := S n]> m
  | Some _ => delete tok m
  | None => m
  end.

(** [subscribe(name, args, options) -> {queryToken, unsubscribe}] *)
Definition subscribe (name : string) (args : Args) (b : t) : QueryToken * SubId * t :=
  let tok := serializePathAndArgs name args in
  (tok, length (subscriptions b),
   {| subscriptions := subscriptions b ++ [mkSubscription tok 0];
      localResults := localResults b;
      onAuthChange := onAuthChange b;
      numSubscribers := addSubscriber tok (numSubscribers b) |}).

(** Invoking the [unsubscribe] capability of subscription [sid]. *)
Definition unsubscribe (sid : SubId) (b : t) : t :=
  {| subscriptions :=
       alter (λ s, mkSubscription (sub_token s) (S (sub_unsubscribed s))) sid
             (subscriptions b);
     localResults := localResults b;
     onAuthChange := onAuthChange b;
     numSubscribers :=
       match subscriptions b !! sid with
       | Some sub => removeSubscriber (sub_token sub) (numSubscribers b)
       | None => numSubscribers b
       end |}.

(** [localQueryResult(name, args) -> Value | undefined] *)
Definition localQueryResult (name : string) (args : Args) (b : t) : Value :=
  localResults b !! serializePathAndArgs name args.

(** The backend buffers a new result for a token (or drops it). *)
Definition setLocalResult (tok : QueryToken) (v : Value) (b : t) : t :=
  {| subscriptions := subscriptions b;
     localResults := match v with
                     | Some z => <[tok := z]> (localResults b)
                     | None => delete tok (localResults b)
                     end;
     onAuthChange := onAuthChange b;
     numSubscribers := numSubscribers b |}.

(** [setAuth(fetcher, onChange)] installs the callback; [clearAuth()]
    drops it. *)
Definition setAuth (b : t) : t :=
  {| subscriptions := subscriptions b;
     localResults := localResults b;
     onAuthChange := true;
     numSubscribers := numSubscribers b |}.

Definition clearAuth (b : t) : t :=
  {| subscriptions := subscriptions b;
     localResults := localResults b;
     onAuthChange := false;
     numSubscribers := numSubscribers b |}.

(** How often the unsubscribe capability of [sid] has been invoked. *)
Definition unsubscribeCalls (sid : SubId) (b : t) : option nat :=
  sub_unsubscribed <$> subscriptions b !! sid.

End Backend.

(** ** Promises and timers *)

Inductive Error := QueryTimedOut | ReferenceError.

Inductive PromiseState :=
| Pending
| Resolved (v : Value)
| Rejected (e : Error).

(** What a timer does when it fires. *)
Inductive TimerCallback :=
| SyncTimeout (c : CellId) (l : ListenerId) (p : PromiseId)
    (* sync: reject(new Error('Query timed out')); unsub?.() *)
| QueryTimeout (p : PromiseId).
    (* query: reject(new Error('Query timed out')) *)

Inductive TimerState :=
| Armed (cb : TimerCallback) (ms : Z)
| Cleared
| Fired.

(** ** Listeners of a signal *)

Inductive Listener :=
| ExternalListener (tag : nat)
    (* a caller's callback; opaque, its calls are recorded *)
| SyncListener (p : PromiseId) (t : TimerId)
    (* the callback sync() subscribes *)
| QueryListener (p : PromiseId) (t : TimerId).
    (* the callback query() subscribes *)

(** ** A ConvexSignal (the [result] object of querySignal) *)

Record Cell := mkCell {
  c_name : string;                 (* const name *)
  c_args : Args;                   (* const args *)
  c_queryToken : QueryToken;       (* const queryToken *)
  c_unsubscribe : SubId;           (* const unsubscribe *)
  c_IsLoaded : bool;               (* [IsLoaded] *)
  c_value : Value;                 (* sig.value *)
  c_listeners : list (ListenerId * Listener);   (* subscribers of sig *)
  c_nextListener : ListenerId;
  c_counter : Z;                   (* let counter *)
}.

Definition newCell (name : string) (args : Args) (tok : QueryToken) (sid : SubId) : Cell :=
  {| c_name := name; c_args := args; c_queryToken := tok; c_unsubscribe := sid;
     c_IsLoaded := false; c_value := None; c_listeners := []; c_nextListener := 0%nat;
     c_counter := 0 |}.

Definition cell_setIsLoaded (b : bool) (c : Cell) : Cell :=
  {| c_name := c_name c; c_args := c_args c; c_queryToken := c_queryToken c;
     c_unsubscribe := c_unsubscribe c; c_IsLoaded := b; c_value := c_value c;
     c_listeners := c_listeners c; c_nextListener := c_nextListener c;
     c_counter := c_counter c |}.

Definition cell_setValue (v : Value) (c : Cell) : Cell :=
  {| c_name := c_name c; c_args := c_args c; c_queryToken := c_queryToken c;
     c_unsubscribe := c_unsubscribe c; c_IsLoaded := c_IsLoaded c; c_value := v;
     c_listeners := c_listeners c; c_nextListener := c_nextListener c;
     c_counter := c_counter c |}.

Definition cell_setCounter (n : Z) (c : Cell) : Cell :=
  {| c_name := c_name c; c_args := c_args c; c_queryToken := c_queryToken c;
     c_unsubscribe := c_unsubscribe c; c_IsLoaded := c_IsLoaded c; c_value := c_value c;
     c_listeners := c_listeners c; c_nextListener := c_nextListener c;
     c_counter := n |}.

Definition cell_addListener (fn : Listener) (c : Cell) : Cell :=
  {| c_name := c_name c; c_args := c_args c; c_queryToken := c_queryToken c;
     c_unsubscribe := c_unsubscribe c; c_IsLoaded := c_IsLoaded c; c_value := c_value c;
     c_listeners := c_listeners c ++ [(c_nextListener c, fn)];
     c_nextListener := S (c_nextListener c);
     c_counter := c_counter c |}.

Definition cell_removeListener (l : ListenerId) (c : Cell) : Cell :=
  {| c_name := c_name c; c_args := c_args c; c_queryToken := c_queryToken c;
     c_unsubscribe := c_unsubscribe c; c_IsLoaded := c_IsLoaded c; c_value := c_value c;
     c_listeners := filter (λ e, e.1 ≠ l) (c_listeners c);
     c_nextListener := c_nextListener c;
     c_counter := c_counter c |}.

(** ** A computed query (the [sig] of queryComputed) *)

Record Computed := mkComputed {
  cp_query : string;               (* query *)
  cp_argsFn : Z → Args;            (* fnArgsAndOptions, reading the trigger *)
  cp_tracked : bool;               (* does it read the trigger tracked? *)
  cp_cache : option (nat * CellId);
    (* the cell of the last evaluation and the trigger version it saw *)
}.

(** ** The client *)

Record Client := mkClient {
  client : Backend.t;                        (* #client *)
  signals : gmap QueryToken CellId;          (* #signals *)
  authenticated : option bool;               (* #authenticated.value *)
  cells : list Cell;                         (* heap of ConvexSignal objects *)
  promises : list PromiseState;              (* heap of promises *)
  timers : list TimerState;                  (* pending and past timers *)
  computeds : list Computed;                 (* heap of computed queries *)
  trigger : Z;                               (* an external reactive input *)
  triggerVersion : nat;
  calls : list (CellId * ListenerId * Value); (* every listener invocation *)
}.

Definition set_client (f : Backend.t → Backend.t) (s : Client) : Client :=
  {| client := f (client s); signals := signals s; authenticated := authenticated s;
     cells := cells s; promises := promises s; timers := timers s;
     computeds := computeds s; trigger := trigger s;
     triggerVersion := triggerVersion s; calls := calls s |}.

Definition set_signals (f : gmap QueryToken CellId → gmap QueryToken CellId) (s : Client) : Client :=
  {| client := client s; signals := f (signals s); authenticated := authenticated s;
     cells := cells s; promises := promises s; timers := timers s;
     computeds := computeds s; trigger := trigger s;
     triggerVersion := triggerVersion s; calls := calls s |}.

Definition set_authenticated (a : option bool) (s : Client) : Client :=
  {| client := client s; signals := signals s; authenticated := a;
     cells := cells s; promises := promises s; timers := timers s;
     computeds := computeds s; trigger := trigger s;
     triggerVersion := triggerVersion s; calls := calls s |}.

Definition set_cells (f : list Cell → list Cell) (s : Client) : Client :=
  {| client := client s; signals := signals s; authenticated := authenticated s;
     cells := f (cells s); promises := promises s; timers := timers s;
     computeds := computeds s; trigger := trigger s;
     triggerVersion := triggerVersion s; calls := calls s |}.

Definition set_promises (f : list PromiseState → list PromiseState) (s : Client) : Client :=
  {| client := client s; signals := signals s; authenticated := authenticated s;
     cells := cells s; promises := f (promises s); timers := timers s;
     computeds := computeds s; trigger := trigger s;
     triggerVersion := triggerVersion s; calls := calls s |}.

Definition set_timers (f : list TimerState → list TimerState) (s : Client) : Client :=
  {| client := client s; signals := signals s; authenticated := authenticated s;
     cells := cells s; promises := promises s; timers := f (timers s);
     computeds := computeds s; trigger := trigger s;
     triggerVersion := triggerVersion s; calls := calls s |}.

Definition set_computeds (f : list Computed → list Computed) (s : Client) : Client :=
  {| client := client s; signals := signals s; authenticated := authenticated s;
     cells := cells s; promises := promises s; timers := timers s;
     computeds := f (computeds s); trigger := trigger s;
     triggerVersion := triggerVersion s; calls := calls s |}.

Definition set_trigger (z : Z) (s : Client) : Client :=
  {| client := client s; signals := signals s; authenticated := authenticated s;
     cells := cells s; promises := promises s; timers := timers s;
     computeds := computeds s; trigger := z;
     triggerVersion := S (triggerVersion s); calls := calls s |}.

Definition record_call (c : CellId) (l : ListenerId) (v : Value) (s : Client) : Client :=
  {| client := client s; signals := signals s; authenticated := authenticated s;
     cells := cells s; promises := promises s; timers := timers s;
     computeds := computeds s; trigger := trigger s;
     triggerVersion := triggerVersion s; calls := calls s ++ [(c, l, v)] |}.

Definition upd_cell (c : CellId) (f : Cell → Cell) (s : Client) : Client :=
  set_cells (alter f c) s.

(** Reading the fields of a cell through its handle. *)
Definition isLoaded (c : CellId) (s : Client) : bool :=
  match cells s !! c with Some cell => c_IsLoaded cell | None => false end.

Definition value (c : CellId) (s : Client) : Value :=
  match cells s !! c with Some cell => c_value cell | None => None end.

Definition counter (c : CellId) (s : Client) : Z :=
  match cells s !! c with Some cell => c_counter cell | None => 0 end.

Definition listeners (c : CellId) (s : Client) : list (ListenerId * Listener) :=
  match cells s !! c with Some cell => c_listeners cell | None => [] end.

Definition subscribed (c : CellId) (l : ListenerId) (s : Client) : bool :=
  bool_decide (l ∈ (listeners c s).*1).

(** ** Promise and timer primitives *)

Definition newPromise (s : Client) : PromiseId * Client :=
  (length (promises s), set_promises (λ ps, ps ++ [Pending]) s).

Definition settle (r : PromiseState) (st : PromiseState) : PromiseState :=
  match st with Pending => r | _ => st end.

(** [resolve(v)] and [reject(e)]: only a pending promise changes. *)
Definition resolve (p : PromiseId) (v : Value) (s : Client) : Client :=
  set_promises (alter (settle (Resolved v)) p) s.

Definition reject (p : PromiseId) (e : Error) (s : Client) : Client :=
  set_promises (alter (settle (Rejected e)) p) s.

Definition setTimeout (cb : TimerCallback) (ms : Z) (s : Client) : TimerId * Client :=
  (length (timers s), set_timers (λ ts, ts ++ [Armed cb ms]) s).

Definition clearTimeout (t : TimerId) (s : Client) : Client :=
  set_timers (alter (λ st, match st with Armed _ _ => Cleared | _ => st end) t) s.

(** ** The reactive-signal primitive ([sig]) and the listeners

    The signal library (@preact/signals by default, vue through the
    adapter of vue.ts) is outside this repository; the client only uses
    [value] and [subscribe] of it. The spec gives its contract:
    [subscribe] returns an idempotent unsubscribe capability and a
    write to [value] notifies the subscribers synchronously. The rest
    is how a subscription is made in both libraries and in the adapter,
    [effect(() => fn(r.value))]: an effect runs once when it is created
    and again whenever the value it has read has changed. *)

(** Modelled from the spec: the capability returned by [subscribe] of
    the signal primitive (the library is not part of the repository).
    It removes the listener and is idempotent. *)
Definition sig_unsubscribe (c : CellId) (l : ListenerId) (s : Client) : Client :=
  upd_cell c (cell_removeListener l) s.

(** The capability returned by [result.subscribe] (client.ts):
    [unsub(); if (--counter === 0) { unsubscribe(); this.#signals.delete(queryToken); }] *)
Definition unsub (c : CellId) (l : ListenerId) (s : Client) : Client :=
  match cells s !! c with
  | None => s
  | Some cell =>
      let s := sig_unsubscribe c l s in
      let n := c_counter cell - 1 in
      let s := upd_cell c (cell_setCounter n) s in
      if decide (n = 0) then
        let s := set_client (Backend.unsubscribe (c_unsubscribe cell)) s in
        set_signals (delete (c_queryToken cell)) s
      else s
  end.

(** One invocation of a listener with value [v]. [initial] tells
    whether this is the run inside [subscribe] itself, when the
    variable that will hold the capability is not yet assigned. The
    boolean result tells whether the listener threw. *)
Definition run_listener (initial : bool) (c : CellId) (l : ListenerId)
    (fn : Listener) (v : Value) (s : Client) : Client * bool :=
  let s := record_call c l v s in
  match fn with
  | ExternalListener _ => (s, false)
  | SyncListener p t =>
      (* if (this.isLoaded) { resolve(value); unsub?.(); clearTimeout(timer); } *)
      if isLoaded c s then
        let s := resolve p v s in
        let s := if initial then s else sig_unsubscribe c l s in
        (clearTimeout t s, false)
      else (s, false)
  | QueryListener p t =>
      (* if (!signal.isLoaded) return; clearTimeout(timer); resolve(value); unsub(); *)
      if negb (isLoaded c s) then (s, false)
      else
        let s := clearTimeout t s in
        let s := resolve p v s in
        if initial then (s, true) else (unsub c l s, false)
  end.

(** Modelled from the spec: [sig.subscribe(fn)] of the signal primitive
    (the library is not part of the repository), as an effect: the
    listener runs once, inside subscribe, with the current value and is
    kept for later writes; a listener that throws on this first run is
    not kept. *)
Definition sig_subscribe (c : CellId) (fn : Listener) (s : Client)
    : ListenerId * Client * bool :=
  match cells s !! c with
  | None => (0%nat, s, false)
  | Some cell =>
      let l := c_nextListener cell in
      let s := upd_cell c (cell_addListener fn) s in
      let '(s, threw) := run_listener true c l fn (c_value cell) s in
      if threw then (l, sig_unsubscribe c l s, true) else (l, s, false)
  end.

(** Modelled from the spec: the notification of the subscribers of the
    signal primitive after a write (the library is not part of the
    repository). The listeners subscribed at the time of the write run
    in subscription order; one removed in the meantime is skipped. *)
Fixpoint notify (c : CellId) (v : Value) (snapshot : list (ListenerId * Listener))
    (s : Client) : Client :=
  match snapshot with
  | [] => s
  | (l, fn) :: rest =>
      let s := if subscribed c l s then (run_listener false c l fn v s).1 else s in
      notify c v rest s
  end.

(** Modelled from the spec: [sig.value = v] of the signal primitive (the
    library is not part of the repository): a write that changes the
    value notifies the subscribers synchronously, a write of the value
    already held does nothing. *)
Definition sig_write (c : CellId) (v : Value) (s : Client) : Client :=
  match cells s !! c with
  | None => s
  | Some cell =>
      if decide (c_value cell = v) then s
      else notify c v (c_listeners cell) (upd_cell c (cell_setValue v) s)
  end.

(** ** ConvexSignalsClient *)

(** [new ConvexSignalsClient(baseUrl)]: [#signals = new Map()],
    [#authenticated = signal(false)]. *)
Definition new_client : Client :=
  {| client := Backend.empty; signals := ∅; authenticated := Some false;
     cells := []; promises := []; timers := []; computeds := [];
     trigger := 0; triggerVersion := 0%nat; calls := [] |}.

(** [querySignal(query, args, options)] *)
Definition querySignal (name : string) (args : Args) (s : Client) : CellId * Client :=
  let '(queryToken, unsubscribe, b) := Backend.subscribe name args (client s) in
  let s := set_client (λ _, b) s in
  match signals s !! queryToken with
  | Some c =>
      (* unsubscribe(); return this.#signals.get(queryToken)! *)
      (c, set_client (Backend.unsubscribe unsubscribe) s)
  | None =>
      let result := length (cells s) in
      let s := set_cells (λ cs, cs ++ [newCell name args queryToken unsubscribe]) s in
      (result, set_signals (<[queryToken := result]>) s)
  end.

(** [result.subscribe(fn)]: [counter++; const unsub = sig.subscribe(fn);
    return () => {...}]. The capability is [unsub c l] for the returned
    [l]; when the listener threw, nothing is returned to the caller. *)
Definition subscribe (c : CellId) (fn : Listener) (s : Client)
    : option ListenerId * Client :=
  let s := upd_cell c (λ cell, cell_setCounter (c_counter cell + 1) cell) s in
  let '(l, s, threw) := sig_subscribe c fn s in
  (if threw then None else Some l, s).

(** [result.refresh()] *)
Definition refresh (c : CellId) (s : Client) : Client :=
  match cells s !! c with
  | None => s
  | Some cell =>
      sig_write c (Backend.localQueryResult (c_name cell) (c_args cell) (client s)) s
  end.

(** [result.destroy()] *)
Definition destroy (c : CellId) (s : Client) : Client :=
  match cells s !! c with
  | None => s
  | Some cell =>
      let s := set_signals (delete (c_queryToken cell)) s in
      set_client (Backend.unsubscribe (c_unsubscribe cell)) s
  end.

(** [result.sync(timeout)]. The timer is set first; its callback
    closes over the variable [unsub], which holds the capability of the
    subscription made next. *)
Definition sync (c : CellId) (timeout : Z) (s : Client) : PromiseId * Client :=
  let '(p, s) := newPromise s in
  let l := match cells s !! c with Some cell => c_nextListener cell | None => 0%nat end in
  let '(timer, s) := setTimeout (SyncTimeout c l p) timeout s in
  let '(_, s, _) := sig_subscribe c (SyncListener p timer) s in
  (p, s).

(** [#onTransition(updatedQueries)] *)
Fixpoint onTransition (updatedQueries : list QueryToken) (s : Client) : Client :=
  match updatedQueries with
  | [] => s
  | queryToken :: rest =>
      let s := match signals s !! queryToken with
               | Some c => refresh c (upd_cell c (cell_setIsLoaded true) s)
               | None => s
               end in
      onTransition rest s
  end.

(** [query(query, args, options)]; [timeout] is [options?.timeout ?? 10000].
    When the cell is already loaded the listener runs inside
    [signal.subscribe] before [const unsub] is initialised: it clears
    the timer, resolves, and then throws; the promise executor swallows
    the exception (the promise is already settled). *)
Definition query (name : string) (args : Args) (timeout : Z) (s : Client)
    : PromiseId * Client :=
  let '(signal, s) := querySignal name args s in
  let '(p, s) := newPromise s in
  let '(timer, s) := setTimeout (QueryTimeout p) timeout s in
  let '(r, s) := subscribe signal (QueryListener p timer) s in
  (p, match r with Some _ => s | None => reject p ReferenceError s end).

(** A timer fires: an armed timer runs its callback once. *)
Definition fireTimer (t : TimerId) (s : Client) : Client :=
  match timers s !! t with
  | Some (Armed cb _) =>
      let s := set_timers (<[t := Fired]>) s in
      match cb with
      | SyncTimeout c l p => sig_unsubscribe c l (reject p QueryTimedOut s)
      | QueryTimeout p => reject p QueryTimedOut s
      end
  | _ => s
  end.

(** [queryComputed(query, fnArgsAndOptions)]: the computed is lazy,
    nothing is evaluated before its first read. *)
Definition queryComputed (name : string) (argsFn : Z → Args) (tracked : bool)
    (s : Client) : ComputedId * Client :=
  (length (computeds s),
   set_computeds (λ cs, cs ++ [mkComputed name argsFn tracked None]) s).

(** [sig.value] of a computed query: the cached cell, or, when never
    evaluated or when the trigger it tracks has changed since,
    [this.querySignal(query, ...fnArgsAndOptions())]. *)
Definition computed_sig (k : ComputedId) (s : Client) : option CellId * Client :=
  match computeds s !! k with
  | None => (None, s)
  | Some cp =>
      let evaluate :=
        let '(c, s) := querySignal (cp_query cp) (cp_argsFn cp (trigger s)) s in
        (Some c,
         set_computeds
           (<[k := mkComputed (cp_query cp) (cp_argsFn cp) (cp_tracked cp)
                              (Some (triggerVersion s, c))]>) s) in
      match cp_cache cp with
      | None => evaluate
      | Some (ver, c) =>
          if cp_tracked cp && negb (Nat.eqb ver (triggerVersion s))
          then evaluate else (Some c, s)
      end
  end.

(** The members of the object queryComputed returns. *)
Definition computed_value (k : ComputedId) (s : Client) : Value * Client :=
  let '(c, s) := computed_sig k s in
  (match c with Some c => value c s | None => None end, s).

Definition computed_isLoaded (k : ComputedId) (s : Client) : bool * Client :=
  let '(c, s) := computed_sig k s in
  (match c with Some c => isLoaded c s | None => false end, s).

Definition computed_refresh (k : ComputedId) (s : Client) : Client :=
  let '(c, s) := computed_sig k s in
  match c with Some c => refresh c s | None => s end.

Definition computed_subscribe (k : ComputedId) (fn : Listener) (s : Client)
    : option (CellId * ListenerId) * Client :=
  let '(c, s) := computed_sig k s in
  match c with
  | Some c => let '(l, s) := subscribe c fn s in (pair c <$> l, s)
  | None => (None, s)
  end.

Definition computed_destroy (k : ComputedId) (s : Client) : Client :=
  let '(c, s) := computed_sig k s in
  match c with Some c => destroy c s | None => s end.

Definition computed_sync (k : ComputedId) (s : Client) : option PromiseId * Client :=
  let '(c, s) := computed_sig k s in
  match c with
  | Some c => let '(p, s) := sync c 10000 s in (Some p, s)
  | None => (None, s)
  end.

(** An external write to the trigger the argument functions read. *)
Definition writeTrigger (z : Z) (s : Client) : Client :=
  if decide (trigger s = z) then s else set_trigger z s.

(** [mutation(mutation, args, options)] and [action(action, args)] hand
    the call to the backend and return its promise; nothing of the
    client changes. *)
Definition mutation (name : string) (args : Args) (s : Client) : Client := s.

Definition action (name : string) (args : Args) (s : Client) : Client := s.

(** [setAuth(fetcher)]: installs the callback that writes
    [#authenticated]; [clearAuth()]. *)
Definition setAuth (s : Client) : Client :=
  set_client Backend.setAuth s.

Definition clearAuth (s : Client) : Client :=
  set_client Backend.clearAuth s.

(** The backend reports an authentication outcome through the callback
    installed by setAuth: [this.#authenticated.value = authenticated]. *)
Definition authChanged (a : bool) (s : Client) : Client :=
  if Backend.onAuthChange (client s) then set_authenticated (Some a) s else s.

(** ** Runs of the client

    Everything that can happen to a client between two run-to-completion
    units: a call of its public surface or of a member of a cell it
    handed out, a callback from the backend, or a timer. *)

Inductive Op :=
| OpQuerySignal (name : string) (args : Args)
| OpSubscribe (c : CellId) (tag : nat)
| OpUnsub (c : CellId) (l : ListenerId)
| OpRefresh (c : CellId)
| OpDestroy (c : CellId)
| OpSync (c : CellId) (timeout : Z)
| OpQuery (name : string) (args : Args) (timeout : Z)
| OpQueryComputed (name : string) (argsFn : Z → Args) (tracked : bool)
| OpComputedValue (k : ComputedId)
| OpComputedIsLoaded (k : ComputedId)
| OpComputedRefresh (k : ComputedId)
| OpComputedSubscribe (k : ComputedId) (tag : nat)
| OpComputedDestroy (k : ComputedId)
| OpComputedSync (k : ComputedId)
| OpWriteTrigger (z : Z)
| OpLocalResult (tok : QueryToken) (v : Value)
| OpTransition (updatedQueries : list QueryToken)
| OpFireTimer (t : TimerId)
| OpMutation (name : string) (args : Args)
| OpAction (name : string) (args : Args)
| OpSetAuth
| OpClearAuth
| OpAuthChanged (a : bool).

Definition step (o : Op) (s : Client) : Client :=
  match o with
  | OpQuerySignal name args => (querySignal name args s).2
  | OpSubscribe c tag => (subscribe c (ExternalListener tag) s).2
  | OpUnsub c l => unsub c l s
  | OpRefresh c => refresh c s
  | OpDestroy c => destroy c s
  | OpSync c timeout => (sync c timeout s).2
  | OpQuery name args timeout => (query name args timeout s).2
  | OpQueryComputed name argsFn tracked => (queryComputed name argsFn tracked s).2
  | OpComputedValue k => (computed_value k s).2
  | OpComputedIsLoaded k => (computed_isLoaded k s).2
  | OpComputedRefresh k => computed_refresh k s
  | OpComputedSubscribe k tag => (computed_subscribe k (ExternalListener tag) s).2
  | OpComputedDestroy k => computed_destroy k s
  | OpComputedSync k => (computed_sync k s).2
  | OpWriteTrigger z => writeTrigger z s
  | OpLocalResult tok v => set_client (Backend.setLocalResult tok v) s
  | OpTransition updatedQueries => onTransition updatedQueries s
  | OpFireTimer t => fireTimer t s
  | OpMutation name args => mutation name args s
  | OpAction name args => action name args s
  | OpSetAuth => setAuth s
  | OpClearAuth => clearAuth s
  | OpAuthChanged a => authChanged a s
  end.

Definition run (ops : list Op) (s : Client) : Client := foldl (λ s o, step o s) s ops.

(** ** The variant with a tri-state authenticated cell

    The later variant of client.ts creates [#authenticated] with the
    signal factory ([this.#authenticated = this.#signal()], so it starts
    undefined) and has setAuth write [undefined] before it installs the
    callback. Only these two members differ from the client above in
    what concerns authentication. *)

Module TriStateAuth.

(** [new ConvexSignalsClient(baseUrl)] *)
Definition new_client : Client := set_authenticated None new_client.

(** [setAuth(fetcher)]: [this.#authenticated.value = undefined;
    this.#client.setAuth(fetcher, ...)] *)
Definition setAuth (s : Client) : Client :=
  set_client Backend.setAuth (set_authenticated None s).

(** The runs of this variant. Its other members are taken from the
    client above; in neither variant do they write the authenticated
    cell. *)
Definition step (o : Op) (s : Client) : Client :=
  match o with
  | OpSetAuth => setAuth s
  | _ => step o s
  end.

Definition run (ops : list Op) (s : Client) : Client := foldl (λ s o, step o s) s ops.

End TriStateAuth.

(** ** The React hooks (react.ts)

    Of React only the life cycle the hooks rely on is modelled: the
    first render of a component runs the function given to [useMemo],
    and its unmount runs the cleanup the effect returned. *)

Module React.

(** [useQuery(client, query, ...args)], first render:
    [useMemo(() => client.querySignal(query, ...args), ...)]. *)
Definition useQuery (name : string) (args : Args) (s : Client) : CellId * Client :=
  querySignal name args s.

(** The cleanup of useQuery's effect: [() => signal.destroy()]. *)
Definition useQuery_cleanup (signal : CellId) (s : Client) : Client :=
  destroy signal s.

(** [useComputedQuery(client, query, factory)], first render:
    [useMemo(() => client.queryComputed(query, factory), ...)]. *)
Definition useComputedQuery (name : string) (factory : Z → Args) (tracked : bool)
    (s : Client) : ComputedId * Client :=
  queryComputed name factory tracked s.

(** The cleanup of useComputedQuery's effect: [() => signal.destroy()]. *)
Definition useComputedQuery_cleanup (signal : ComputedId) (s : Client) : Client :=
  computed_destroy signal s.

End React.

(** * Predicates and scenarios used in the statements *)

(** Every backend subscription whose unsubscribe capability has never
    been invoked is the one owned by the cell the registry holds for its
    token. *)
Definition coherent (s : Client) : Prop :=
  ∀ sid sub,
    Backend.subscriptions (client s) !! sid = Some sub →
    Backend.sub_unsubscribed sub = 0%nat →
    ∃ c cell, signals s !! Backend.sub_token sub = Some c
              ∧ cells s !! c = Some cell ∧ c_unsubscribe cell = sid.

(** No two backend subscriptions whose capability has never been
    invoked are for the same token. *)
Definition noDuplicateLive (s : Client) : Prop :=
  ∀ i j si sj,
    Backend.subscriptions (client s) !! i = Some si →
    Backend.subscriptions (client s) !! j = Some sj →
    Backend.sub_unsubscribed si = 0%nat →
    Backend.sub_unsubscribed sj = 0%nat →
    Backend.sub_token si = Backend.sub_token sj →
    i = j.

(** Two states of one cell: the closure variables are the same. *)
Definition same_identity (a b : Cell) : Prop :=
  c_name b = c_name a ∧ c_args b = c_args a
  ∧ c_queryToken b = c_queryToken a ∧ c_unsubscribe b = c_unsubscribe a.

(** The listeners of a cell have distinct identities, all handed out
    already. *)
Definition listener_ids_ok (cell : Cell) : Prop :=
  NoDup (c_listeners cell).*1
  ∧ ∀ l, l ∈ (c_listeners cell).*1 → (l < c_nextListener cell)%nat.

(** What holds between a client and any later state of it: cells are
    never removed from the heap and keep their closure variables,
    [IsLoaded] is never reset, listener identities stay unique, the
    registry only gains entries for cells created later (under their
    own token), the backend never forgets a subscription or an
    unsubscribe call, and the authenticated cell changes only to a
    reported outcome. *)
Record evolves (s s' : Client) : Prop := mkEvolves {
  ev_cells : ∀ c cell, cells s !! c = Some cell →
    ∃ cell', cells s' !! c = Some cell' ∧ same_identity cell cell'
             ∧ (c_IsLoaded cell = true → c_IsLoaded cell' = true)
             ∧ (listener_ids_ok cell → listener_ids_ok cell');
  ev_new : ∀ c cell', cells s' !! c = Some cell' → cells s !! c = None →
    listener_ids_ok cell';
  ev_signals : ∀ tok c, signals s' !! tok = Some c →
    signals s !! tok = Some c
    ∨ ((length (cells s) ≤ c)%nat
       ∧ ∃ cell', cells s' !! c = Some cell' ∧ c_queryToken cell' = tok);
  ev_subs : ∀ sid sub, Backend.subscriptions (client s) !! sid = Some sub →
    ∃ sub', Backend.subscriptions (client s') !! sid = Some sub'
            ∧ Backend.sub_token sub' = Backend.sub_token sub
            ∧ (Backend.sub_unsubscribed sub ≤ Backend.sub_unsubscribed sub')%nat;
  ev_auth : authenticated s' = authenticated s ∨ is_Some (authenticated s');
}.

(** An evolution that leaves every [IsLoaded] as it is. *)
Definition quiet (s s' : Client) : Prop :=
  evolves s s' ∧ ∀ c, isLoaded c s' = isLoaded c s.

(** What an in-place update of a cell has to keep. *)
Definition keeps (f : Cell → Cell) : Prop :=
  ∀ cell, same_identity cell (f cell)
          ∧ (listener_ids_ok cell → listener_ids_ok (f cell)).

(** The operations of a run that are not a transition notification. *)
Definition isTransition (o : Op) : bool :=
  match o with OpTransition _ => true | _ => false end.

(** The registry holds, under a token, a cell created for that token. *)
Definition registry_ok (s : Client) : Prop :=
  ∀ tok c, signals s !! tok = Some c →
    ∃ cell, cells s !! c = Some cell ∧ c_queryToken cell = tok.

(** Every cell has well-identified listeners. *)
Definition listeners_ok (s : Client) : Prop :=
  ∀ c cell, cells s !! c = Some cell → listener_ids_ok cell.

(** The invariant of every reachable client. *)
Definition well_formed (s : Client) : Prop := registry_ok s ∧ listeners_ok s.

(** A promise during a notification with [v]: untouched, or resolved
    with [v] if it was pending. *)
Definition settled_by (v : Value) (a b : option PromiseState) : Prop :=
  b = a ∨ (a = Some Pending ∧ b = Some (Resolved v)).

(** A timer during a notification: untouched, or cleared if it was
    armed. *)
Definition cleared_by (a b : option TimerState) : Prop :=
  b = a ∨ (∃ cb ms, a = Some (Armed cb ms) ∧ b = Some Cleared).

(** What the listeners of cell [c] can do while they are notified with
    [v]: resolve pending promises with [v], clear armed timers, remove
    listeners of [c], decrement its counter and remove tokens from the
    registry. No other cell is touched, no value and no [IsLoaded]
    changes. *)
Record notified (c : CellId) (v : Value) (s s' : Client) : Prop := mkNotified {
  nt_promises : ∀ p, settled_by v (promises s !! p) (promises s' !! p);
  nt_timers : ∀ t, cleared_by (timers s !! t) (timers s' !! t);
  nt_others : ∀ c', c' ≠ c → cells s' !! c' = cells s !! c';
  nt_value : value c s' = value c s;
  nt_isLoaded : isLoaded c s' = isLoaded c s;
  nt_counter : counter c s' ≤ counter c s;
  nt_subscribed : ∀ l, subscribed c l s' = true → subscribed c l s = true;
  nt_signals : ∀ tok c', signals s' !! tok = Some c' → signals s !! tok = Some c';
}.

(** A cell that exists but that the registry does not hold. *)
Definition detached (c : CellId) (s : Client) : Prop :=
  (c < length (cells s))%nat ∧ ∀ tok, signals s !! tok ≠ Some c.

(** What sync leaves behind before its listener has run. *)
Definition sync_setup (c : CellId) (cell : Cell) (timeout : Z) (s : Client) : Client :=
  let p := length (promises s) in
  let t := length (timers s) in
  let l := c_nextListener cell in
  record_call c l (c_value cell)
    (upd_cell c (cell_addListener (SyncListener p t))
       (set_timers (λ ts, ts ++ [Armed (SyncTimeout c l p) timeout])
          (set_promises (λ ps, ps ++ [Pending]) s))).

(** What query leaves behind on a cell that is not loaded: a pending
    promise, an armed timer, the counter incremented and the listener
    subscribed. [s1] is the client after query's call of querySignal. *)
Definition query_setup (c : CellId) (cell : Cell) (timeout : Z) (s1 : Client) : Client :=
  let p := length (promises s1) in
  let t := length (timers s1) in
  let l := c_nextListener cell in
  record_call c l (c_value cell)
    (upd_cell c (cell_addListener (QueryListener p t))
       (upd_cell c (λ cell, cell_setCounter (c_counter cell + 1) cell)
          (set_timers (λ ts, ts ++ [Armed (QueryTimeout p) timeout])
             (set_promises (λ ps, ps ++ [Pending]) s1)))).

(** N independent subscribe calls; the capabilities they return, in
    order. *)
Fixpoint subscribeAll (c : CellId) (tags : list nat) (s : Client)
    : list ListenerId * Client :=
  match tags with
  | [] => ([], s)
  | tag :: rest =>
      let '(l, s) := subscribe c (ExternalListener tag) s in
      let '(ls, s) := subscribeAll c rest s in
      (match l with Some l => l :: ls | None => ls end, s)
  end.

(** Invoking capabilities one after the other. *)
Definition unsubAll (c : CellId) (us : list ListenerId) (s : Client) : Client :=
  foldl (λ s l, unsub c l s) s us.

(** The first derivation has to be evaluated: never evaluated yet, or
    the trigger it tracks was written since. *)
Definition stale (cp : Computed) (s : Client) : Prop :=
  match cp_cache cp with
  | None => True
  | Some (ver, _) => cp_tracked cp = true ∧ ver ≠ triggerVersion s
  end.

(** The argument function of the example: one argument set while the
    trigger is 0, another afterwards. *)
Definition flipArgs (z : Z) : Args := if decide (z = 0) then "{room:1}" else "{room:2}".

(** The registry holds cell [c] under the token of [c]. *)
Definition registered (c : CellId) (s : Client) : Prop :=
  ∃ cell, cells s !! c = Some cell ∧ signals s !! c_queryToken cell = Some c.

(** An operation is proper when it does not reach, through a retained
    handle, into a cell the registry no longer holds: refresh, destroy
    and the capabilities of subscribe are invoked on registered cells
    only. *)
Definition proper (o : Op) (s : Client) : Prop :=
  match o with
  | OpUnsub c _ | OpRefresh c | OpDestroy c => registered c s
  | OpComputedRefresh k | OpComputedDestroy k =>
      match (computed_sig k s).1 with
      | Some c => registered c (computed_sig k s).2
      | None => True
      end
  | _ => True
  end.

Fixpoint proper_run (ops : list Op) (s : Client) : Prop :=
  match ops with
  | [] => True
  | o :: ops => proper o s ∧ proper_run ops (step o s)
  end.

(** A step that leaves the registry and the backend subscriptions as
    they are. *)
Definition calm (s s' : Client) : Prop :=
  signals s' = signals s
  ∧ Backend.subscriptions (client s') = Backend.subscriptions (client s).

(** While the listeners of [c] run: every capability never invoked
    belongs to a registered cell, and [c] is registered unless its
    counter can no longer reach zero. *)
Definition tearable (c : CellId) (s : Client) : Prop :=
  coherent s ∧ (registered c s ∨ counter c s ≤ 0).

(** Every cell holds the capability of a backend subscription that was
    opened for the cell's own token. *)
Definition capabilities_ok (s : Client) : Prop :=
  ∀ c cell, cells s !! c = Some cell →
    ∃ sub, Backend.subscriptions (client s) !! c_unsubscribe cell = Some sub
           ∧ Backend.sub_token sub = c_queryToken cell.

(** The backend holds exactly one subscriber for every token of the
    registry and none for any other token. *)
Definition counted (s : Client) : Prop :=
  ∀ tok, Backend.numSubscribers (client s) !! tok
         = match signals s !! tok with Some _ => Some 1%nat | None => None end.

(** The registry and the backend are in step. *)
Definition synchronized (s : Client) : Prop := capabilities_ok s ∧ counted s.

(** The operations that can tear a cell down: destroy, the
    capabilities returned by subscribe, and query(), whose listener
    invokes its own capability. *)
Definition tearsDown (o : Op) : bool :=
  match o with
  | OpUnsub _ _ | OpDestroy _ | OpComputedDestroy _ | OpQuery _ _ _ => true
  | _ => false
  end.

(** A listener that is not the one of a query(). *)
Definition notQueryListener (fn : Listener) : Prop :=
  match fn with QueryListener _ _ => False | _ => True end.

(** No query() is waiting on any cell. *)
Definition noPendingQuery (s : Client) : Prop :=
  ∀ c cell e, cells s !! c = Some cell → e ∈ c_listeners cell → notQueryListener e.2.

(** From [s0] to [s] the registry has lost no entry, and no query() is
    waiting in [s]. *)
Definition retains (s0 s : Client) : Prop :=
  (∀ tok c, signals s0 !! tok = Some c → signals s !! tok = Some c)
  ∧ noPendingQuery s.

(** What the derivations of the computed queries depend on. *)
Definition derivations (s : Client) : list Computed * Z * nat :=
  (computeds s, trigger s, triggerVersion s).

(** The cell a derivation returned last exists, and as long as the
    input of the derivation has not been written since, it is a cell
    created for the pair the argument function gives now. *)
Definition cache_ok (s : Client) : Prop :=
  ∀ k cp ver c, computeds s !! k = Some cp → cp_cache cp = Some (ver, c) →
    (ver ≤ triggerVersion s)%nat
    ∧ ∃ cell, cells s !! c = Some cell
        ∧ (ver = triggerVersion s →
           c_queryToken cell
           = Backend.serializePathAndArgs (cp_query cp) (cp_argsFn cp (trigger s))).

(** What holds of the promises and timers between a client and any
    later state of it: a settled promise keeps its outcome, and a timer
    that was cleared or has fired stays so. *)
Definition stable (s s' : Client) : Prop :=
  (∀ p st, promises s !! p = Some st → st ≠ Pending → promises s' !! p = Some st)
  ∧ (∀ t st, timers s !! t = Some st → st = Cleared ∨ st = Fired →
             timers s' !! t = Some st).

(** Cell [c] was not created under token [tok] (the token under which a
    cell was created is the only one its listeners can remove from the
    registry). *)
Definition ownsNot (tok : QueryToken) (c : CellId) (s : Client) : Prop :=
  match cells s !! c with
  | Some cell => bool_decide (c_queryToken cell = tok) | None => false end = false.

(** * Properties *)

(** ** Elementary facts about the heaps *)

Lemma alter_snoc {A} (f : A → A) (l : list A) (x : A) :
  alter f (length l) (l ++ [x]) = l ++ [f x].
Proof.
  replace (length l) with (length l + 0)%nat by lia.
  by rewrite alter_app_r.
Qed.

Lemma lookup_snoc_new {A} (l : list A) (x : A) : (l ++ [x]) !! length l = Some x.
Proof. by rewrite lookup_app_r, Nat.sub_diag. Qed.

(** ** The registry deduplicates by token *)

Lemma coherent_noDuplicateLive s : coherent s → noDuplicateLive s.
Proof.
  intros Hc i j si sj Hi Hj Li Lj Htok.
  destruct (Hc i si Hi Li) as (c & cell & Hs & Hcell & <-).
  destruct (Hc j sj Hj Lj) as (c' & cell' & Hs' & Hcell' & <-).
  rewrite Htok in Hs. congruence.
Qed.

Lemma coherent_new_client : coherent new_client.
Proof. intros sid sub H. simpl in H. by rewrite lookup_nil in H. Qed.

(** A call that finds the token in the registry. *)
Lemma querySignal_known name args s c :
  signals s !! Backend.serializePathAndArgs name args = Some c →
  querySignal name args s =
    (c, set_client
          (λ b, Backend.mkBackend
                  (Backend.subscriptions b
                     ++ [Backend.mkSubscription (Backend.serializePathAndArgs name args) 1])
                  (Backend.localResults b) (Backend.onAuthChange b)
                  (Backend.removeSubscriber (Backend.serializePathAndArgs name args)
                     (Backend.addSubscriber (Backend.serializePathAndArgs name args)
                        (Backend.numSubscribers b)))) s).
Proof.
  intros H. unfold querySignal, Backend.subscribe. simpl. rewrite H.
  unfold set_client, Backend.unsubscribe. simpl.
  by rewrite alter_snoc, lookup_snoc_new.
Qed.

(** A call that does not. *)
Lemma querySignal_fresh name args s :
  signals s !! Backend.serializePathAndArgs name args = None →
  querySignal name args s =
    (length (cells s),
     set_signals (<[Backend.serializePathAndArgs name args := length (cells s)]>)
       (set_cells (λ cs, cs ++ [newCell name args (Backend.serializePathAndArgs name args)
                                        (length (Backend.subscriptions (client s)))])
          (set_client
             (λ b, Backend.mkBackend
                     (Backend.subscriptions b
                        ++ [Backend.mkSubscription (Backend.serializePathAndArgs name args) 0])
                     (Backend.localResults b) (Backend.onAuthChange b)
                     (Backend.addSubscriber (Backend.serializePathAndArgs name args)
                        (Backend.numSubscribers b))) s))).
Proof.
  intros H. unfold querySignal, Backend.subscribe. simpl. by rewrite H.
Qed.

Lemma querySignal_registers name args s :
  signals (querySignal name args s).2 !! Backend.serializePathAndArgs name args
  = Some (querySignal name args s).1.
Proof.
  destruct (signals s !! Backend.serializePathAndArgs name args) as [c|] eqn:E.
  - by rewrite (querySignal_known _ _ _ _ E).
  - rewrite (querySignal_fresh _ _ _ E). simpl. apply lookup_insert_eq.
Qed.

Lemma querySignal_coherent name args s :
  coherent s → coherent (querySignal name args s).2.
Proof.
  intros Hc.
  destruct (signals s !! Backend.serializePathAndArgs name args) as [c|] eqn:E.
  - rewrite (querySignal_known _ _ _ _ E). intros sid sub. simpl.
    intros [H|[_ H]]%lookup_app_Some L.
    + by apply Hc.
    + apply list_lookup_singleton_Some in H as [_ <-]. discriminate.
  - rewrite (querySignal_fresh _ _ _ E). intros sid sub. simpl.
    intros [H|[Hle H]]%lookup_app_Some L.
    + destruct (Hc sid sub H L) as (c & cell & Hs & Hcell & Hu).
      exists c, cell. split_and!; [|by apply lookup_app_l_Some|done].
      rewrite lookup_insert_ne; [done|]. intros Heq. congruence.
    + apply list_lookup_singleton_Some in H as [Hz <-]. simpl.
      eexists _, _. split_and!.
      * apply lookup_insert_eq.
      * apply lookup_snoc_new.
      * simpl. lia.
Qed.


(** ** How a client evolves *)

Lemma same_identity_refl a : same_identity a a.
Proof. by repeat split. Qed.

Lemma same_identity_trans a b c :
  same_identity a b → same_identity b c → same_identity a c.
Proof. unfold same_identity. intuition congruence. Qed.

Lemma evolves_refl s : evolves s s.
Proof.
  split.
  - intros c cell H. exists cell. auto using same_identity_refl.
  - intros c cell' H H'. congruence.
  - auto.
  - intros sid sub H. exists sub. auto.
  - by left.
Qed.

Lemma evolves_length s s' : evolves s s' → (length (cells s) ≤ length (cells s'))%nat.
Proof.
  intros [Hc _ _ _ _].
  destruct (decide (length (cells s) = 0%nat)) as [->|Hne]; [lia|].
  destruct (lookup_lt_is_Some_2 (cells s) (length (cells s) - 1)) as [cell Hcell]; [lia|].
  destruct (Hc _ _ Hcell) as (cell' & H' & _).
  apply lookup_lt_Some in H'. lia.
Qed.

Lemma evolves_trans s1 s2 s3 : evolves s1 s2 → evolves s2 s3 → evolves s1 s3.
Proof.
  intros H12 H23. pose proof (evolves_length _ _ H12) as Hlen.
  destruct H12 as [C12 N12 S12 B12 A12], H23 as [C23 N23 S23 B23 A23]. split.
  - intros c cell H. destruct (C12 _ _ H) as (cell2 & H2 & I2 & L2 & W2).
    destruct (C23 _ _ H2) as (cell3 & H3 & I3 & L3 & W3).
    exists cell3. split_and!; [done|by eapply same_identity_trans|auto|auto].
  - intros c cell3 H3 H1. destruct (cells s2 !! c) as [cell2|] eqn:H2.
    + destruct (C23 _ _ H2) as (cell3' & H3' & _ & _ & W3).
      rewrite H3 in H3'. injection H3' as <-. eauto.
    + eauto.
  - intros tok c H. destruct (S23 _ _ H) as [H2|[Hle H2]].
    + destruct (S12 _ _ H2) as [H1|[Hle (cell2 & Hc2 & Ht2)]]; [by left|].
      right. split; [done|].
      destruct (C23 _ _ Hc2) as (cell3 & H3 & (_ & _ & Ht3 & _) & _).
      exists cell3. split; [done|congruence].
    + right. split; [lia|done].
  - intros sid sub H. destruct (B12 _ _ H) as (sub2 & H2 & T2 & U2).
    destruct (B23 _ _ H2) as (sub3 & H3 & T3 & U3).
    exists sub3. split_and!; [done|congruence|lia].
  - destruct A23 as [E23|?]; [|by right]. rewrite E23.
    destruct A12 as [E12|?]; [by left|by right].
Qed.

Lemma quiet_refl s : quiet s s.
Proof. split; [apply evolves_refl|done]. Qed.

Lemma quiet_trans s1 s2 s3 : quiet s1 s2 → quiet s2 s3 → quiet s1 s3.
Proof.
  intros [E12 L12] [E23 L23]. split; [by eapply evolves_trans|].
  intros c. by rewrite L23.
Qed.

(** A step that touches neither the cells, the registry nor the
    backend subscriptions. *)
Lemma quiet_frame s s' :
  cells s' = cells s → signals s' = signals s →
  Backend.subscriptions (client s') = Backend.subscriptions (client s) →
  authenticated s' = authenticated s ∨ is_Some (authenticated s') →
  quiet s s'.
Proof.
  intros Hc Hs Hb Ha. split; [split|].
  - intros c cell H. exists cell. rewrite Hc. auto using same_identity_refl.
  - intros c cell'. rewrite Hc. congruence.
  - intros tok c. rewrite Hs. auto.
  - intros sid sub H. exists sub. rewrite Hb. auto.
  - done.
  - intros c. unfold isLoaded. by rewrite Hc.
Qed.

Lemma quiet_same s s' :
  cells s' = cells s → signals s' = signals s →
  Backend.subscriptions (client s') = Backend.subscriptions (client s) →
  authenticated s' = authenticated s →
  quiet s s'.
Proof. intros Hc Hs Hb Ha. apply quiet_frame; auto. Qed.

Lemma evolves_upd_cell c f s :
  keeps f → (∀ cell, c_IsLoaded cell = true → c_IsLoaded (f cell) = true) →
  evolves s (upd_cell c f s).
Proof.
  intros Hf Hl. split; simpl; auto.
  - intros c' cell H. rewrite list_lookup_alter.
    case_decide as Hd; [|by eauto 6 using same_identity_refl].
    subst c'. rewrite H. simpl. exists (f cell). destruct (Hf cell) as [? ?]. auto.
  - intros c' cell'. rewrite list_lookup_alter. case_decide as Hd; [|congruence].
    subst c'. intros H1 H2. rewrite H2 in H1. discriminate.
  - intros sid sub H. exists sub. auto.
Qed.

Lemma quiet_upd_cell c f s :
  keeps f → (∀ cell, c_IsLoaded (f cell) = c_IsLoaded cell) →
  quiet s (upd_cell c f s).
Proof.
  intros Hf Hl. split.
  - apply evolves_upd_cell; [done|]. intros cell. by rewrite Hl.
  - intros c'. unfold isLoaded. simpl. rewrite list_lookup_alter.
    case_decide as Hd; [|done]. subst c'. destruct (cells s !! c); simpl; [|done].
    apply Hl.
Qed.

Lemma keeps_setIsLoaded b : keeps (cell_setIsLoaded b).
Proof. intros cell. split; [by repeat split|intros H; exact H]. Qed.

Lemma keeps_setValue v : keeps (cell_setValue v).
Proof. intros cell. split; [by repeat split|intros H; exact H]. Qed.

Lemma keeps_setCounter f : keeps (λ cell, cell_setCounter (f cell) cell).
Proof. intros cell. split; [by repeat split|intros H; exact H]. Qed.

Lemma keeps_addListener fn : keeps (cell_addListener fn).
Proof.
  intros cell. split; [by repeat split|]. intros [Hnd Hlt]. split; simpl.
  - rewrite fmap_app. apply NoDup_app. split_and!; [done| |apply NoDup_singleton].
    intros l Hl Hin. simpl in Hin. apply list_elem_of_singleton in Hin. subst l.
    apply Hlt in Hl. lia.
  - intros l. rewrite fmap_app, elem_of_app. simpl.
    intros [Hl|Hin]; [apply Hlt in Hl; lia|].
    apply list_elem_of_singleton in Hin. lia.
Qed.

Lemma keeps_removeListener l : keeps (cell_removeListener l).
Proof.
  intros cell. split; [by repeat split|]. intros [Hnd Hlt]. split; simpl.
  - revert Hnd. generalize (c_listeners cell). intros ls. induction ls as [|e ls IH]; [done|].
    simpl. rewrite NoDup_cons. intros [Hne Hnd].
    rewrite filter_cons. case_decide; [|auto].
    simpl. rewrite NoDup_cons. split; [|auto].
    intros Hin. apply Hne. apply list_elem_of_fmap in Hin as (e' & -> & Hin).
    apply list_elem_of_filter in Hin as [_ Hin]. by apply list_elem_of_fmap_2.
  - intros l' Hin. apply Hlt. apply list_elem_of_fmap in Hin as (e' & -> & Hin).
    apply list_elem_of_filter in Hin as [_ Hin]. by apply list_elem_of_fmap_2.
Qed.

Lemma evolves_setIsLoaded c s : evolves s (upd_cell c (cell_setIsLoaded true) s).
Proof. apply evolves_upd_cell; [apply keeps_setIsLoaded|done]. Qed.

(** Invoking a backend unsubscribe capability. *)
Lemma quiet_backend_unsubscribe sid s :
  quiet s (set_client (Backend.unsubscribe sid) s).
Proof.
  split; [split|]; simpl; auto.
  - intros c cell H. exists cell. auto using same_identity_refl.
  - congruence.
  - intros sid' sub H. rewrite list_lookup_alter. case_decide as Hd; [|by eauto].
    subst sid'. rewrite H. simpl. eexists. split; [done|]. simpl. split; [done|lia].
Qed.

(** Removing a token from the registry. *)
Lemma quiet_signals_delete tok s : quiet s (set_signals (delete tok) s).
Proof.
  split; [split|]; simpl; auto.
  - intros c cell H. exists cell. auto using same_identity_refl.
  - congruence.
  - intros tok' c. rewrite lookup_delete_Some. intros [_ ?]. auto.
  - intros sid sub H. exists sub. auto.
Qed.

Lemma listener_ids_ok_newCell name args tok sid :
  listener_ids_ok (newCell name args tok sid).
Proof. split; simpl; [apply NoDup_nil_2|]. intros l Hl. by apply elem_of_nil in Hl. Qed.

(** Creating a cell: a backend subscription is opened, the cell is
    allocated and registered. *)
Lemma quiet_create name args tok sid ns s :
  quiet s (set_signals (<[tok := length (cells s)]>)
             (set_cells (λ cs, cs ++ [newCell name args tok sid])
                (set_client
                   (λ b, Backend.mkBackend
                           (Backend.subscriptions b ++ [Backend.mkSubscription tok 0])
                           (Backend.localResults b) (Backend.onAuthChange b)
                           (ns b)) s))).
Proof.
  split; [split|]; simpl.
  - intros c cell H. exists cell. split; [by apply lookup_app_l_Some|].
    auto using same_identity_refl.
  - intros c cell' H Hn. apply lookup_ge_None_1 in Hn.
    rewrite lookup_app_r in H by done.
    apply list_lookup_singleton_Some in H as [_ <-].
    apply listener_ids_ok_newCell.
  - intros tok' c. rewrite lookup_insert_Some. intros [[<- <-]|[_ ?]]; [|auto].
    right. split; [done|]. eexists. split; [apply lookup_snoc_new|done].
  - intros sid' sub H. exists sub. split; [by apply lookup_app_l_Some|]. auto.
  - by left.
  - intros c. unfold isLoaded. simpl.
    destruct (decide (c < length (cells s))%nat) as [Hlt|Hge].
    + by rewrite lookup_app_l.
    + rewrite (lookup_ge_None_2 (cells s)) by lia.
      rewrite lookup_app_r by lia.
      by destruct (c - length (cells s))%nat as [|[|n]].
Qed.

(** Opening and at once releasing a backend subscription. *)
Lemma quiet_speculative tok ns s :
  quiet s (set_client
             (λ b, Backend.mkBackend
                     (Backend.subscriptions b ++ [Backend.mkSubscription tok 1])
                     (Backend.localResults b) (Backend.onAuthChange b)
                     (ns b)) s).
Proof.
  split; [split|]; simpl; auto.
  - intros c cell H. exists cell. auto using same_identity_refl.
  - congruence.
  - intros sid' sub H. exists sub. split; [by apply lookup_app_l_Some|]. auto.
Qed.

(** Every operation but the transition dispatcher is quiet. The lemmas
    are stated so that they chain: if [s0] evolved quietly into [s],
    it evolved quietly into the result of the operation on [s]. *)

Create HintDb quiet.

Ltac quiet_same := eapply quiet_trans; [eassumption|by apply quiet_same].

Lemma quiet_record_call s0 c l v s : quiet s0 s → quiet s0 (record_call c l v s).
Proof. intros. quiet_same. Qed.

Lemma quiet_resolve s0 p v s : quiet s0 s → quiet s0 (resolve p v s).
Proof. intros. quiet_same. Qed.

Lemma quiet_reject s0 p e s : quiet s0 s → quiet s0 (reject p e s).
Proof. intros. quiet_same. Qed.

Lemma quiet_clearTimeout s0 t s : quiet s0 s → quiet s0 (clearTimeout t s).
Proof. intros. quiet_same. Qed.

Lemma quiet_newPromise s0 s : quiet s0 s → quiet s0 (newPromise s).2.
Proof. intros. quiet_same. Qed.

Lemma quiet_setTimeout s0 cb ms s : quiet s0 s → quiet s0 (setTimeout cb ms s).2.
Proof. intros. quiet_same. Qed.

Lemma quiet_set_timers s0 f s : quiet s0 s → quiet s0 (set_timers f s).
Proof. intros. quiet_same. Qed.

Lemma quiet_set_computeds s0 f s : quiet s0 s → quiet s0 (set_computeds f s).
Proof. intros. quiet_same. Qed.

Lemma quiet_sig_unsubscribe s0 c l s : quiet s0 s → quiet s0 (sig_unsubscribe c l s).
Proof.
  intros. eapply quiet_trans; [eassumption|].
  apply quiet_upd_cell; [apply keeps_removeListener|done].
Qed.

Lemma quiet_setCounter s0 c f s :
  quiet s0 s → quiet s0 (upd_cell c (λ cell, cell_setCounter (f cell) cell) s).
Proof.
  intros. eapply quiet_trans; [eassumption|].
  apply quiet_upd_cell; [apply keeps_setCounter|done].
Qed.

Lemma quiet_addListener s0 c fn s :
  quiet s0 s → quiet s0 (upd_cell c (cell_addListener fn) s).
Proof.
  intros. eapply quiet_trans; [eassumption|].
  apply quiet_upd_cell; [apply keeps_addListener|done].
Qed.

Lemma quiet_setValue s0 c v s :
  quiet s0 s → quiet s0 (upd_cell c (cell_setValue v) s).
Proof.
  intros. eapply quiet_trans; [eassumption|].
  apply quiet_upd_cell; [apply keeps_setValue|done].
Qed.

Lemma quiet_unsubscribe_backend s0 sid s :
  quiet s0 s → quiet s0 (set_client (Backend.unsubscribe sid) s).
Proof. intros. eapply quiet_trans; [eassumption|]. apply quiet_backend_unsubscribe. Qed.

Lemma quiet_delete s0 tok s : quiet s0 s → quiet s0 (set_signals (delete tok) s).
Proof. intros. eapply quiet_trans; [eassumption|]. apply quiet_signals_delete. Qed.

#[export] Hint Resolve quiet_refl quiet_record_call quiet_resolve quiet_reject
  quiet_clearTimeout quiet_newPromise quiet_setTimeout quiet_set_timers
  quiet_set_computeds quiet_sig_unsubscribe quiet_setCounter quiet_addListener
  quiet_setValue quiet_unsubscribe_backend quiet_delete : quiet.

Lemma quiet_unsub s0 c l s : quiet s0 s → quiet s0 (unsub c l s).
Proof.
  intros. unfold unsub. destruct (cells s !! c); [|done].
  case_decide; eauto 10 with quiet.
Qed.

#[export] Hint Resolve quiet_unsub : quiet.

Lemma quiet_run_listener s0 initial c l fn v s :
  quiet s0 s → quiet s0 (run_listener initial c l fn v s).1.
Proof.
  intros. unfold run_listener. destruct fn; simpl.
  - auto with quiet.
  - destruct (isLoaded c _); simpl; [|auto with quiet].
    destruct initial; auto 10 with quiet.
  - destruct (isLoaded c _); simpl; [|auto with quiet].
    destruct initial; simpl; auto 10 with quiet.
Qed.

#[export] Hint Resolve quiet_run_listener : quiet.

Lemma quiet_sig_subscribe s0 c fn s :
  quiet s0 s → quiet s0 (sig_subscribe c fn s).1.2.
Proof.
  intros. unfold sig_subscribe. destruct (cells s !! c) as [cell|]; [|done].
  destruct (run_listener _ _ _ _ _ _) as [s' threw] eqn:E.
  assert (quiet s0 s') as Hs'.
  { replace s' with (run_listener true c (c_nextListener cell) fn (c_value cell)
                       (upd_cell c (cell_addListener fn) s)).1 by (by rewrite E).
    auto with quiet. }
  destruct threw; simpl; auto with quiet.
Qed.

#[export] Hint Resolve quiet_sig_subscribe : quiet.

Lemma quiet_notify c v snapshot : ∀ s0 s, quiet s0 s → quiet s0 (notify c v snapshot s).
Proof.
  induction snapshot as [|[l fn] rest IH]; intros s0 s H; simpl; [done|].
  apply IH. destruct (subscribed c l s); auto with quiet.
Qed.

#[export] Hint Resolve quiet_notify : quiet.

Lemma quiet_sig_write s0 c v s : quiet s0 s → quiet s0 (sig_write c v s).
Proof.
  intros. unfold sig_write. destruct (cells s !! c); [|done].
  case_decide; auto with quiet.
Qed.

#[export] Hint Resolve quiet_sig_write : quiet.

Lemma quiet_refresh s0 c s : quiet s0 s → quiet s0 (refresh c s).
Proof. intros. unfold refresh. destruct (cells s !! c); auto with quiet. Qed.

Lemma quiet_destroy s0 c s : quiet s0 s → quiet s0 (destroy c s).
Proof. intros. unfold destroy. destruct (cells s !! c); auto with quiet. Qed.

Lemma quiet_querySignal s0 name args s :
  quiet s0 s → quiet s0 (querySignal name args s).2.
Proof.
  intros. eapply quiet_trans; [eassumption|].
  destruct (signals s !! Backend.serializePathAndArgs name args) as [c|] eqn:E.
  - rewrite (querySignal_known _ _ _ _ E). apply quiet_speculative.
  - rewrite (querySignal_fresh _ _ _ E). apply quiet_create.
Qed.

Lemma quiet_subscribe s0 c fn s : quiet s0 s → quiet s0 (subscribe c fn s).2.
Proof.
  intros. unfold subscribe.
  destruct (sig_subscribe _ _ _) as [[l s'] threw] eqn:E. simpl.
  replace s' with (sig_subscribe c fn
    (upd_cell c (λ cell, cell_setCounter (c_counter cell + 1) cell) s)).1.2
    by (by rewrite E).
  apply quiet_sig_subscribe, (quiet_setCounter _ _ (λ cell, c_counter cell + 1)), H.
Qed.

#[export] Hint Resolve quiet_refresh quiet_destroy quiet_querySignal
  quiet_subscribe : quiet.

Lemma quiet_sync s0 c timeout s : quiet s0 s → quiet s0 (sync c timeout s).2.
Proof.
  intros. unfold sync. simpl.
  destruct (sig_subscribe _ _ _) as [[l s'] threw] eqn:E. simpl.
  match type of E with sig_subscribe ?c ?fn ?s1 = _ =>
    replace s' with (sig_subscribe c fn s1).1.2 by (by rewrite E) end.
  apply quiet_sig_subscribe. quiet_same.
Qed.

Lemma quiet_query s0 name args timeout s :
  quiet s0 s → quiet s0 (query name args timeout s).2.
Proof.
  intros. unfold query.
  destruct (querySignal name args s) as [signal s1] eqn:E1. simpl.
  assert (quiet s0 s1) as H1.
  { replace s1 with (querySignal name args s).2 by (by rewrite E1). auto with quiet. }
  destruct (subscribe _ _ _) as [r s2] eqn:E2. simpl.
  assert (quiet s0 s2) as H2.
  { match type of E2 with subscribe ?c ?fn ?sx = _ =>
      replace s2 with (subscribe c fn sx).2 by (by rewrite E2) end.
    apply quiet_subscribe. quiet_same. }
  destruct r; auto with quiet.
Qed.

Lemma quiet_fireTimer s0 t s : quiet s0 s → quiet s0 (fireTimer t s).
Proof.
  intros. unfold fireTimer. destruct (timers s !! t) as [[cb ms| |]|]; try done.
  destruct cb; auto 10 with quiet.
Qed.

Lemma quiet_computed_sig s0 k s : quiet s0 s → quiet s0 (computed_sig k s).2.
Proof.
  intros. unfold computed_sig. destruct (computeds s !! k) as [cp|]; [|done].
  assert (quiet s0
    (let '(c, s1) := querySignal (cp_query cp) (cp_argsFn cp (trigger s)) s in
     (Some c, set_computeds
        (<[k := mkComputed (cp_query cp) (cp_argsFn cp) (cp_tracked cp)
                           (Some (triggerVersion s1, c))]>) s1)).2) as He.
  { destruct (querySignal _ _ s) as [c s1] eqn:E. simpl.
    replace s1 with (querySignal (cp_query cp) (cp_argsFn cp (trigger s)) s).2
      by (by rewrite E).
    auto with quiet. }
  destruct (cp_cache cp) as [[ver c]|]; [|done].
  destruct (cp_tracked cp && _); done.
Qed.

#[export] Hint Resolve quiet_sync quiet_query quiet_fireTimer quiet_computed_sig : quiet.

Lemma quiet_step o s : isTransition o = false → quiet s (step o s).
Proof.
  destruct o; simpl; intros Ht; try discriminate; auto with quiet.
  - unfold computed_value.
    destruct (computed_sig k s) as [c s'] eqn:E. simpl.
    replace s' with (computed_sig k s).2 by (by rewrite E). auto with quiet.
  - unfold computed_isLoaded.
    destruct (computed_sig k s) as [c s'] eqn:E. simpl.
    replace s' with (computed_sig k s).2 by (by rewrite E). auto with quiet.
  - unfold computed_refresh.
    destruct (computed_sig k s) as [c s'] eqn:E.
    assert (quiet s s') by (replace s' with (computed_sig k s).2 by (by rewrite E);
                            auto with quiet).
    destruct c; auto with quiet.
  - unfold computed_subscribe.
    destruct (computed_sig k s) as [c s'] eqn:E.
    assert (quiet s s') by (replace s' with (computed_sig k s).2 by (by rewrite E);
                            auto with quiet).
    destruct c as [c|]; [|done].
    destruct (subscribe c _ s') as [l s''] eqn:E'. simpl.
    replace s'' with (subscribe c (ExternalListener tag) s').2 by (by rewrite E').
    auto with quiet.
  - unfold computed_destroy.
    destruct (computed_sig k s) as [c s'] eqn:E.
    assert (quiet s s') by (replace s' with (computed_sig k s).2 by (by rewrite E);
                            auto with quiet).
    destruct c; auto with quiet.
  - unfold computed_sync.
    destruct (computed_sig k s) as [c s'] eqn:E.
    assert (quiet s s') by (replace s' with (computed_sig k s).2 by (by rewrite E);
                            auto with quiet).
    destruct c as [c|]; [|done].
    destruct (sync c 10000 s') as [p s''] eqn:E'. simpl.
    replace s'' with (sync c 10000 s').2 by (by rewrite E').
    auto with quiet.
  - unfold writeTrigger. case_decide; [apply quiet_refl|by apply quiet_same].
  - by apply quiet_same.
  - by apply quiet_same.
  - by apply quiet_same.
  - unfold authChanged. destruct (Backend.onAuthChange _); [|apply quiet_refl].
    apply quiet_frame; try done. right. by eexists.
Qed.

Lemma evolves_onTransition updatedQueries : ∀ s, evolves s (onTransition updatedQueries s).
Proof.
  induction updatedQueries as [|tok rest IH]; intros s; simpl; [apply evolves_refl|].
  eapply evolves_trans; [|apply IH].
  destruct (signals s !! tok) as [c|]; [|apply evolves_refl].
  eapply evolves_trans; [apply evolves_setIsLoaded|].
  apply quiet_refresh, quiet_refl.
Qed.

Lemma evolves_step o s : evolves s (step o s).
Proof.
  destruct (isTransition o) eqn:E.
  - destruct o; try discriminate. apply evolves_onTransition.
  - by apply quiet_step.
Qed.

Lemma evolves_run ops : ∀ s, evolves s (run ops s).
Proof.
  induction ops as [|o ops IH]; intros s; simpl; [apply evolves_refl|].
  eapply evolves_trans; [apply evolves_step|apply IH].
Qed.

(** ** Well-formed clients *)

Lemma well_formed_new_client : well_formed new_client.
Proof.
  split.
  - intros tok c H. simpl in H. by rewrite lookup_empty in H.
  - intros c cell H. simpl in H. by rewrite lookup_nil in H.
Qed.

Lemma well_formed_evolves s s' : evolves s s' → well_formed s → well_formed s'.
Proof.
  intros [Hc Hn Hs Hb _] [Hr Hl]. split.
  - intros tok c H. destruct (Hs _ _ H) as [H0|[_ H0]]; [|done].
    destruct (Hr _ _ H0) as (cell & Hcell & Htok).
    destruct (Hc _ _ Hcell) as (cell' & Hcell' & (_ & _ & Ht & _) & _).
    exists cell'. split; [done|congruence].
  - intros c cell' H'. destruct (cells s !! c) as [cell|] eqn:E; [|eauto].
    destruct (Hc _ _ E) as (cell'' & H'' & _ & _ & Hw).
    rewrite H' in H''. injection H'' as <-. eauto.
Qed.

(** Every state a client can reach is well formed. *)
Lemma well_formed_run ops : well_formed (run ops new_client).
Proof.
  eapply well_formed_evolves; [apply evolves_run|apply well_formed_new_client].
Qed.

Lemma registry_ok_evolves s s' : evolves s s' → registry_ok s → registry_ok s'.
Proof.
  intros [Hc Hn Hs Hb _] Hr tok c H. destruct (Hs _ _ H) as [H0|[_ H0]]; [|done].
  destruct (Hr _ _ H0) as (cell & Hcell & Htok).
  destruct (Hc _ _ Hcell) as (cell' & Hcell' & (_ & _ & Ht & _) & _).
  exists cell'. split; [done|congruence].
Qed.

Lemma registered_lookup tok c s :
  registry_ok s → signals s !! tok = Some c → registered c s.
Proof.
  intros Hr H. destruct (Hr _ _ H) as (cell & Hcell & <-). by exists cell.
Qed.

(** ** [isLoaded] is monotonic *)

Lemma isLoaded_evolves c s s' :
  evolves s s' → isLoaded c s = true → isLoaded c s' = true.
Proof.
  intros [Hc _ _ _ _]. unfold isLoaded.
  destruct (cells s !! c) as [cell|] eqn:E; [|done].
  destruct (Hc _ _ E) as (cell' & -> & _ & Hl & _). done.
Qed.

(** C2. [isLoaded] is monotonic. A cell created by querySignal starts
    with [isLoaded] false; no operation other than the transition
    dispatcher changes the [isLoaded] of any cell, so the dispatcher is
    the only one that can set it; and once it is true it is true after
    every run of operations (refresh, subscribe, unsubscribe, destroy,
    sync, later transitions and all others). *)
Theorem isLoaded_monotonic (c : CellId) (s : Client) :
  (∀ name args,
     signals s !! Backend.serializePathAndArgs name args = None →
     let r := querySignal name args s in
     is_Some (cells r.2 !! r.1) ∧ isLoaded r.1 r.2 = false)
  ∧ (∀ o, isTransition o = false → isLoaded c (step o s) = isLoaded c s)
  ∧ (∀ ops, isLoaded c s = true → isLoaded c (run ops s) = true).
Proof.
  split_and!.
  - intros name args H. rewrite (querySignal_fresh _ _ _ H). simpl. split.
    + rewrite lookup_snoc_new. by eexists.
    + unfold isLoaded. simpl. by rewrite lookup_snoc_new.
  - intros o Ho. by apply quiet_step.
  - intros ops. apply isLoaded_evolves, evolves_run.
Qed.

Lemma isLoaded_monotonic_witness :
  let s := run [OpQuerySignal "listMessages" "{}";
                OpLocalResult ("listMessages", "{}") (Some 7);
                OpTransition [("listMessages", "{}")]] new_client in
  let later := [OpRefresh 0%nat; OpSubscribe 0%nat 1%nat; OpSync 0%nat 10000;
                OpUnsub 0%nat 0%nat; OpDestroy 0%nat;
                OpTransition [("listMessages", "{}")]; OpRefresh 0%nat] in
  isLoaded 0%nat s = true ∧ isLoaded 0%nat (run later s) = true.
Proof.
  split; [reflexivity|].
  apply (isLoaded_monotonic 0%nat). reflexivity.
Defined.

(** ** What a notification can do *)

Lemma notified_refl c v s : notified c v s s.
Proof. split; auto; try lia; intros; by left. Qed.

Lemma notified_trans c v s1 s2 s3 :
  notified c v s1 s2 → notified c v s2 s3 → notified c v s1 s3.
Proof.
  intros [P12 T12 O12 V12 L12 C12 S12 R12] [P23 T23 O23 V23 L23 C23 S23 R23]. split.
  - intros p. destruct (P12 p) as [E1|[E1 E1']], (P23 p) as [E2|[E2 E2']].
    + left. congruence.
    + right. split; congruence.
    + right. split; congruence.
    + congruence.
  - intros t. destruct (T12 t) as [E1|(cb & ms & E1 & E1')], (T23 t) as [E2|(cb' & ms' & E2 & E2')].
    + left. congruence.
    + right. exists cb', ms'. split; congruence.
    + right. exists cb, ms. split; congruence.
    + congruence.
  - intros c' Hne. rewrite O23, O12; done.
  - congruence.
  - congruence.
  - lia.
  - auto.
  - auto.
Qed.

Lemma field_upd_cell {A} (g : Cell → A) (d : A) c f c' s :
  (∀ cell, g (f cell) = g cell) →
  match cells (upd_cell c f s) !! c' with Some cell => g cell | None => d end
  = match cells s !! c' with Some cell => g cell | None => d end.
Proof.
  intros Hg. simpl. rewrite list_lookup_alter. case_decide as Hd; [|done].
  subst c'. destruct (cells s !! c); simpl; [apply Hg|done].
Qed.

Lemma subscribed_removeListener c l l' s :
  subscribed c l (sig_unsubscribe c l' s)
  = bool_decide (l ≠ l') && subscribed c l s.
Proof.
  unfold subscribed, listeners, sig_unsubscribe. simpl.
  rewrite list_lookup_alter_eq. destruct (cells s !! c) as [cell|]; simpl.
  - apply eq_true_iff_eq. rewrite andb_true_iff, !bool_decide_eq_true.
    rewrite !list_elem_of_fmap. split.
    + intros (e & -> & [Hne Hin]%list_elem_of_filter). eauto.
    + intros [Hne (e & -> & Hin)]. exists e. split; [done|].
      by apply list_elem_of_filter.
  - by rewrite andb_false_r.
Qed.

Lemma notified_same c v s s' :
  cells s' = cells s → signals s' = signals s →
  promises s' = promises s → timers s' = timers s →
  notified c v s s'.
Proof.
  intros Hc Hs Hp Ht.
  split; unfold value, isLoaded, counter, subscribed, listeners;
    rewrite ?Hc, ?Hs, ?Hp, ?Ht; auto; try lia; intros; by left.
Qed.

Lemma notified_record_call c v l v' s : notified c v s (record_call c l v' s).
Proof. by apply notified_same. Qed.

Lemma notified_resolve c v p s : notified c v s (resolve p v s).
Proof.
  split; auto; try (unfold counter; simpl; lia); try (intros; by left).
  intros p'. simpl. rewrite list_lookup_alter. case_decide as Hd; [|by left].
  subst p'. destruct (promises s !! p) as [[| |]|]; simpl; [|by left..].
  right. done.
Qed.

Lemma notified_clearTimeout c v t s : notified c v s (clearTimeout t s).
Proof.
  split; auto; try (unfold counter; simpl; lia); try (intros; by left).
  intros t'. simpl. rewrite list_lookup_alter. case_decide as Hd; [|by left].
  subst t'. destruct (timers s !! t) as [[cb ms| |]|]; simpl; [|by left..].
  right. by exists cb, ms.
Qed.

Lemma notified_sig_unsubscribe c v l s : notified c v s (sig_unsubscribe c l s).
Proof.
  split; try (intros; by left); auto.
  - intros c' Hne. simpl. by rewrite list_lookup_alter_ne.
  - by apply (field_upd_cell c_value None).
  - by apply (field_upd_cell c_IsLoaded false).
  - unfold counter, sig_unsubscribe. by rewrite (field_upd_cell c_counter 0).
  - intros l'. rewrite subscribed_removeListener. by intros [_ ?]%andb_true_iff.
Qed.

Lemma subscribed_setCounter c l n s :
  subscribed c l (upd_cell c (cell_setCounter n) s) = subscribed c l s.
Proof.
  unfold subscribed, listeners.
  by rewrite (field_upd_cell c_listeners []).
Qed.

Lemma notified_decrement c v cell s :
  cells s !! c = Some cell →
  notified c v s (upd_cell c (cell_setCounter (c_counter cell - 1)) s).
Proof.
  intros Hcell. split; try (intros; by left); auto.
  - intros c' Hne. simpl. by rewrite list_lookup_alter_ne.
  - by apply (field_upd_cell c_value None).
  - by apply (field_upd_cell c_IsLoaded false).
  - unfold counter. simpl. rewrite list_lookup_alter_eq, Hcell. simpl. lia.
  - intros l. by rewrite subscribed_setCounter.
Qed.

Lemma notified_teardown c v sid tok s :
  notified c v s (set_signals (delete tok) (set_client (Backend.unsubscribe sid) s)).
Proof.
  split; try (intros; by left); auto; try done; try (unfold counter; simpl; lia).
  intros tok' c'. simpl. rewrite lookup_delete_Some. by intros [_ ?].
Qed.

Lemma notified_unsub c v l s : notified c v s (unsub c l s).
Proof.
  unfold unsub. destruct (cells s !! c) as [cell|] eqn:E; [|apply notified_refl].
  assert (notified c v s
    (upd_cell c (cell_setCounter (c_counter cell - 1)) (sig_unsubscribe c l s))) as H.
  { eapply notified_trans; [apply notified_sig_unsubscribe|].
    assert (cells (sig_unsubscribe c l s) !! c = Some (cell_removeListener l cell)) as E'.
    { simpl. by rewrite list_lookup_alter_eq, E. }
    apply (notified_decrement _ _ _ _ E'). }
  case_decide; [|done].
  eapply notified_trans; [exact H|apply notified_teardown].
Qed.

Lemma notified_run_listener c v l fn s :
  notified c v s (run_listener false c l fn v s).1.
Proof.
  unfold run_listener. destruct fn; simpl.
  - apply notified_record_call.
  - destruct (isLoaded c _); simpl; [|apply notified_record_call].
    eapply notified_trans; [|apply notified_clearTimeout].
    eapply notified_trans; [|apply notified_sig_unsubscribe].
    eapply notified_trans; [|apply notified_resolve].
    apply notified_record_call.
  - destruct (isLoaded c _); simpl; [|apply notified_record_call].
    eapply notified_trans; [|apply notified_unsub].
    eapply notified_trans; [|apply notified_resolve].
    eapply notified_trans; [|apply notified_clearTimeout].
    apply notified_record_call.
Qed.

Lemma notified_notify c v snapshot : ∀ s, notified c v s (notify c v snapshot s).
Proof.
  induction snapshot as [|[l fn] rest IH]; intros s; simpl; [apply notified_refl|].
  eapply notified_trans; [|apply IH].
  destruct (subscribed c l s); [apply notified_run_listener|apply notified_refl].
Qed.

(** ** A refresh touches one cell *)

Lemma notified_sig_write_effect c v s :
  (∀ c', c' ≠ c → cells (sig_write c v s) !! c' = cells s !! c')
  ∧ (∀ tok c', signals (sig_write c v s) !! tok = Some c' → signals s !! tok = Some c')
  ∧ isLoaded c (sig_write c v s) = isLoaded c s
  ∧ (is_Some (cells s !! c) → value c (sig_write c v s) = v).
Proof.
  unfold sig_write. destruct (cells s !! c) as [cell|] eqn:E.
  2:{ split_and!; auto. by intros [? ?]. }
  case_decide as Hd.
  { split_and!; auto. intros _. unfold value. by rewrite E. }
  destruct (notified_notify c v (c_listeners cell) (upd_cell c (cell_setValue v) s))
    as [_ _ O V L _ _ S].
  split_and!.
  - intros c' Hne. rewrite O by done. simpl. by rewrite list_lookup_alter_ne.
  - intros tok c' H. by apply S in H.
  - rewrite L. by apply (field_upd_cell c_IsLoaded false).
  - intros _. rewrite V. unfold value. simpl. by rewrite list_lookup_alter_eq, E.
Qed.

Lemma refresh_others c c' s : c' ≠ c → cells (refresh c s) !! c' = cells s !! c'.
Proof.
  intros Hne. unfold refresh. destruct (cells s !! c); [|done].
  by apply notified_sig_write_effect.
Qed.

Lemma refresh_signals c s tok c' :
  signals (refresh c s) !! tok = Some c' → signals s !! tok = Some c'.
Proof.
  unfold refresh. destruct (cells s !! c); [|done].
  apply notified_sig_write_effect.
Qed.

(** [refresh] writes the backend's local result into the cell. *)
Lemma value_refresh c cell s :
  cells s !! c = Some cell →
  value c (refresh c s)
  = Backend.localQueryResult (c_name cell) (c_args cell) (client s).
Proof.
  intros E. unfold refresh. rewrite E.
  apply notified_sig_write_effect. by rewrite E.
Qed.

(** ** Destroyed cells *)

Lemma detached_evolves c s s' : evolves s s' → detached c s → detached c s'.
Proof.
  intros He [Hlt Hs]. pose proof (evolves_length _ _ He). split; [lia|].
  intros tok H'. destruct (ev_signals _ _ He _ _ H') as [H0|[Hle _]]; [by eapply Hs|lia].
Qed.

Lemma detached_destroy c cell s :
  registry_ok s → cells s !! c = Some cell → detached c (destroy c s).
Proof.
  intros Hr E. unfold destroy. rewrite E. split; simpl.
  - by eapply lookup_lt_Some.
  - intros tok [Hne H]%lookup_delete_Some.
    destruct (Hr _ _ H) as (cell' & E' & Htok). congruence.
Qed.

(** The transition dispatcher does not reach a detached cell. *)
Lemma onTransition_detached c updatedQueries :
  ∀ s, detached c s → cells (onTransition updatedQueries s) !! c = cells s !! c.
Proof.
  induction updatedQueries as [|tok rest IH]; intros s Hd; simpl; [done|].
  destruct (signals s !! tok) as [c'|] eqn:E; [|by apply IH].
  assert (c ≠ c') as Hne by (intros ->; by eapply Hd).
  rewrite IH.
  - rewrite refresh_others by done. simpl. by rewrite list_lookup_alter_ne.
  - eapply detached_evolves; [|exact Hd].
    eapply evolves_trans; [apply evolves_setIsLoaded|].
    apply quiet_refresh, quiet_refl.
Qed.

Lemma run_detached c ops :
  ∀ s, detached c s →
       detached c (run ops s) ∧ isLoaded c (run ops s) = isLoaded c s.
Proof.
  induction ops as [|o ops IH]; intros s Hd; simpl; [done|].
  assert (detached c (step o s)) as Hd'
    by (eapply detached_evolves; [apply evolves_step|done]).
  destruct (IH _ Hd') as [H1 H2]. split; [done|]. rewrite H2.
  destruct (isTransition o) eqn:Ho.
  - destruct o; try discriminate. simpl. unfold isLoaded.
    by rewrite onTransition_detached.
  - by apply quiet_step.
Qed.



(** ** Every subscribed listener is run by a notification *)

Lemma subscribed_same c l s s' : cells s' = cells s → subscribed c l s' = subscribed c l s.
Proof. intros H. unfold subscribed, listeners. by rewrite H. Qed.

Lemma subscribed_unsub c l l' s :
  l ≠ l' → subscribed c l (unsub c l' s) = subscribed c l s.
Proof.
  intros Hne. unfold unsub. destruct (cells s !! c) as [cell|]; [|done].
  assert (subscribed c l
            (upd_cell c (cell_setCounter (c_counter cell - 1)) (sig_unsubscribe c l' s))
          = subscribed c l s) as H.
  { rewrite subscribed_setCounter, subscribed_removeListener.
    by rewrite bool_decide_eq_true_2. }
  case_decide; [|done]. rewrite <- H. by apply subscribed_same.
Qed.

(** A listener only ever removes itself. *)
Lemma subscribed_run_listener c l l' fn v s :
  l ≠ l' → subscribed c l (run_listener false c l' fn v s).1 = subscribed c l s.
Proof.
  intros Hne. unfold run_listener. destruct fn; simpl.
  - by apply subscribed_same.
  - destruct (isLoaded c _); simpl; [|by apply subscribed_same].
    rewrite (subscribed_same _ _ (sig_unsubscribe c l' _) (clearTimeout _ _)) by done.
    rewrite subscribed_removeListener, bool_decide_eq_true_2 by done.
    by apply subscribed_same.
  - destruct (isLoaded c _); simpl; [|by apply subscribed_same].
    rewrite subscribed_unsub by done. by apply subscribed_same.
Qed.

(** A notification decomposes around any listener of the snapshot that
    is subscribed when the notification starts: other listeners run,
    then this one (still subscribed), then others again. *)
Lemma notify_runs c v l fn snapshot :
  ∀ s, NoDup snapshot.*1 → (l, fn) ∈ snapshot → subscribed c l s = true →
       ∃ s1, notified c v s s1 ∧ subscribed c l s1 = true
             ∧ notified c v (run_listener false c l fn v s1).1 (notify c v snapshot s).
Proof.
  induction snapshot as [|[l' fn'] rest IH]; intros s Hnd Hin Hsub.
  { by apply elem_of_nil in Hin. }
  simpl in Hnd. apply NoDup_cons in Hnd as [Hnotin Hnd].
  apply elem_of_cons in Hin as [Heq|Hin].
  - injection Heq as <- <-. exists s. split; [apply notified_refl|]. split; [done|].
    simpl. rewrite Hsub. apply notified_notify.
  - assert (l ≠ l') as Hne.
    { intros ->. apply Hnotin. by apply (list_elem_of_fmap_2 fst) in Hin. }
    simpl.
    set (s' := if subscribed c l' s then (run_listener false c l' fn' v s).1 else s).
    assert (notified c v s s') as Hn.
    { subst s'. destruct (subscribed c l' s); [apply notified_run_listener|apply notified_refl]. }
    assert (subscribed c l s' = true) as Hsub'.
    { subst s'. destruct (subscribed c l' s); [|done].
      by rewrite subscribed_run_listener. }
    destruct (IH s' Hnd Hin Hsub') as (s1 & H1 & H2 & H3).
    exists s1. split; [by eapply notified_trans|done].
Qed.

Lemma settled_by_resolved v w a b :
  settled_by v a b → a = Some (Resolved w) → b = Some (Resolved w).
Proof. intros [->|[-> _]]; [done|discriminate]. Qed.

Lemma settled_by_rejected v e a b :
  settled_by v a b → a = Some (Rejected e) → b = Some (Rejected e).
Proof. intros [->|[-> _]]; [done|discriminate]. Qed.

Lemma cleared_by_cleared a b : cleared_by a b → a = Some Cleared → b = Some Cleared.
Proof. intros [->|(cb & ms & -> & _)]; [done|discriminate]. Qed.

Lemma cleared_by_fired a b : cleared_by a b → a = Some Fired → b = Some Fired.
Proof. intros [->|(cb & ms & -> & _)]; [done|discriminate]. Qed.

Lemma notified_unsubscribed c v l s s' :
  notified c v s s' → subscribed c l s = false → subscribed c l s' = false.
Proof.
  intros Hn H. destruct (subscribed c l s') eqn:E; [|done].
  apply (nt_subscribed _ _ _ _ Hn) in E. congruence.
Qed.

(** The listener of a sync, notified on a loaded cell, resolves its
    promise with the value it is notified with, removes itself and
    clears its timer. *)
Lemma sync_listener_fires c v l p t cb ms snapshot s :
  NoDup snapshot.*1 → (l, SyncListener p t) ∈ snapshot →
  subscribed c l s = true → isLoaded c s = true →
  promises s !! p = Some Pending → timers s !! t = Some (Armed cb ms) →
  let s' := notify c v snapshot s in
  promises s' !! p = Some (Resolved v) ∧ timers s' !! t = Some Cleared
  ∧ subscribed c l s' = false.
Proof.
  intros Hnd Hin Hsub Hl Hp Ht s'.
  destruct (notify_runs c v l _ snapshot s Hnd Hin Hsub) as (s1 & H1 & Hsub1 & H2).
  fold s' in H2.
  assert (isLoaded c s1 = true) as Hl1 by (by rewrite (nt_isLoaded _ _ _ _ H1)).
  set (s2 := (run_listener false c l (SyncListener p t) v s1).1) in *.
  assert (s2 = clearTimeout t (sig_unsubscribe c l (resolve p v (record_call c l v s1))))
    as Hs2.
  { subst s2. unfold run_listener.
    replace (isLoaded c (record_call c l v s1)) with true by done. done. }
  assert (promises s2 !! p = Some (Resolved v)) as Hp2.
  { rewrite Hs2. simpl. rewrite list_lookup_alter_eq.
    destruct (nt_promises _ _ _ _ H1 p) as [->|[_ ->]]; by rewrite ?Hp. }
  assert (timers s2 !! t = Some Cleared) as Ht2.
  { rewrite Hs2. simpl. rewrite list_lookup_alter_eq.
    destruct (nt_timers _ _ _ _ H1 t) as [->|(? & ? & _ & ->)]; by rewrite ?Ht. }
  assert (subscribed c l s2 = false) as Hsub2.
  { rewrite Hs2.
    rewrite (subscribed_same _ _ (sig_unsubscribe c l _) (clearTimeout _ _)) by done.
    rewrite subscribed_removeListener. by rewrite bool_decide_eq_false_2 by auto. }
  split_and!.
  - eapply settled_by_resolved; [apply (nt_promises _ _ _ _ H2)|done].
  - eapply cleared_by_cleared; [apply (nt_timers _ _ _ _ H2)|done].
  - by eapply notified_unsubscribed.
Qed.

Lemma subscribed_is_Some c l s : subscribed c l s = true → is_Some (cells s !! c).
Proof.
  unfold subscribed, listeners. destruct (cells s !! c); [by eexists|].
  intros H%bool_decide_eq_true. by apply elem_of_nil in H.
Qed.

Lemma counter_unsub c l s :
  is_Some (cells s !! c) → counter c (unsub c l s) = counter c s - 1.
Proof.
  intros [cell E]. unfold unsub. rewrite E.
  assert (counter c (upd_cell c (cell_setCounter (c_counter cell - 1))
                       (sig_unsubscribe c l s)) = counter c s - 1) as H.
  { unfold counter. simpl. rewrite !list_lookup_alter_eq, E. done. }
  case_decide; done.
Qed.

(** The listener of a query, notified on a loaded cell, invokes the
    capability its subscription returned: it is removed and the counter
    is decremented; a promise already rejected and a timer already
    fired stay as they are. *)
Lemma query_listener_fires c v l p t snapshot s :
  NoDup snapshot.*1 → (l, QueryListener p t) ∈ snapshot →
  subscribed c l s = true → isLoaded c s = true →
  let s' := notify c v snapshot s in
  subscribed c l s' = false ∧ counter c s' ≤ counter c s - 1
  ∧ (∀ e, promises s !! p = Some (Rejected e) → promises s' !! p = Some (Rejected e))
  ∧ (promises s !! p = Some Pending → promises s' !! p = Some (Resolved v))
  ∧ (timers s !! t = Some Fired → timers s' !! t = Some Fired)
  ∧ (∀ cb ms, timers s !! t = Some (Armed cb ms) → timers s' !! t = Some Cleared).
Proof.
  intros Hnd Hin Hsub Hl s'.
  destruct (notify_runs c v l _ snapshot s Hnd Hin Hsub) as (s1 & H1 & Hsub1 & H2).
  fold s' in H2.
  assert (isLoaded c s1 = true) as Hl1 by (by rewrite (nt_isLoaded _ _ _ _ H1)).
  set (s2 := (run_listener false c l (QueryListener p t) v s1).1) in *.
  assert (s2 = unsub c l (resolve p v (clearTimeout t (record_call c l v s1)))) as Hs2.
  { subst s2. unfold run_listener.
    replace (isLoaded c (record_call c l v s1)) with true by done. done. }
  set (s1' := resolve p v (clearTimeout t (record_call c l v s1))) in *.
  assert (notified c v s1 s1') as H1'.
  { eapply notified_trans; [|apply notified_resolve].
    eapply notified_trans; [|apply notified_clearTimeout]. apply notified_record_call. }
  assert (notified c v s1' s2) as H12 by (rewrite Hs2; apply notified_unsub).
  assert (notified c v s s') as Hall.
  { eapply notified_trans; [exact H1|]. eapply notified_trans; [exact H1'|].
    eapply notified_trans; [exact H12|exact H2]. }
  split_and!.
  - eapply notified_unsubscribed; [exact H2|]. rewrite Hs2.
    unfold unsub. destruct (subscribed_is_Some _ _ _ Hsub1) as [cell E].
    replace (cells s1' !! c) with (Some cell) by done.
    assert (subscribed c l (upd_cell c (cell_setCounter (c_counter cell - 1))
                              (sig_unsubscribe c l s1')) = false) as H.
    { rewrite subscribed_setCounter, subscribed_removeListener.
      by rewrite bool_decide_eq_false_2 by auto. }
    case_decide; [|done]. rewrite <- H. by apply subscribed_same.
  - pose proof (nt_counter _ _ _ _ H2) as C2.
    pose proof (nt_counter _ _ _ _ H1) as C1.
    assert (counter c s2 = counter c s1 - 1) as C12.
    { rewrite Hs2, counter_unsub; [done|]. by apply (subscribed_is_Some _ l). }
    lia.
  - intros e He. eapply settled_by_rejected; [apply (nt_promises _ _ _ _ Hall)|done].
  - intros Hp.
    assert (promises s1' !! p = Some (Resolved v)) as Hp1.
    { subst s1'. simpl. rewrite list_lookup_alter_eq.
      destruct (nt_promises _ _ _ _ H1 p) as [->|[_ ->]]; by rewrite ?Hp. }
    eapply settled_by_resolved; [|exact Hp1].
    apply (nt_promises _ _ _ _ (notified_trans _ _ _ _ _ H12 H2)).
  - intros Ht. eapply cleared_by_fired; [apply (nt_timers _ _ _ _ Hall)|done].
  - intros cb ms Ht.
    assert (timers s1' !! t = Some Cleared) as Ht1.
    { subst s1'. simpl. rewrite list_lookup_alter_eq.
      destruct (nt_timers _ _ _ _ H1 t) as [->|(? & ? & _ & ->)]; by rewrite ?Ht. }
    eapply cleared_by_cleared; [|exact Ht1].
    apply (nt_timers _ _ _ _ (notified_trans _ _ _ _ _ H12 H2)).
Qed.

(** ** The sync/await bridge *)

Lemma sync_unloaded c cell timeout s :
  cells s !! c = Some cell → c_IsLoaded cell = false →
  sync c timeout s = (length (promises s), sync_setup c cell timeout s).
Proof.
  intros E Hl. unfold sync, sig_subscribe, run_listener, isLoaded. simpl.
  rewrite E. simpl. rewrite list_lookup_alter_eq, E. simpl. by rewrite Hl.
Qed.

Lemma sync_loaded c cell timeout s :
  cells s !! c = Some cell → c_IsLoaded cell = true →
  sync c timeout s
  = (length (promises s),
     clearTimeout (length (timers s))
       (resolve (length (promises s)) (c_value cell) (sync_setup c cell timeout s))).
Proof.
  intros E Hl. unfold sync, sig_subscribe, run_listener, isLoaded. simpl.
  rewrite E. simpl. rewrite list_lookup_alter_eq, E. simpl. by rewrite Hl.
Qed.

(** C5. sync on a cell that is already loaded returns a promise that
    did not exist before and that is, when sync returns, resolved with
    the cell's current value: no transition notification is needed. The
    value reaches the caller only through the promise. The timer of the
    call is cleared, so its firing changes nothing. *)
Theorem sync_loaded_resolves (c : CellId) (cell : Cell) (timeout : Z) (s : Client) :
  cells s !! c = Some cell →
  c_IsLoaded cell = true →
  let r := sync c timeout s in
  promises s !! r.1 = None
  ∧ promises r.2 !! r.1 = Some (Resolved (c_value cell))
  ∧ value c r.2 = c_value cell
  ∧ isLoaded c r.2 = true
  ∧ timers r.2 !! length (timers s) = Some Cleared
  ∧ fireTimer (length (timers s)) r.2 = r.2.
Proof.
  intros E Hl r. subst r. rewrite (sync_loaded _ _ _ _ E Hl). simpl.
  assert (timers (clearTimeout (length (timers s))
            (resolve (length (promises s)) (c_value cell) (sync_setup c cell timeout s)))
          !! length (timers s) = Some Cleared) as Ht.
  { simpl. by rewrite list_lookup_alter_eq, lookup_snoc_new. }
  split_and!.
  - by apply lookup_ge_None_2.
  - by rewrite list_lookup_alter_eq, lookup_snoc_new.
  - unfold value. simpl. by rewrite list_lookup_alter_eq, E.
  - unfold isLoaded. simpl. by rewrite list_lookup_alter_eq, E.
  - exact Ht.
  - unfold fireTimer. by rewrite Ht.
Qed.

Lemma sync_loaded_resolves_witness :
  let s := run [OpQuerySignal "listMessages" "{}";
                OpLocalResult ("listMessages", "{}") (Some 7);
                OpTransition [("listMessages", "{}")]] new_client in
  isLoaded 0%nat s = true
  ∧ promises (sync 0%nat 10000 s).2 !! (sync 0%nat 10000 s).1 = Some (Resolved (Some 7)).
Proof.
  intros s. split; [reflexivity|].
  assert (is_Some (cells s !! 0%nat)) as [cell E] by (by eexists).
  assert (c_IsLoaded cell = true ∧ c_value cell = Some 7) as [Hl Hv]
    by (injection E as <-; by split).
  destruct (sync_loaded_resolves 0%nat cell 10000 s E Hl) as (_ & H & _).
  rewrite Hv in H. exact H.
Defined.

Lemma subscribed_sync_setup c cell timeout s :
  cells s !! c = Some cell →
  subscribed c (c_nextListener cell) (sync_setup c cell timeout s) = true.
Proof.
  intros E. unfold subscribed, listeners. simpl. rewrite list_lookup_alter_eq, E. simpl.
  apply bool_decide_eq_true. rewrite fmap_app, elem_of_app. right.
  by apply list_elem_of_singleton.
Qed.




(** ** query() *)

Lemma querySignal_localResults name args s :
  Backend.localResults (client (querySignal name args s).2)
  = Backend.localResults (client s).
Proof.
  destruct (signals s !! Backend.serializePathAndArgs name args) as [c|] eqn:E.
  - by rewrite (querySignal_known _ _ _ _ E).
  - by rewrite (querySignal_fresh _ _ _ E).
Qed.

Lemma querySignal_promises name args s :
  promises (querySignal name args s).2 = promises s
  ∧ timers (querySignal name args s).2 = timers s.
Proof.
  destruct (signals s !! Backend.serializePathAndArgs name args) as [c|] eqn:E.
  - by rewrite (querySignal_known _ _ _ _ E).
  - by rewrite (querySignal_fresh _ _ _ E).
Qed.

Lemma query_unloaded name args timeout s cell :
  let q := querySignal name args s in
  cells q.2 !! q.1 = Some cell → c_IsLoaded cell = false →
  query name args timeout s = (length (promises s), query_setup q.1 cell timeout q.2).
Proof.
  intros q E Hl. subst q. unfold query.
  destruct (querySignal_promises name args s) as [Hp Ht].
  destruct (querySignal name args s) as [c s1]. simpl in *.
  unfold subscribe, sig_subscribe, run_listener, isLoaded. simpl.
  rewrite list_lookup_alter_eq, E. simpl.
  rewrite !list_lookup_alter_eq, E. simpl. rewrite Hl. simpl.
  unfold query_setup. by rewrite Hp.
Qed.

(** C10, as the code has it. When the timer of a query() fires before
    the cell is loaded, the promise is rejected with the timeout error
    and nothing is released: the cells (so the counter and the
    listener), the registry and the backend are as before. The
    subscription is released later, by the listener itself: the first
    notification that finds the registered cell loaded removes the
    listener and decrements the counter, and the rejected promise stays
    rejected; when query() was the only subscriber of the cell the
    counter is then zero, the token has left the registry and the
    backend unsubscribe capability has been invoked. *)
Theorem query_timeout_keeps_subscription
    (name : string) (args : Args) (timeout : Z) (s : Client) (cell : Cell) :
  let tok := Backend.serializePathAndArgs name args in
  let q := querySignal name args s in
  let c := q.1 in
  cells q.2 !! c = Some cell →
  c_IsLoaded cell = false →
  listener_ids_ok cell →
  let r := query name args timeout s in
  let p := r.1 in
  let t := length (timers s) in
  let l := c_nextListener cell in
  let fired := fireTimer t r.2 in
  (promises r.2 !! p = Some Pending
   ∧ timers r.2 !! t = Some (Armed (QueryTimeout p) timeout)
   ∧ subscribed c l r.2 = true
   ∧ counter c r.2 = c_counter cell + 1
   ∧ signals r.2 !! tok = Some c)
  ∧ (promises fired !! p = Some (Rejected QueryTimedOut)
     ∧ timers fired !! t = Some Fired
     ∧ cells fired = cells r.2
     ∧ signals fired = signals r.2
     ∧ client fired = client r.2)
  ∧ (Backend.localQueryResult (c_name cell) (c_args cell) (client s) ≠ c_value cell →
     let loaded := onTransition [tok] fired in
     (isLoaded c loaded = true
      ∧ subscribed c l loaded = false
      ∧ counter c loaded ≤ c_counter cell
      ∧ promises loaded !! p = Some (Rejected QueryTimedOut))
     ∧ (c_counter cell = 0 → c_listeners cell = [] → c_queryToken cell = tok →
        counter c loaded = 0
        ∧ signals loaded !! tok = None
        ∧ client loaded = Backend.unsubscribe (c_unsubscribe cell) (client r.2))).
Proof.
  intros tok q c E Hl Hok r p t l fired.
  pose proof (query_unloaded name args timeout s cell E Hl) as Hq.
  fold q c in Hq. subst fired p r. rewrite Hq. cbn [fst snd].
  destruct (querySignal_promises name args s) as [Hps Hts]. fold q in Hps, Hts.
  pose proof (querySignal_registers name args s) as Hreg. fold q tok c in Hreg.
  set (s1 := q.2) in *.
  set (p := length (promises s)).
  set (fn := QueryListener p t).
  assert (query_setup c cell timeout s1
          = record_call c l (c_value cell)
              (upd_cell c (cell_addListener fn)
                 (upd_cell c (λ cell, cell_setCounter (c_counter cell + 1) cell)
                    (set_timers (λ ts, ts ++ [Armed (QueryTimeout p) timeout])
                       (set_promises (λ ps, ps ++ [Pending]) s1))))) as Hsetup.
  { unfold query_setup. subst fn p t l. by rewrite Hps, Hts. }
  set (s2 := query_setup c cell timeout s1) in *. clearbody s2.
  assert (cells s2 !! c
          = Some (cell_addListener fn (cell_setCounter (c_counter cell + 1) cell))) as E2.
  { rewrite Hsetup. simpl. by rewrite !list_lookup_alter_eq, E. }
  assert (promises s2 !! p = Some Pending) as Hp.
  { rewrite Hsetup. simpl. subst p. rewrite <- Hps. apply lookup_snoc_new. }
  assert (timers s2 !! t = Some (Armed (QueryTimeout p) timeout)) as Ht.
  { rewrite Hsetup. simpl. subst t. rewrite <- Hts. apply lookup_snoc_new. }
  assert (subscribed c l s2 = true) as Hsub.
  { unfold subscribed, listeners. rewrite E2. simpl.
    apply bool_decide_eq_true. rewrite fmap_app, elem_of_app. right.
    by apply list_elem_of_singleton. }
  assert (signals s2 = signals s1) as Hsig by (by rewrite Hsetup).
  assert (fireTimer t s2 = reject p QueryTimedOut (set_timers (<[t := Fired]>) s2)) as Hf.
  { unfold fireTimer. by rewrite Ht. }
  split; [|split].
  - split_and!; [done..| |by rewrite Hsig].
    unfold counter. by rewrite E2.
  - rewrite Hf. split_and!; try done.
    + simpl. by rewrite list_lookup_alter_eq, Hp.
    + simpl. apply list_lookup_insert_eq. by eapply lookup_lt_Some.
  - intros Hne. cbv zeta. rewrite Hf.
    set (fired := reject p QueryTimedOut (set_timers (<[t := Fired]>) s2)).
    set (v := Backend.localQueryResult (c_name cell) (c_args cell) (client s)) in *.
    assert (Backend.localQueryResult (c_name cell) (c_args cell) (client fired) = v) as Hv.
    { subst v fired. unfold Backend.localQueryResult. simpl. rewrite Hsetup. simpl.
      subst s1 q. by rewrite querySignal_localResults. }
    set (s3 := upd_cell c (cell_setValue v) (upd_cell c (cell_setIsLoaded true) fired)).
    assert (cells (upd_cell c (cell_setIsLoaded true) fired) !! c
            = Some (cell_setIsLoaded true
                      (cell_addListener fn (cell_setCounter (c_counter cell + 1) cell))))
      as E3.
    { simpl. by rewrite list_lookup_alter_eq, E2. }
    assert (onTransition [tok] fired = notify c v (c_listeners cell ++ [(l, fn)]) s3)
      as Hstep.
    { simpl. rewrite Hsig, Hreg. unfold refresh. rewrite E3. simpl.
      replace (Backend.localQueryResult (c_name cell) (c_args cell) (client s2))
        with v by done.
      unfold sig_write. rewrite E3. simpl. by rewrite decide_False by done. }
    rewrite Hstep.
    assert (isLoaded c s3 = true) as Hl3.
    { unfold isLoaded. simpl. by rewrite !list_lookup_alter_eq, E2. }
    assert (subscribed c l s3 = true) as Hsub3.
    { unfold subscribed, listeners. simpl. rewrite !list_lookup_alter_eq, E2. simpl.
      apply bool_decide_eq_true. rewrite fmap_app, elem_of_app. right.
      by apply list_elem_of_singleton. }
    split.
    + destruct (query_listener_fires c v l p t (c_listeners cell ++ [(l, fn)]) s3)
        as (H1 & H2 & H3 & _).
      * apply (proj2 (keeps_addListener fn cell)) in Hok. apply Hok.
      * rewrite elem_of_app. right. by apply list_elem_of_singleton.
      * exact Hsub3.
      * exact Hl3.
      * split_and!.
        -- by rewrite (nt_isLoaded _ _ _ _ (notified_notify c v _ s3)).
        -- exact H1.
        -- assert (counter c s3 = c_counter cell + 1) as Hc3.
           { unfold counter. simpl. by rewrite !list_lookup_alter_eq, E2. }
           lia.
        -- apply H3. simpl. by rewrite list_lookup_alter_eq, Hp.
    + intros Hc0 Hls Htok. rewrite Hls.
      set (s3' := resolve p v (clearTimeout t (record_call c l v s3))).
      assert (notify c v ([] ++ [(l, fn)]) s3 = unsub c l s3') as ->.
      { simpl. rewrite Hsub3. unfold run_listener.
        replace (isLoaded c (record_call c l v s3)) with true by done. done. }
      assert (cells s3' !! c
              = Some (cell_setValue v
                        (cell_setIsLoaded true
                           (cell_addListener fn
                              (cell_setCounter (c_counter cell + 1) cell))))) as E3'.
      { simpl. by rewrite !list_lookup_alter_eq, E2. }
      unfold unsub. rewrite E3'. cbn [c_counter cell_setValue cell_setIsLoaded
        cell_addListener cell_setCounter c_queryToken c_unsubscribe].
      rewrite decide_True by lia.
      split_and!.
      * unfold counter. simpl. rewrite !list_lookup_alter_eq, E2. simpl. lia.
      * simpl. rewrite Htok. apply lookup_delete_eq.
      * done.
Qed.

Lemma query_timeout_keeps_subscription_witness :
  let r := query "listMessages" "{}" 10000 new_client in
  let fired := fireTimer 0%nat r.2 in
  promises fired !! r.1 = Some (Rejected QueryTimedOut)
  ∧ cells fired = cells r.2
  ∧ signals fired = signals r.2.
Proof.
  intros r fired.
  destruct (query_timeout_keeps_subscription "listMessages" "{}" 10000 new_client
              (newCell "listMessages" "{}" ("listMessages", "{}") 0%nat))
    as (_ & (H1 & _ & H2 & H3 & _) & _);
    [reflexivity|reflexivity|apply listener_ids_ok_newCell|].
  split_and!; [exact H1|exact H2|exact H3].
Defined.

(** C10 as stated fails: the timer of a query() fires before the cell
    is loaded and the promise is rejected, with the counter at 1; the
    next transition notification loads the cell, and the listener
    releases the subscription: the counter is back at zero, the token
    has left the registry, the backend subscription is released and the
    listener is gone, so a later update of the cell does not call it. *)
Lemma query_timeout_released_on_load :
  let tok := ("listMessages", "{}") in
  let r := query "listMessages" "{}" 10000 new_client in
  let fired := fireTimer 0%nat r.2 in
  let loaded := onTransition [tok] (set_client (Backend.setLocalResult tok (Some 7)) fired) in
  let later := refresh 0%nat (set_client (Backend.setLocalResult tok (Some 8)) loaded) in
  (isLoaded 0%nat fired = false
   ∧ promises fired !! r.1 = Some (Rejected QueryTimedOut)
   ∧ counter 0%nat fired = 1)
  ∧ (counter 0%nat loaded = 0
     ∧ signals loaded !! tok = None
     ∧ Backend.unsubscribeCalls 0%nat (client loaded) = Some 1%nat
     ∧ subscribed 0%nat 0%nat loaded = false)
  ∧ (value 0%nat later = Some 8 ∧ calls later = calls loaded).
Proof. vm_compute. by repeat split. Qed.

(** ** Reference counting *)

Lemma subscribe_external c cell tag s :
  cells s !! c = Some cell →
  subscribe c (ExternalListener tag) s
  = (Some (c_nextListener cell),
     record_call c (c_nextListener cell) (c_value cell)
       (upd_cell c (cell_addListener (ExternalListener tag))
          (upd_cell c (λ cell, cell_setCounter (c_counter cell + 1) cell) s))).
Proof.
  intros E. unfold subscribe, sig_subscribe, run_listener. simpl.
  by rewrite list_lookup_alter_eq, E.
Qed.

Lemma subscribeAll_effect c tags :
  ∀ s cell, cells s !! c = Some cell →
    let r := subscribeAll c tags s in
    length r.1 = length tags
    ∧ signals r.2 = signals s ∧ client r.2 = client s
    ∧ ∃ cell', cells r.2 !! c = Some cell' ∧ same_identity cell cell'
               ∧ c_counter cell' = c_counter cell + Z.of_nat (length tags).
Proof.
  induction tags as [|tag rest IH]; intros s cell E; simpl.
  { split_and!; try done. exists cell. split_and!; [done|apply same_identity_refl|lia]. }
  rewrite (subscribe_external _ _ _ _ E).
  set (s1 := record_call _ _ _ _).
  assert (cells s1 !! c
          = Some (cell_addListener (ExternalListener tag)
                    (cell_setCounter (c_counter cell + 1) cell))) as E1.
  { subst s1. simpl. by rewrite !list_lookup_alter_eq, E. }
  destruct (IH s1 _ E1) as (Hlen & Hsig & Hcl & cell' & E' & Hid & Hcnt).
  destruct (subscribeAll c rest s1) as [ls s2]. simpl in *.
  split_and!; [by rewrite Hlen|done|done|].
  exists cell'. split_and!; [done|exact Hid|]. rewrite Hcnt. lia.
Qed.

(** While the counter stays above zero nothing is torn down. *)
Lemma unsubAll_alive c us :
  ∀ s cell, cells s !! c = Some cell → Z.of_nat (length us) < c_counter cell →
    let s' := unsubAll c us s in
    signals s' = signals s ∧ client s' = client s
    ∧ ∃ cell', cells s' !! c = Some cell' ∧ same_identity cell cell'
               ∧ c_counter cell' = c_counter cell - Z.of_nat (length us).
Proof.
  induction us as [|l us IH]; intros s cell E Hlt; simpl.
  { split_and!; try done. exists cell. split_and!; [done|apply same_identity_refl|lia]. }
  simpl in Hlt.
  assert (unsub c l s
          = upd_cell c (cell_setCounter (c_counter cell - 1)) (sig_unsubscribe c l s)) as Hu.
  { unfold unsub. rewrite E. rewrite decide_False by lia. done. }
  assert (cells (unsub c l s) !! c
          = Some (cell_setCounter (c_counter cell - 1) (cell_removeListener l cell))) as E1.
  { rewrite Hu. simpl. by rewrite !list_lookup_alter_eq, E. }
  destruct (IH (unsub c l s) _ E1) as (Hsig & Hcl & cell' & E' & Hid & Hcnt);
    [simpl; lia|].
  split_and!.
  - rewrite Hsig. by rewrite Hu.
  - rewrite Hcl. by rewrite Hu.
  - exists cell'. split_and!; [done|exact Hid|]. rewrite Hcnt. simpl. lia.
Qed.

(** The invocation that brings the counter to zero tears the cell down. *)
Lemma unsub_last c l cell s :
  cells s !! c = Some cell → c_counter cell = 1 →
  signals (unsub c l s) = delete (c_queryToken cell) (signals s)
  ∧ client (unsub c l s) = Backend.unsubscribe (c_unsubscribe cell) (client s).
Proof.
  intros E Hc. unfold unsub. rewrite E. by rewrite decide_True by lia.
Qed.

(** C4. On a registered cell without subscribers whose backend
    subscription is open, N >= 1 subscribe calls return N capabilities.
    Invoking fewer than N of them, each at most once and in any order,
    leaves the cell in the registry and the backend subscription open;
    invoking all N, each once, removes the token from the registry and
    invokes the backend unsubscribe capability exactly once. *)
Theorem refcount_teardown (c : CellId) (cell : Cell) (tags : list nat) (s : Client) :
  cells s !! c = Some cell →
  c_counter cell = 0 →
  signals s !! c_queryToken cell = Some c →
  Backend.unsubscribeCalls (c_unsubscribe cell) (client s) = Some 0%nat →
  (1 ≤ length tags)%nat →
  let r := subscribeAll c tags s in
  length r.1 = length tags
  ∧ ∀ us, NoDup us → us ⊆ r.1 →
      let s' := unsubAll c us r.2 in
      (length us ≤ length tags)%nat
      ∧ ((length us < length tags)%nat →
         signals s' !! c_queryToken cell = Some c
         ∧ Backend.unsubscribeCalls (c_unsubscribe cell) (client s') = Some 0%nat)
      ∧ (length us = length tags →
         signals s' !! c_queryToken cell = None
         ∧ Backend.unsubscribeCalls (c_unsubscribe cell) (client s') = Some 1%nat).
Proof.
  intros E Hc0 Hreg Hopen HN r.
  destruct (subscribeAll_effect c tags s cell E)
    as (Hlen & Hsig & Hcl & cell1 & E1 & Hid & Hcnt).
  fold r in Hlen, Hsig, Hcl, E1. split; [done|].
  intros us Hnd Hsub s'.
  assert (length us ≤ length tags)%nat as Hle.
  { rewrite <- Hlen. apply submseteq_length. by apply NoDup_submseteq. }
  destruct Hid as (_ & _ & Htok & Hsid).
  split; [done|]. split.
  - intros Hlt.
    destruct (unsubAll_alive c us r.2 cell1 E1) as (Hsig' & Hcl' & _); [lia|].
    fold s' in Hsig', Hcl'. rewrite Hsig', Hcl', Hsig, Hcl. done.
  - intros Heq.
    assert (us ≠ []) as Hne by (intros ->; simpl in Heq; lia).
    destruct (exists_last Hne) as (us' & l & Hus). subst s' us. clear Hne.
    rewrite length_app in Heq. simpl in Heq.
    destruct (unsubAll_alive c us' r.2 cell1 E1) as (Hsig' & Hcl' & cell2 & E2 & Hid2 & Hc2);
      [lia|].
    unfold unsubAll in *. rewrite foldl_app. simpl.
    destruct (unsub_last c l cell2 _ E2) as [-> ->]; [lia|].
    destruct Hid2 as (_ & _ & Htok2 & Hsid2).
    rewrite Htok2, Htok, Hsid2, Hsid, Hsig', Hcl', Hsig, Hcl.
    split; [apply lookup_delete_eq|].
    unfold Backend.unsubscribeCalls in *. simpl. rewrite list_lookup_alter_eq.
    destruct (Backend.subscriptions (client s) !! c_unsubscribe cell) as [sub|];
      [|done].
    simpl in *. by injection Hopen as ->.
Qed.

Lemma refcount_teardown_witness :
  let s := (querySignal "listMessages" "{}" new_client).2 in
  let r := subscribeAll 0%nat [1; 2; 3]%nat s in
  let tok := ("listMessages", "{}") in
  r.1 = [0; 1; 2]%nat
  ∧ signals (unsubAll 0%nat [2; 0]%nat r.2) !! tok = Some 0%nat
  ∧ Backend.unsubscribeCalls 0%nat (client (unsubAll 0%nat [2; 0]%nat r.2)) = Some 0%nat
  ∧ signals (unsubAll 0%nat [2; 0; 1]%nat r.2) !! tok = None
  ∧ Backend.unsubscribeCalls 0%nat (client (unsubAll 0%nat [2; 0; 1]%nat r.2)) = Some 1%nat.
Proof.
  intros s r tok.
  destruct (refcount_teardown 0%nat
              (newCell "listMessages" "{}" ("listMessages", "{}") 0%nat)
              [1; 2; 3]%nat s) as [_ H];
    [reflexivity|reflexivity|reflexivity|reflexivity|simpl; lia|].
  split; [reflexivity|].
  destruct (H [2; 0]%nat) as (_ & H2 & _);
    [compute_done|compute_done|].
  destruct (H [2; 0; 1]%nat) as (_ & _ & H3);
    [compute_done|compute_done|].
  destruct H2 as [H2a H2b]; [simpl; lia|].
  destruct H3 as [H3a H3b]; [reflexivity|].
  split_and!; [exact H2a|exact H2b|exact H3a|exact H3b].
Defined.

(** C3 fails on the code. A cell has two subscribers. Invoking the
    capability of the first once leaves the counter at 1, the cell
    registered and the backend subscription open. Invoking the same
    capability a second time decrements the counter again: it reaches
    zero, the token is removed from the registry and the backend
    subscription is released, although the second subscriber is still
    subscribed. *)
Theorem double_unsubscribe_decrements_twice :
  let tok := ("listMessages", "{}") in
  let s := (querySignal "listMessages" "{}" new_client).2 in
  let r := subscribeAll 0%nat [1; 2]%nat s in
  let once := unsub 0%nat 0%nat r.2 in
  let twice := unsub 0%nat 0%nat once in
  r.1 = [0; 1]%nat
  ∧ (counter 0%nat once = 1
     ∧ signals once !! tok = Some 0%nat
     ∧ Backend.unsubscribeCalls 0%nat (client once) = Some 0%nat
     ∧ subscribed 0%nat 1%nat once = true)
  ∧ (counter 0%nat twice = 0
     ∧ signals twice !! tok = None
     ∧ Backend.unsubscribeCalls 0%nat (client twice) = Some 1%nat
     ∧ subscribed 0%nat 1%nat twice = true).
Proof. vm_compute. by repeat split. Qed.

(** In general the capability decrements the counter at every call. *)
Lemma unsub_twice_counter c l s :
  is_Some (cells s !! c) → counter c (unsub c l (unsub c l s)) = counter c s - 2.
Proof.
  intros Hc. rewrite !counter_unsub; [lia|done|].
  destruct Hc as [cell E].
  destruct (ev_cells _ _ (proj1 (quiet_unsub s c l s (quiet_refl s))) _ _ E) as (cell' & -> & _).
  by eexists.
Qed.

(** ** Computed queries *)

Lemma querySignal_frame name args s :
  computeds (querySignal name args s).2 = computeds s
  ∧ trigger (querySignal name args s).2 = trigger s
  ∧ triggerVersion (querySignal name args s).2 = triggerVersion s.
Proof.
  destruct (signals s !! Backend.serializePathAndArgs name args) as [c|] eqn:E.
  - by rewrite (querySignal_known _ _ _ _ E).
  - by rewrite (querySignal_fresh _ _ _ E).
Qed.

Lemma computed_sig_evaluate k cp s :
  computeds s !! k = Some cp → stale cp s →
  let q := querySignal (cp_query cp) (cp_argsFn cp (trigger s)) s in
  computed_sig k s
  = (Some q.1,
     set_computeds (<[k := mkComputed (cp_query cp) (cp_argsFn cp) (cp_tracked cp)
                                      (Some (triggerVersion s, q.1))]>) q.2).
Proof.
  intros E Hst q. unfold computed_sig. rewrite E. fold q.
  destruct (querySignal_frame (cp_query cp) (cp_argsFn cp (trigger s)) s) as (_ & _ & Hv).
  fold q in Hv. unfold stale in Hst.
  destruct (cp_cache cp) as [[ver c]|].
  - destruct Hst as [-> Hne]. simpl.
    rewrite (proj2 (Nat.eqb_neq _ _) Hne). simpl.
    destruct q as [c' s']. simpl in *. by rewrite Hv.
  - destruct q as [c' s']. simpl in *. by rewrite Hv.
Qed.

Lemma computed_sig_cached k cp ver c s :
  computeds s !! k = Some cp → cp_cache cp = Some (ver, c) →
  cp_tracked cp = false ∨ ver = triggerVersion s →
  computed_sig k s = (Some c, s).
Proof.
  intros E Hc Hv. unfold computed_sig. rewrite E, Hc.
  destruct Hv as [->| ->]; [done|]. by rewrite Nat.eqb_refl, andb_false_r.
Qed.

(** ** What a derivation holds *)

Lemma derivations_unsub c l s : derivations (unsub c l s) = derivations s.
Proof. unfold unsub. destruct (cells s !! c); [|done]. by case_decide. Qed.

Lemma derivations_run_listener initial c l fn v s :
  derivations (run_listener initial c l fn v s).1 = derivations s.
Proof.
  unfold run_listener. destruct fn as [tag|p t|p t]; [done| |].
  - destruct (isLoaded c (record_call c l v s)); [|done]. by destruct initial.
  - destruct (isLoaded c (record_call c l v s)); [|done]. cbn [negb].
    destruct initial; [done|]. cbn [fst]. by rewrite derivations_unsub.
Qed.

Lemma derivations_sig_subscribe c fn s :
  derivations (sig_subscribe c fn s).1.2 = derivations s.
Proof.
  unfold sig_subscribe. destruct (cells s !! c) as [cell|]; [|done].
  pose proof (derivations_run_listener true c (c_nextListener cell) fn (c_value cell)
                (upd_cell c (cell_addListener fn) s)) as H.
  destruct (run_listener true c (c_nextListener cell) fn (c_value cell)
              (upd_cell c (cell_addListener fn) s)) as [s1 threw].
  by destruct threw.
Qed.

Lemma derivations_notify c v snapshot :
  ∀ s, derivations (notify c v snapshot s) = derivations s.
Proof.
  induction snapshot as [|[l fn] rest IH]; intros s; [done|].
  cbn [notify]. rewrite IH. destruct (subscribed c l s); [|done].
  apply derivations_run_listener.
Qed.

Lemma derivations_refresh c s : derivations (refresh c s) = derivations s.
Proof.
  unfold refresh, sig_write. destruct (cells s !! c); [|done].
  case_decide; [done|]. by rewrite derivations_notify.
Qed.

Lemma derivations_destroy c s : derivations (destroy c s) = derivations s.
Proof. unfold destroy. by destruct (cells s !! c). Qed.

Lemma derivations_querySignal name args s :
  derivations (querySignal name args s).2 = derivations s.
Proof.
  destruct (querySignal_frame name args s) as (H1 & H2 & H3).
  unfold derivations. by rewrite H1, H2, H3.
Qed.

Lemma derivations_subscribe c fn s : derivations (subscribe c fn s).2 = derivations s.
Proof.
  unfold subscribe.
  pose proof (derivations_sig_subscribe c fn
                (upd_cell c (λ cell, cell_setCounter (c_counter cell + 1) cell) s)) as H.
  by destruct (sig_subscribe c fn _) as [[l s1] threw].
Qed.

Lemma derivations_sync c timeout s : derivations (sync c timeout s).2 = derivations s.
Proof.
  unfold sync, newPromise, setTimeout.
  match goal with |- context [sig_subscribe c ?fn ?st] =>
    pose proof (derivations_sig_subscribe c fn st) as H;
    by destruct (sig_subscribe c fn st) as [[l s1] threw] end.
Qed.

Lemma derivations_query name args timeout s :
  derivations (query name args timeout s).2 = derivations s.
Proof.
  unfold query. pose proof (derivations_querySignal name args s) as Hq.
  destruct (querySignal name args s) as [c s1]. unfold newPromise, setTimeout.
  match goal with |- context [subscribe c ?fn ?st] =>
    pose proof (derivations_subscribe c fn st) as H;
    destruct (subscribe c fn st) as [r s2] end.
  simpl in *. by destruct r; rewrite <- Hq.
Qed.

Lemma derivations_onTransition updatedQueries :
  ∀ s, derivations (onTransition updatedQueries s) = derivations s.
Proof.
  induction updatedQueries as [|tok rest IH]; intros s; [done|].
  cbn [onTransition]. rewrite IH. destruct (signals s !! tok); [|done].
  by rewrite derivations_refresh.
Qed.

Lemma derivations_fireTimer t s : derivations (fireTimer t s) = derivations s.
Proof.
  unfold fireTimer. destruct (timers s !! t) as [[cb ms| |]|]; try done.
  by destruct cb.
Qed.

Lemma cache_ok_new_client : cache_ok new_client.
Proof. intros k cp ver c H. simpl in H. by rewrite lookup_nil in H. Qed.

Lemma cache_ok_frame s s' :
  evolves s s' → derivations s' = derivations s → cache_ok s → cache_ok s'.
Proof.
  intros He Hd Hc k cp ver c. injection Hd as -> -> ->. intros Hk Hcache.
  destruct (Hc _ _ _ _ Hk Hcache) as (Hle & cell & E & Htok).
  split; [done|]. destruct (ev_cells _ _ He _ _ E) as (cell' & E' & (_ & _ & Hq & _) & _).
  exists cell'. split; [done|]. rewrite Hq. exact Htok.
Qed.

Lemma cache_ok_computed_sig k s :
  registry_ok s → cache_ok s → cache_ok (computed_sig k s).2.
Proof.
  intros Hr Hc. unfold computed_sig. destruct (computeds s !! k) as [cp|] eqn:Ek; [|done].
  pose proof (querySignal_registers (cp_query cp) (cp_argsFn cp (trigger s)) s) as Hreg.
  pose proof (querySignal_frame (cp_query cp) (cp_argsFn cp (trigger s)) s)
    as (Hcs & Htr & Hver).
  assert (quiet s (querySignal (cp_query cp) (cp_argsFn cp (trigger s)) s).2) as Hq
    by apply quiet_querySignal, quiet_refl.
  destruct (querySignal (cp_query cp) (cp_argsFn cp (trigger s)) s) as [c s1].
  cbn [fst snd] in *.
  assert (cache_ok (set_computeds
            (<[k := mkComputed (cp_query cp) (cp_argsFn cp) (cp_tracked cp)
                               (Some (triggerVersion s1, c))]>) s1)) as Hnew.
  { pose proof (registry_ok_evolves _ _ (proj1 Hq) Hr) as Hr1.
    intros k' cp' ver' c'. simpl. rewrite Hcs.
    destruct (decide (k' = k)) as [->|Hne].
    - rewrite list_lookup_insert_eq by (by eapply lookup_lt_Some).
      intros [= <-]. simpl. intros [= <- <-]. split; [done|].
      destruct (Hr1 _ _ Hreg) as (cell & E & Htok). exists cell. split; [done|].
      intros _. by rewrite Htok, Htr.
    - rewrite list_lookup_insert_ne by done. intros Hk' Hcache.
      destruct (Hc _ _ _ _ Hk' Hcache) as (Hle & cell & E & Htok).
      rewrite Hver, Htr. split; [done|].
      destruct (ev_cells _ _ (proj1 Hq) _ _ E) as (cell' & E' & (_ & _ & Hqt & _) & _).
      exists cell'. split; [done|]. by rewrite Hqt. }
  destruct (cp_cache cp) as [[ver c0]|]; [|exact Hnew].
  destruct (cp_tracked cp && negb (ver =? triggerVersion s)%nat); [exact Hnew|exact Hc].
Qed.

Lemma cache_ok_step o s : registry_ok s → cache_ok s → cache_ok (step o s).
Proof.
  intros Hr Hc.
  assert (∀ k, registry_ok (computed_sig k s).2) as Hrk.
  { intros k. eapply registry_ok_evolves; [|exact Hr].
    apply quiet_computed_sig, quiet_refl. }
  destruct o; cbn [step];
    try (pose proof (cache_ok_computed_sig k s Hr Hc) as Hk; specialize (Hrk k);
         unfold computed_value, computed_isLoaded, computed_refresh, computed_subscribe,
           computed_destroy, computed_sync;
         destruct (computed_sig k s) as [[c|] s1]; cbn [fst snd] in *; try done).
  - apply (cache_ok_frame s); [apply (evolves_step (OpQuerySignal name args) s)| |done].
    apply derivations_querySignal.
  - apply (cache_ok_frame s); [apply (evolves_step (OpSubscribe c tag) s)| |done].
    apply derivations_subscribe.
  - apply (cache_ok_frame s); [apply (evolves_step (OpUnsub c l) s)| |done].
    apply derivations_unsub.
  - apply (cache_ok_frame s); [apply (evolves_step (OpRefresh c) s)| |done].
    apply derivations_refresh.
  - apply (cache_ok_frame s); [apply (evolves_step (OpDestroy c) s)| |done].
    apply derivations_destroy.
  - apply (cache_ok_frame s); [apply (evolves_step (OpSync c timeout) s)| |done].
    apply derivations_sync.
  - apply (cache_ok_frame s); [apply (evolves_step (OpQuery name args timeout) s)| |done].
    apply derivations_query.
  - intros k cp ver c. simpl. intros [H|[_ H]]%lookup_app_Some; [by apply (Hc k cp ver c)|].
    apply list_lookup_singleton_Some in H as [_ <-]. discriminate.
  - apply (cache_ok_frame s1); [apply (evolves_step (OpRefresh c) s1)| |done].
    apply derivations_refresh.
  - pose proof (evolves_step (OpSubscribe c tag) s1) as He.
    pose proof (derivations_subscribe c (ExternalListener tag) s1) as Hd.
    cbn [step] in He. destruct (subscribe c (ExternalListener tag) s1) as [l s2].
    cbn [fst snd] in *. by apply (cache_ok_frame s1).
  - apply (cache_ok_frame s1); [apply (evolves_step (OpDestroy c) s1)| |done].
    apply derivations_destroy.
  - pose proof (evolves_step (OpSync c 10000) s1) as He.
    pose proof (derivations_sync c 10000 s1) as Hd.
    cbn [step] in He. destruct (sync c 10000 s1) as [p s2].
    cbn [fst snd] in *. by apply (cache_ok_frame s1).
  - unfold writeTrigger. case_decide; [done|].
    intros k cp ver c. simpl. intros Hk Hcache.
    destruct (Hc _ _ _ _ Hk Hcache) as (Hle & cell & E & _).
    split; [lia|]. exists cell. split; [done|]. lia.
  - by apply (cache_ok_frame s); [apply (evolves_step (OpLocalResult tok v) s)| |].
  - apply (cache_ok_frame s); [apply (evolves_step (OpTransition updatedQueries) s)| |done].
    apply derivations_onTransition.
  - apply (cache_ok_frame s); [apply (evolves_step (OpFireTimer t) s)| |done].
    apply derivations_fireTimer.
  - done.
  - done.
  - by apply (cache_ok_frame s); [apply (evolves_step OpSetAuth s)| |].
  - by apply (cache_ok_frame s); [apply (evolves_step OpClearAuth s)| |].
  - apply (cache_ok_frame s); [apply (evolves_step (OpAuthChanged a) s)| |done].
    simpl. unfold authChanged. by destruct (Backend.onAuthChange (client s)).
Qed.

Lemma cache_ok_run ops : cache_ok (run ops new_client).
Proof.
  assert (∀ s, registry_ok s → cache_ok s → cache_ok (run ops s)) as H.
  { induction ops as [|o ops IH]; intros s Hr Hc; [done|].
    cbn [run foldl]. apply IH; [|by apply cache_ok_step].
    eapply registry_ok_evolves; [apply evolves_step|done]. }
  apply H; [apply well_formed_new_client|apply cache_ok_new_client].
Qed.

(** After a read the derivation holds the cell it returned; unless the
    argument function reads its input untracked, the cell was returned
    for the input as it is now. *)
Lemma computed_sig_holds k cp s :
  computeds s !! k = Some cp →
  let b := computed_sig k s in
  ∃ c ver,
    b.1 = Some c
    ∧ computeds b.2 !! k
      = Some (mkComputed (cp_query cp) (cp_argsFn cp) (cp_tracked cp) (Some (ver, c)))
    ∧ trigger b.2 = trigger s
    ∧ (ver = triggerVersion b.2 ∨ (cp_tracked cp = false ∧ cp_cache cp ≠ None)).
Proof.
  intros E b. subst b. unfold computed_sig. rewrite E.
  pose proof (querySignal_frame (cp_query cp) (cp_argsFn cp (trigger s)) s)
    as (Hcs & Htr & Hver).
  destruct (querySignal (cp_query cp) (cp_argsFn cp (trigger s)) s) as [c s1].
  cbn [fst snd] in *.
  assert (∃ c' ver,
            Some c = Some c'
            ∧ computeds (set_computeds
                 (<[k := mkComputed (cp_query cp) (cp_argsFn cp) (cp_tracked cp)
                                    (Some (triggerVersion s1, c))]>) s1) !! k
              = Some (mkComputed (cp_query cp) (cp_argsFn cp) (cp_tracked cp)
                        (Some (ver, c')))
            ∧ trigger s1 = trigger s
            ∧ (ver = triggerVersion s1 ∨ (cp_tracked cp = false ∧ cp_cache cp ≠ None)))
    as Hnew.
  { exists c, (triggerVersion s1). split_and!; [done| |done|by left].
    simpl. apply list_lookup_insert_eq. rewrite Hcs. by eapply lookup_lt_Some. }
  destruct (cp_cache cp) as [[ver c0]|] eqn:Hcache; [|exact Hnew].
  destruct (cp_tracked cp && negb (ver =? triggerVersion s)%nat) eqn:Hb; [exact Hnew|].
  cbn [fst snd]. exists c0, ver. split_and!; [done| |done|].
  - rewrite E. f_equal. destruct cp. simpl in *. by rewrite Hcache.
  - apply andb_false_iff in Hb as [Hb|Hb]; [right; by split|left].
    apply negb_false_iff, Nat.eqb_eq in Hb. done.
Qed.





(** ** The authenticated cell *)

Lemma auth_unsub c l s : authenticated (unsub c l s) = authenticated s.
Proof. unfold unsub. destruct (cells s !! c); [|done]. by case_decide. Qed.

Lemma auth_run_listener initial c l fn v s :
  authenticated (run_listener initial c l fn v s).1 = authenticated s.
Proof.
  unfold run_listener. destruct fn as [tag|p t|p t]; [done| |].
  - destruct (isLoaded c (record_call c l v s)); [|done]. by destruct initial.
  - destruct (isLoaded c (record_call c l v s)); [|done]. cbn [negb].
    destruct initial; [done|]. cbn [fst]. by rewrite auth_unsub.
Qed.

Lemma auth_sig_subscribe c fn s :
  authenticated (sig_subscribe c fn s).1.2 = authenticated s.
Proof.
  unfold sig_subscribe. destruct (cells s !! c) as [cell|]; [|done].
  pose proof (auth_run_listener true c (c_nextListener cell) fn (c_value cell)
                (upd_cell c (cell_addListener fn) s)) as H.
  destruct (run_listener true c (c_nextListener cell) fn (c_value cell)
              (upd_cell c (cell_addListener fn) s)) as [s1 threw].
  by destruct threw.
Qed.

Lemma auth_notify c v snapshot :
  ∀ s, authenticated (notify c v snapshot s) = authenticated s.
Proof.
  induction snapshot as [|[l fn] rest IH]; intros s; [done|].
  cbn [notify]. rewrite IH. destruct (subscribed c l s); [|done].
  apply auth_run_listener.
Qed.

Lemma auth_refresh c s : authenticated (refresh c s) = authenticated s.
Proof.
  unfold refresh, sig_write. destruct (cells s !! c); [|done].
  case_decide; [done|]. by rewrite auth_notify.
Qed.

Lemma auth_destroy c s : authenticated (destroy c s) = authenticated s.
Proof. unfold destroy. by destruct (cells s !! c). Qed.

Lemma auth_querySignal name args s :
  authenticated (querySignal name args s).2 = authenticated s.
Proof.
  destruct (signals s !! Backend.serializePathAndArgs name args) as [c|] eqn:E.
  - by rewrite (querySignal_known _ _ _ _ E).
  - by rewrite (querySignal_fresh _ _ _ E).
Qed.

Lemma auth_subscribe c fn s : authenticated (subscribe c fn s).2 = authenticated s.
Proof.
  unfold subscribe.
  pose proof (auth_sig_subscribe c fn
                (upd_cell c (λ cell, cell_setCounter (c_counter cell + 1) cell) s)) as H.
  by destruct (sig_subscribe c fn _) as [[l s1] threw].
Qed.

Lemma auth_sync c timeout s : authenticated (sync c timeout s).2 = authenticated s.
Proof.
  unfold sync, newPromise, setTimeout.
  match goal with |- context [sig_subscribe c ?fn ?st] =>
    pose proof (auth_sig_subscribe c fn st) as H;
    by destruct (sig_subscribe c fn st) as [[l s1] threw] end.
Qed.

Lemma auth_query name args timeout s :
  authenticated (query name args timeout s).2 = authenticated s.
Proof.
  unfold query. pose proof (auth_querySignal name args s) as Hq.
  destruct (querySignal name args s) as [c s1]. unfold newPromise, setTimeout.
  match goal with |- context [subscribe c ?fn ?st] =>
    pose proof (auth_subscribe c fn st) as H;
    destruct (subscribe c fn st) as [r s2] end.
  simpl in *. by destruct r; rewrite <- Hq.
Qed.

Lemma auth_onTransition updatedQueries :
  ∀ s, authenticated (onTransition updatedQueries s) = authenticated s.
Proof.
  induction updatedQueries as [|tok rest IH]; intros s; [done|].
  cbn [onTransition]. rewrite IH. destruct (signals s !! tok); [|done].
  by rewrite auth_refresh.
Qed.

Lemma auth_fireTimer t s : authenticated (fireTimer t s) = authenticated s.
Proof.
  unfold fireTimer. destruct (timers s !! t) as [[cb ms| |]|]; try done.
  by destruct cb.
Qed.

Lemma auth_computed_sig k s : authenticated (computed_sig k s).2 = authenticated s.
Proof.
  unfold computed_sig. destruct (computeds s !! k) as [cp|]; [|done].
  pose proof (auth_querySignal (cp_query cp) (cp_argsFn cp (trigger s)) s) as H.
  destruct (querySignal (cp_query cp) (cp_argsFn cp (trigger s)) s) as [c s1].
  destruct (cp_cache cp) as [[ver c0]|]; [|done].
  by destruct (cp_tracked cp && negb (ver =? triggerVersion s)%nat).
Qed.

(** No member of the client but the callback handed to the backend
    writes the authenticated cell. *)
Lemma auth_step o s :
  (∀ a, o ≠ OpAuthChanged a) → authenticated (step o s) = authenticated s.
Proof.
  intros Hno. destruct o; cbn [step];
    try done;
    try (unfold computed_value, computed_isLoaded, computed_refresh, computed_subscribe,
           computed_destroy, computed_sync;
         pose proof (auth_computed_sig k s) as Hk;
         destruct (computed_sig k s) as [[c|] s1]; cbn [fst snd] in *; try done).
  - apply auth_querySignal.
  - apply auth_subscribe.
  - apply auth_unsub.
  - apply auth_refresh.
  - apply auth_destroy.
  - apply auth_sync.
  - apply auth_query.
  - by rewrite auth_refresh.
  - pose proof (auth_subscribe c (ExternalListener tag) s1) as H.
    destruct (subscribe c (ExternalListener tag) s1) as [l s2]. simpl in *. congruence.
  - by rewrite auth_destroy.
  - pose proof (auth_sync c 10000 s1) as H.
    destruct (sync c 10000 s1) as [p s2]. simpl in *. congruence.
  - unfold writeTrigger. by case_decide.
  - apply auth_onTransition.
  - apply auth_fireTimer.
  - by destruct (Hno a).
Qed.

(** The outcome the backend reports through the installed callback is
    what the cell holds next. *)
Lemma authChanged_reports a s :
  Backend.onAuthChange (client s) = true → authenticated (authChanged a s) = Some a.
Proof. intros H. unfold authChanged. by rewrite H. Qed.

Lemma tristate_step o s :
  o = OpSetAuth ∨ TriStateAuth.step o s = step o s.
Proof. destruct o; (by left) || (by right). Qed.

Lemma tristate_step_undefined o s :
  (∀ a, o ≠ OpAuthChanged a) → authenticated s = None →
  authenticated (TriStateAuth.step o s) = None.
Proof.
  intros Hno Hs. destruct (tristate_step o s) as [->| ->]; [done|].
  by rewrite auth_step.
Qed.

Lemma tristate_run_undefined ops :
  (∀ o a, o ∈ ops → o ≠ OpAuthChanged a) →
  ∀ s, authenticated s = None → authenticated (TriStateAuth.run ops s) = None.
Proof.
  induction ops as [|o ops IH]; intros Hno s Hs; [done|].
  cbn [TriStateAuth.run foldl]. apply IH.
  - intros o' a Hin. apply Hno. by right.
  - apply tristate_step_undefined; [|done]. intros a. apply Hno. left.
Qed.

(** C9. The authenticated cell of the client with the tri-state cell is
    undefined right after construction and right after every setAuth,
    and it stays undefined, whatever is done with the client, until the
    backend reports an outcome through the callback setAuth installed;
    the report makes the cell hold that outcome, true or false. No
    other member of the client changes the cell: apart from a report,
    only setAuth writes it, back to undefined. *)
Theorem authenticated_tri_state :
  authenticated TriStateAuth.new_client = None
  ∧ (∀ s, authenticated (TriStateAuth.setAuth s) = None
          ∧ Backend.onAuthChange (client (TriStateAuth.setAuth s)) = true)
  ∧ (∀ ops, (∀ o a, o ∈ ops → o ≠ OpAuthChanged a) →
            authenticated (TriStateAuth.run ops TriStateAuth.new_client) = None)
  ∧ (∀ ops s, (∀ o a, o ∈ ops → o ≠ OpAuthChanged a) →
              authenticated (TriStateAuth.run ops (TriStateAuth.setAuth s)) = None)
  ∧ (∀ a s, Backend.onAuthChange (client s) = true →
            authenticated (TriStateAuth.step (OpAuthChanged a) s) = Some a)
  ∧ (∀ a s, authenticated (TriStateAuth.step (OpAuthChanged a) (TriStateAuth.setAuth s))
            = Some a)
  ∧ (∀ o s, (∀ a, o ≠ OpAuthChanged a) →
            authenticated (TriStateAuth.step o s) = authenticated s
            ∨ (o = OpSetAuth ∧ authenticated (TriStateAuth.step o s) = None)).
Proof.
  split_and!.
  - done.
  - done.
  - intros ops Hno. by apply tristate_run_undefined.
  - intros ops s Hno. by apply tristate_run_undefined.
  - intros a s H. by apply authChanged_reports.
  - done.
  - intros o s Hno. destruct (tristate_step o s) as [->| ->]; [by right|left].
    by apply auth_step.
Qed.

Lemma authenticated_tri_state_witness :
  let ops := [OpQuerySignal "listMessages" "{}"; OpSetAuth; OpSubscribe 0%nat 1%nat;
              OpClearAuth; OpSetAuth] in
  authenticated (TriStateAuth.run ops TriStateAuth.new_client) = None
  ∧ authenticated (TriStateAuth.step (OpAuthChanged true)
                     (TriStateAuth.run ops TriStateAuth.new_client)) = Some true
  ∧ authenticated (TriStateAuth.step OpSetAuth
                     (TriStateAuth.step (OpAuthChanged true)
                        (TriStateAuth.run ops TriStateAuth.new_client))) = None.
Proof.
  intros ops.
  destruct authenticated_tri_state as (_ & H2 & H3 & _ & H5 & _).
  split_and!.
  - apply H3. intros o a Hin.
    repeat (apply elem_of_cons in Hin as [->|Hin]; [discriminate|]).
    by apply elem_of_nil in Hin.
  - apply H5. reflexivity.
  - apply (H2 _).
Defined.


(** X25. The client with reference counting creates [#authenticated] as
    [signal(false)]: right after construction the cell is false, setAuth
    does not touch it, so after a reported outcome a new setAuth leaves
    the old outcome in place, and in no state this client can reach is
    the cell undefined. *)
Lemma authenticated_starts_false :
  authenticated new_client = Some false
  ∧ (∀ s, authenticated (setAuth s) = authenticated s)
  ∧ authenticated (setAuth new_client) = Some false
  ∧ authenticated (setAuth (authChanged true (setAuth new_client))) = Some true
  ∧ ∀ ops, authenticated (run ops new_client) ≠ None.
Proof.
  split_and!; try done.
  intros ops. by destruct (ev_auth _ _ (evolves_run ops new_client)) as [->|[a ->]].
Qed.

(** ** Coherence along proper runs *)

Lemma coherent_frame s s' :
  coherent s → evolves s s' → calm s s' → coherent s'.
Proof.
  intros Hc He [Hs Hb] sid sub. rewrite Hb, Hs. intros H L.
  destruct (Hc _ _ H L) as (c & cell & Hreg & Hcell & Hu).
  destruct (ev_cells _ _ He _ _ Hcell) as (cell' & Hcell' & (_ & _ & _ & Hu') & _).
  exists c, cell'. split_and!; [done..|congruence].
Qed.

Lemma registered_frame c s s' :
  registered c s → evolves s s' → calm s s' → registered c s'.
Proof.
  intros (cell & Hcell & Hreg) He [Hs Hb].
  destruct (ev_cells _ _ He _ _ Hcell) as (cell' & Hcell' & (_ & _ & Ht & _) & _).
  exists cell'. split; [done|]. by rewrite Hs, Ht.
Qed.

(** Tearing down a registered cell. *)
Lemma coherent_teardown c cell s :
  coherent s → cells s !! c = Some cell → signals s !! c_queryToken cell = Some c →
  coherent (set_signals (delete (c_queryToken cell))
              (set_client (Backend.unsubscribe (c_unsubscribe cell)) s)).
Proof.
  intros Hc Hcell Hreg sid sub. simpl. rewrite list_lookup_alter.
  case_decide as Hd.
  - subst sid. destruct (Backend.subscriptions (client s) !! c_unsubscribe cell);
      simpl; [|done]. intros [= <-]. simpl. discriminate.
  - intros H L. destruct (Hc _ _ H L) as (c' & cell' & Hreg' & Hcell' & Hu).
    exists c', cell'. split_and!; [|done..].
    rewrite lookup_delete_ne; [done|]. intros Heq. rewrite <- Heq in Hreg'.
    rewrite Hreg in Hreg'. injection Hreg' as <-. congruence.
Qed.

Lemma coherent_destroy c s : coherent s → registered c s → coherent (destroy c s).
Proof.
  intros Hc (cell & Hcell & Hreg). unfold destroy. rewrite Hcell.
  by apply (coherent_teardown c cell s).
Qed.

Lemma tearable_frame c s s' :
  tearable c s → evolves s s' → calm s s' → counter c s' = counter c s →
  tearable c s'.
Proof.
  intros [Hc Hr] He Hcalm Hcnt. split; [by eapply coherent_frame|].
  destruct Hr as [Hr|Hr]; [left; by eapply registered_frame|right; lia].
Qed.

Lemma tearable_unsub c l s : tearable c s → tearable c (unsub c l s).
Proof.
  intros Ht. unfold unsub. destruct (cells s !! c) as [cell|] eqn:E; [|done].
  set (s1 := upd_cell c (cell_setCounter (c_counter cell - 1)) (sig_unsubscribe c l s)).
  assert (quiet s s1) as Hq.
  { subst s1. apply (quiet_setCounter _ _ (λ _, c_counter cell - 1)).
    apply quiet_sig_unsubscribe, quiet_refl. }
  assert (calm s s1) as Hcalm by done.
  assert (cells s1 !! c
          = Some (cell_setCounter (c_counter cell - 1) (cell_removeListener l cell))) as E1.
  { subst s1. simpl. by rewrite !list_lookup_alter_eq, E. }
  assert (counter c s1 = c_counter cell - 1) as Hc1 by (unfold counter; by rewrite E1).
  pose proof (coherent_frame _ _ (proj1 Ht) (proj1 Hq) Hcalm) as Hcoh1.
  case_decide as Hz.
  - split.
    + destruct Ht as [_ [Hr|Hr]].
      * destruct (registered_frame _ _ _ Hr (proj1 Hq) Hcalm) as (cell1 & Hcell1 & Hreg1).
        rewrite E1 in Hcell1. injection Hcell1 as <-.
        apply (coherent_teardown c _ s1 Hcoh1 E1 Hreg1).
      * unfold counter in Hr. rewrite E in Hr. lia.
    + right. change (counter c s1 ≤ 0). lia.
  - split; [done|]. destruct Ht as [_ [Hr|Hr]].
    + left. exact (registered_frame _ _ _ Hr (proj1 Hq) Hcalm).
    + right. change (counter c s1 ≤ 0). unfold counter in Hr. rewrite E in Hr. lia.
Qed.

Lemma tearable_run_listener c l fn v s :
  tearable c s → tearable c (run_listener false c l fn v s).1.
Proof.
  intros Ht.
  assert (∀ s', tearable c s' → tearable c (record_call c l v s')) as Hrec.
  { intros s' H. eapply tearable_frame; [exact H|apply quiet_record_call, quiet_refl|done..]. }
  assert (∀ p s', tearable c s' → tearable c (resolve p v s')) as Hres.
  { intros p s' H. eapply tearable_frame; [exact H|apply quiet_resolve, quiet_refl|done..]. }
  assert (∀ t s', tearable c s' → tearable c (clearTimeout t s')) as Hclr.
  { intros t s' H. eapply tearable_frame; [exact H|apply quiet_clearTimeout, quiet_refl|done..]. }
  assert (∀ s', tearable c s' → tearable c (sig_unsubscribe c l s')) as Hsu.
  { intros s' H. eapply tearable_frame;
      [exact H|apply quiet_sig_unsubscribe, quiet_refl|done|].
    unfold counter, sig_unsubscribe. by rewrite (field_upd_cell c_counter 0). }
  unfold run_listener. destruct fn; simpl.
  - by apply Hrec.
  - destruct (isLoaded c _); simpl; [|by apply Hrec].
    by apply Hclr, Hsu, Hres, Hrec.
  - destruct (isLoaded c _); simpl; [|by apply Hrec].
    by apply tearable_unsub, Hres, Hclr, Hrec.
Qed.

Lemma tearable_notify c v snapshot : ∀ s, tearable c s → tearable c (notify c v snapshot s).
Proof.
  induction snapshot as [|[l fn] rest IH]; intros s H; simpl; [done|].
  apply IH. destruct (subscribed c l s); [by apply tearable_run_listener|done].
Qed.

Lemma coherent_unsub c l s : coherent s → registered c s → coherent (unsub c l s).
Proof. intros Hc Hr. apply (tearable_unsub c l s). split; auto. Qed.

Lemma coherent_refresh c s : coherent s → registered c s → coherent (refresh c s).
Proof.
  intros Hc Hr. unfold refresh. destruct (cells s !! c) as [cell|] eqn:E; [|done].
  unfold sig_write. rewrite E. case_decide; [done|].
  apply tearable_notify. split.
  - eapply coherent_frame; [exact Hc|apply quiet_setValue, quiet_refl|done].
  - left. eapply registered_frame; [exact Hr|apply quiet_setValue, quiet_refl|done].
Qed.

Lemma coherent_onTransition updatedQueries :
  ∀ s, coherent s → registry_ok s → coherent (onTransition updatedQueries s).
Proof.
  induction updatedQueries as [|tok rest IH]; intros s Hc Hr; simpl; [done|].
  destruct (signals s !! tok) as [c|] eqn:E; [|by apply IH].
  set (s1 := upd_cell c (cell_setIsLoaded true) s).
  assert (evolves s s1) as He1 by apply evolves_setIsLoaded.
  assert (calm s s1) as Hcalm by done.
  assert (evolves s1 (refresh c s1)) as He2 by apply quiet_refresh, quiet_refl.
  apply IH.
  - apply coherent_refresh; [by eapply coherent_frame|].
    eapply registered_frame; [by eapply registered_lookup|done..].
  - eapply registry_ok_evolves; [|exact Hr].
    eapply evolves_trans; [exact He1|exact He2].
Qed.

(** The operations that cannot tear a cell down leave the registry and
    the backend subscriptions alone. *)
Lemma calm_sig_subscribe c fn s : calm s (sig_subscribe c fn s).1.2.
Proof.
  unfold sig_subscribe. destruct (cells s !! c) as [cell|]; [|done].
  unfold run_listener. destruct fn; simpl.
  - done.
  - by destruct (isLoaded c _).
  - by destruct (isLoaded c _).
Qed.

Lemma calm_subscribe c fn s : calm s (subscribe c fn s).2.
Proof.
  unfold subscribe.
  pose proof (calm_sig_subscribe c fn
    (upd_cell c (λ cell, cell_setCounter (c_counter cell + 1) cell) s)) as H.
  destruct (sig_subscribe _ _ _) as [[l s'] threw]. by destruct threw.
Qed.

Lemma calm_sync c timeout s : calm s (sync c timeout s).2.
Proof.
  unfold sync. simpl.
  match goal with |- context [sig_subscribe ?c ?fn ?s1] =>
    pose proof (calm_sig_subscribe c fn s1) as H;
    destruct (sig_subscribe c fn s1) as [[l s'] threw] end.
  done.
Qed.

Lemma calm_fireTimer t s : calm s (fireTimer t s).
Proof.
  unfold fireTimer. destruct (timers s !! t) as [[cb ms| |]|]; try done.
  by destruct cb.
Qed.

Lemma coherent_query name args timeout s :
  coherent s → coherent (query name args timeout s).2.
Proof.
  intros Hc. unfold query.
  pose proof (querySignal_coherent name args s Hc) as H1.
  destruct (querySignal name args s) as [signal s1]. simpl in *.
  match goal with |- context [subscribe ?c ?fn ?s2] =>
    pose proof (calm_subscribe c fn s2) as Hcalm;
    pose proof (proj1 (quiet_subscribe s2 c fn s2 (quiet_refl s2))) as He;
    destruct (subscribe c fn s2) as [r s3] end.
  simpl in *.
  assert (coherent s3) as H3.
  { eapply coherent_frame; [|exact He|exact Hcalm].
    eapply coherent_frame; [exact H1| |done].
    apply quiet_setTimeout, quiet_newPromise, quiet_refl. }
  destruct r; [done|].
  eapply coherent_frame; [exact H3|apply quiet_reject, quiet_refl|done].
Qed.

Lemma coherent_computed_sig k s : coherent s → coherent (computed_sig k s).2.
Proof.
  intros Hc. unfold computed_sig. destruct (computeds s !! k) as [cp|]; [|done].
  assert (coherent
    (let '(c, s1) := querySignal (cp_query cp) (cp_argsFn cp (trigger s)) s in
     (Some c, set_computeds
        (<[k := mkComputed (cp_query cp) (cp_argsFn cp) (cp_tracked cp)
                           (Some (triggerVersion s1, c))]>) s1)).2) as He.
  { pose proof (querySignal_coherent (cp_query cp) (cp_argsFn cp (trigger s)) s Hc) as H1.
    destruct (querySignal _ _ s) as [c s1]. simpl in *.
    eapply coherent_frame; [exact H1|apply quiet_set_computeds, quiet_refl|done]. }
  destruct (cp_cache cp) as [[ver c]|]; [|done].
  destruct (cp_tracked cp && _); done.
Qed.

Lemma coherent_step o s :
  coherent s → registry_ok s → proper o s → coherent (step o s).
Proof.
  intros Hc Hr Hp.
  assert (∀ s', calm s s' → evolves s s' → coherent s') as Hcalm
    by (intros s' H1 H2; by eapply coherent_frame).
  destruct o; simpl in *.
  - by apply querySignal_coherent.
  - apply Hcalm; [apply calm_subscribe|apply quiet_subscribe, quiet_refl].
  - by apply coherent_unsub.
  - by apply coherent_refresh.
  - by apply coherent_destroy.
  - apply Hcalm; [apply calm_sync|apply quiet_sync, quiet_refl].
  - by apply coherent_query.
  - by apply Hcalm; [|apply (quiet_step (OpQueryComputed name argsFn tracked))].
  - unfold computed_value. pose proof (coherent_computed_sig k s Hc) as H.
    by destruct (computed_sig k s).
  - unfold computed_isLoaded. pose proof (coherent_computed_sig k s Hc) as H.
    by destruct (computed_sig k s).
  - unfold computed_refresh. pose proof (coherent_computed_sig k s Hc) as H.
    destruct (computed_sig k s) as [[c|] s1]; simpl in *; [|done].
    by apply coherent_refresh.
  - unfold computed_subscribe. pose proof (coherent_computed_sig k s Hc) as H.
    destruct (computed_sig k s) as [[c|] s1]; simpl in *; [|done].
    pose proof (calm_subscribe c (ExternalListener tag) s1) as Hcs.
    pose proof (proj1 (quiet_subscribe s1 c (ExternalListener tag) s1 (quiet_refl s1))) as He.
    destruct (subscribe c _ s1) as [l s2]. simpl in *. by eapply coherent_frame.
  - unfold computed_destroy. pose proof (coherent_computed_sig k s Hc) as H.
    destruct (computed_sig k s) as [[c|] s1]; simpl in *; [|done].
    by apply coherent_destroy.
  - unfold computed_sync. pose proof (coherent_computed_sig k s Hc) as H.
    destruct (computed_sig k s) as [[c|] s1]; simpl in *; [|done].
    pose proof (calm_sync c 10000 s1) as Hcs.
    pose proof (proj1 (quiet_sync s1 c 10000 s1 (quiet_refl s1))) as He.
    destruct (sync c 10000 s1) as [p s2]. simpl in *. by eapply coherent_frame.
  - unfold writeTrigger. case_decide; [done|].
    by apply Hcalm; [|apply quiet_same].
  - by apply Hcalm; [|apply quiet_same].
  - by apply coherent_onTransition.
  - apply Hcalm; [apply calm_fireTimer|apply quiet_fireTimer, quiet_refl].
  - done.
  - done.
  - by apply Hcalm; [|apply quiet_same].
  - by apply Hcalm; [|apply quiet_same].
  - unfold authChanged. destruct (Backend.onAuthChange _); [|done].
    apply Hcalm; [done|]. apply quiet_frame; try done. right. by eexists.
Qed.

(** X24. Along a run in which refresh, destroy and the capabilities of
    subscribe are invoked only on cells the registry holds, the client
    leaves no capability behind: every backend subscription whose
    unsubscribe capability has never been invoked is the one owned by
    the cell the registry holds for its token, so no two of them are
    for the same token. *)
Theorem coherent_proper_run ops :
  ∀ s, coherent s → registry_ok s → proper_run ops s →
       coherent (run ops s) ∧ noDuplicateLive (run ops s).
Proof.
  induction ops as [|o ops IH]; intros s Hc Hr Hp; simpl.
  { split; [done|by apply coherent_noDuplicateLive]. }
  destruct Hp as [Hp Hps]. apply IH; [by apply coherent_step| |done].
  eapply registry_ok_evolves; [apply evolves_step|done].
Qed.

Lemma coherent_proper_run_witness :
  let ops := [OpQuerySignal "listMessages" "{}"; OpSubscribe 0%nat 1%nat;
              OpQuerySignal "listMessages" "{}"; OpUnsub 0%nat 0%nat;
              OpQuerySignal "listMessages" "{}"] in
  proper_run ops new_client ∧ noDuplicateLive (run ops new_client).
Proof.
  intros ops.
  assert (proper_run ops new_client) as Hp.
  { simpl. split_and!; try done. by eexists. }
  split; [exact Hp|].
  exact (proj2 (coherent_proper_run ops new_client coherent_new_client
                  (proj1 well_formed_new_client) Hp)).
Defined.


(** ** The backend's subscriber count follows the registry *)

Lemma speculative_subscriber (tok : QueryToken) (m : gmap QueryToken nat) :
  m !! tok ≠ Some 0%nat →
  Backend.removeSubscriber tok (Backend.addSubscriber tok m) = m.
Proof.
  intros H. unfold Backend.removeSubscriber, Backend.addSubscriber.
  rewrite lookup_insert_eq. destruct (m !! tok) as [[|n]|] eqn:E; [done| |]; simpl.
  - rewrite insert_insert_eq. by apply insert_id.
  - by apply delete_insert_id.
Qed.

Lemma synchronized_new_client : synchronized new_client.
Proof.
  split.
  - intros c cell H. simpl in H. by rewrite lookup_nil in H.
  - intros tok. simpl. by rewrite !lookup_empty.
Qed.

Lemma synchronized_frame s s' :
  cells s' = cells s → signals s' = signals s →
  Backend.subscriptions (client s') = Backend.subscriptions (client s) →
  Backend.numSubscribers (client s') = Backend.numSubscribers (client s) →
  synchronized s → synchronized s'.
Proof.
  intros Hc Hs Hb Hn [HK HJ]. split.
  - intros c cell. rewrite Hc, Hb. apply HK.
  - intros tok. rewrite Hn, Hs. apply HJ.
Qed.

Lemma synchronized_upd_cell c f s :
  keeps f → synchronized s → synchronized (upd_cell c f s).
Proof.
  intros Hf [HK HJ]. split; [|exact HJ].
  intros c' cell'. simpl. destruct (decide (c' = c)) as [->|Hne].
  - rewrite list_lookup_alter_eq. destruct (cells s !! c) as [cell|] eqn:E; [|done].
    intros [= <-]. destruct (HK _ _ E) as (sub & Hsub & Htok).
    destruct (Hf cell) as [(_ & _ & Hq & Hu) _]. exists sub. by rewrite Hu, Hq.
  - rewrite list_lookup_alter_ne by done. apply HK.
Qed.

(** A teardown: the token leaves the registry and the capability of
    the cell is invoked. *)
Lemma synchronized_teardown c cell s :
  synchronized s → cells s !! c = Some cell →
  synchronized (set_signals (delete (c_queryToken cell))
                  (set_client (Backend.unsubscribe (c_unsubscribe cell)) s)).
Proof.
  intros [HK HJ] E. destruct (HK _ _ E) as (sub & Hsub & Htok). split.
  - intros c' cell' E'. simpl in *. destruct (HK _ _ E') as (sub' & Hsub' & Htok').
    destruct (decide (c_unsubscribe cell' = c_unsubscribe cell)) as [Heq|Hne].
    + rewrite Heq, list_lookup_alter_eq. rewrite Heq in Hsub'. rewrite Hsub'.
      eexists. split; [done|]. done.
    + rewrite list_lookup_alter_ne by done. by exists sub'.
  - intros tok. simpl. rewrite Hsub, Htok.
    unfold Backend.removeSubscriber.
    pose proof (HJ (c_queryToken cell)) as Hown. pose proof (HJ tok) as Htk.
    destruct (decide (tok = c_queryToken cell)) as [->|Hne].
    + rewrite lookup_delete_eq.
      destruct (signals s !! c_queryToken cell); rewrite Hown; [|done].
      apply lookup_delete_eq.
    + rewrite lookup_delete_ne by done.
      destruct (signals s !! c_queryToken cell); rewrite Hown; [|done].
      by rewrite lookup_delete_ne.
Qed.

Lemma synchronized_querySignal name args s :
  synchronized s → synchronized (querySignal name args s).2.
Proof.
  intros [HK HJ].
  destruct (signals s !! Backend.serializePathAndArgs name args) as [c|] eqn:E.
  - rewrite (querySignal_known _ _ _ _ E). split.
    + intros c' cell' E'. simpl in *. destruct (HK _ _ E') as (sub & Hsub & Htok).
      exists sub. split; [by apply lookup_app_l_Some|done].
    + intros tok. simpl. rewrite speculative_subscriber; [apply HJ|].
      rewrite HJ, E. discriminate.
  - rewrite (querySignal_fresh _ _ _ E). split.
    + intros c' cell'. simpl. intros [H|[Hle H]]%lookup_app_Some.
      * destruct (HK _ _ H) as (sub & Hsub & Htok).
        exists sub. split; [by apply lookup_app_l_Some|done].
      * apply list_lookup_singleton_Some in H as [_ <-]. simpl.
        eexists. split; [apply lookup_snoc_new|done].
    + intros tok. simpl. unfold Backend.addSubscriber.
      pose proof (HJ (Backend.serializePathAndArgs name args)) as Hown.
      rewrite E in Hown. rewrite Hown. simpl.
      destruct (decide (tok = Backend.serializePathAndArgs name args)) as [->|Hne].
      * by rewrite !lookup_insert_eq.
      * rewrite !lookup_insert_ne by done. apply HJ.
Qed.

Lemma synchronized_unsub c l s : synchronized s → synchronized (unsub c l s).
Proof.
  intros H. unfold unsub. destruct (cells s !! c) as [cell|] eqn:E; [|done].
  set (s1 := upd_cell c (cell_setCounter (c_counter cell - 1)) (sig_unsubscribe c l s)).
  assert (synchronized s1) as H1.
  { apply (synchronized_upd_cell c (λ cell0, cell_setCounter (c_counter cell - 1) cell0));
      [apply (keeps_setCounter (λ _, c_counter cell - 1))|].
    by apply synchronized_upd_cell; [apply keeps_removeListener|]. }
  case_decide; [|done].
  assert (cells s1 !! c = Some (cell_setCounter (c_counter cell - 1)
                                  (cell_removeListener l cell))) as E1.
  { subst s1. simpl. by rewrite !list_lookup_alter_eq, E. }
  exact (synchronized_teardown c _ s1 H1 E1).
Qed.

Lemma synchronized_destroy c s : synchronized s → synchronized (destroy c s).
Proof.
  intros H. unfold destroy. destruct (cells s !! c) as [cell|] eqn:E; [|done].
  exact (synchronized_teardown c cell s H E).
Qed.

Lemma synchronized_run_listener initial c l fn v s :
  synchronized s → synchronized (run_listener initial c l fn v s).1.
Proof.
  intros H. assert (synchronized (record_call c l v s)) as H'
    by (by eapply synchronized_frame; [| | | |exact H]).
  unfold run_listener. destruct fn as [tag|p t|p t]; [done| |].
  - destruct (isLoaded c (record_call c l v s)); [|done]. cbn [fst].
    destruct initial.
    + by eapply synchronized_frame; [| | | |exact H'].
    + eapply synchronized_frame;
        [| | | |apply (synchronized_upd_cell c (cell_removeListener l));
                [apply keeps_removeListener|exact H']]; done.
  - destruct (isLoaded c (record_call c l v s)); [|done]. cbn [negb].
    assert (synchronized (resolve p v (clearTimeout t (record_call c l v s)))) as H''
      by (by eapply synchronized_frame; [| | | |exact H']).
    destruct initial; [done|]. cbn [fst]. by apply synchronized_unsub.
Qed.

Lemma synchronized_sig_subscribe c fn s :
  synchronized s → synchronized (sig_subscribe c fn s).1.2.
Proof.
  intros H. unfold sig_subscribe. destruct (cells s !! c) as [cell|]; [|done].
  pose proof (synchronized_run_listener true c (c_nextListener cell) fn (c_value cell)
                (upd_cell c (cell_addListener fn) s)) as Hr.
  destruct (run_listener true c (c_nextListener cell) fn (c_value cell)
              (upd_cell c (cell_addListener fn) s)) as [s1 threw].
  cbn [fst] in Hr.
  assert (synchronized s1) as H1
    by (apply Hr; by apply synchronized_upd_cell; [apply keeps_addListener|]).
  destruct threw; [|done].
  by apply (synchronized_upd_cell c (cell_removeListener _)); [apply keeps_removeListener|].
Qed.

Lemma synchronized_notify c v snapshot :
  ∀ s, synchronized s → synchronized (notify c v snapshot s).
Proof.
  induction snapshot as [|[l fn] rest IH]; intros s H; [done|].
  cbn [notify]. apply IH. destruct (subscribed c l s); [|done].
  by apply synchronized_run_listener.
Qed.

Lemma synchronized_refresh c s : synchronized s → synchronized (refresh c s).
Proof.
  intros H. unfold refresh, sig_write. destruct (cells s !! c); [|done].
  case_decide; [done|]. apply synchronized_notify.
  by apply synchronized_upd_cell; [apply keeps_setValue|].
Qed.

Lemma synchronized_subscribe c fn s :
  synchronized s → synchronized (subscribe c fn s).2.
Proof.
  intros H. unfold subscribe.
  pose proof (synchronized_sig_subscribe c fn
                (upd_cell c (λ cell, cell_setCounter (c_counter cell + 1) cell) s)) as Hs.
  destruct (sig_subscribe c fn _) as [[l s1] threw]. cbn [fst snd] in *.
  apply Hs. by apply synchronized_upd_cell; [apply keeps_setCounter|].
Qed.

Lemma synchronized_sync c timeout s :
  synchronized s → synchronized (sync c timeout s).2.
Proof.
  intros H. unfold sync, newPromise, setTimeout.
  match goal with |- context [sig_subscribe c ?fn ?st] =>
    pose proof (synchronized_sig_subscribe c fn st) as Hs;
    destruct (sig_subscribe c fn st) as [[l s1] threw] end.
  cbn [fst snd] in *. apply Hs. by eapply synchronized_frame; [| | | |exact H].
Qed.

Lemma synchronized_query name args timeout s :
  synchronized s → synchronized (query name args timeout s).2.
Proof.
  intros H. unfold query.
  pose proof (synchronized_querySignal name args s H) as H0.
  destruct (querySignal name args s) as [c s0]. cbn [snd] in H0.
  unfold newPromise, setTimeout.
  match goal with |- context [subscribe c ?fn ?st] =>
    pose proof (synchronized_subscribe c fn st) as Hs;
    destruct (subscribe c fn st) as [r s2] end.
  cbn [fst snd] in *.
  assert (synchronized s2) as H2
    by (apply Hs; by eapply synchronized_frame; [| | | |exact H0]).
  destruct r; [done|]. by eapply synchronized_frame; [| | | |exact H2].
Qed.

Lemma synchronized_onTransition updatedQueries :
  ∀ s, synchronized s → synchronized (onTransition updatedQueries s).
Proof.
  induction updatedQueries as [|tok rest IH]; intros s H; [done|].
  cbn [onTransition]. apply IH. destruct (signals s !! tok); [|done].
  apply synchronized_refresh. by apply synchronized_upd_cell; [apply keeps_setIsLoaded|].
Qed.

Lemma synchronized_fireTimer t s : synchronized s → synchronized (fireTimer t s).
Proof.
  intros H. unfold fireTimer. destruct (timers s !! t) as [[cb ms| |]|]; try done.
  destruct cb as [c l p|p].
  - apply (synchronized_upd_cell c (cell_removeListener l)); [apply keeps_removeListener|].
    by eapply synchronized_frame; [| | | |exact H].
  - by eapply synchronized_frame; [| | | |exact H].
Qed.

Lemma synchronized_computed_sig k s :
  synchronized s → synchronized (computed_sig k s).2.
Proof.
  intros H. unfold computed_sig. destruct (computeds s !! k) as [cp|]; [|done].
  pose proof (synchronized_querySignal (cp_query cp) (cp_argsFn cp (trigger s)) s H) as Hq.
  destruct (querySignal (cp_query cp) (cp_argsFn cp (trigger s)) s) as [c s1].
  cbn [snd] in Hq.
  assert (∀ f, synchronized (set_computeds f s1)) as Hf
    by (intros f; by eapply synchronized_frame; [| | | |exact Hq]).
  destruct (cp_cache cp) as [[ver c0]|]; [|apply Hf].
  destruct (cp_tracked cp && negb (ver =? triggerVersion s)%nat); [apply Hf|done].
Qed.

Lemma synchronized_step o s : synchronized s → synchronized (step o s).
Proof.
  intros H. destruct o; cbn [step];
    try (by eapply synchronized_frame; [| | | |exact H]);
    try (unfold computed_value, computed_isLoaded, computed_refresh, computed_subscribe,
           computed_destroy, computed_sync;
         pose proof (synchronized_computed_sig k s H) as Hk;
         destruct (computed_sig k s) as [[c|] s1]; cbn [fst snd] in *; try done).
  - by apply synchronized_querySignal.
  - by apply synchronized_subscribe.
  - by apply synchronized_unsub.
  - by apply synchronized_refresh.
  - by apply synchronized_destroy.
  - by apply synchronized_sync.
  - by apply synchronized_query.
  - by apply synchronized_refresh.
  - pose proof (synchronized_subscribe c (ExternalListener tag) s1 Hk) as H1.
    by destruct (subscribe c (ExternalListener tag) s1) as [l s2].
  - by apply synchronized_destroy.
  - pose proof (synchronized_sync c 10000 s1 Hk) as H1.
    by destruct (sync c 10000 s1) as [p s2].
  - unfold writeTrigger. case_decide; [done|]. by eapply synchronized_frame; [| | | |exact H].
  - by apply synchronized_onTransition.
  - by apply synchronized_fireTimer.
  - unfold authChanged. destruct (Backend.onAuthChange (client s)); [|done].
    by eapply synchronized_frame; [| | | |exact H].
Qed.

Lemma synchronized_run ops : ∀ s, synchronized s → synchronized (run ops s).
Proof.
  induction ops as [|o ops IH]; intros s H; [done|].
  cbn [run foldl]. apply IH. by apply synchronized_step.
Qed.

(** ** Without a teardown the registry keeps its entries *)

Lemma retains_refl s : noPendingQuery s → retains s s.
Proof. by split. Qed.

Lemma retains_frame s0 s s' :
  cells s' = cells s → signals s' = signals s → retains s0 s → retains s0 s'.
Proof.
  intros Hc Hs [H1 H2]. split.
  - intros tok c. rewrite Hs. apply H1.
  - intros c cell e. rewrite Hc. apply H2.
Qed.

Lemma retains_upd_cell s0 c f s :
  (∀ cell e, e ∈ c_listeners (f cell) → e ∈ c_listeners cell ∨ notQueryListener e.2) →
  retains s0 s → retains s0 (upd_cell c f s).
Proof.
  intros Hf [H1 H2]. split; [exact H1|].
  intros c' cell' e. simpl. destruct (decide (c' = c)) as [->|Hne].
  - rewrite list_lookup_alter_eq. destruct (cells s !! c) as [cell|] eqn:E; [|done].
    intros [= <-] He. destruct (Hf _ _ He) as [He'|]; [|done]. by eapply H2.
  - rewrite list_lookup_alter_ne by done. apply H2.
Qed.

Lemma retains_same_listeners s0 c f s :
  (∀ cell, c_listeners (f cell) = c_listeners cell) →
  retains s0 s → retains s0 (upd_cell c f s).
Proof.
  intros Hf. apply retains_upd_cell. intros cell e. rewrite Hf. by left.
Qed.

Lemma retains_removeListener s0 c l s :
  retains s0 s → retains s0 (sig_unsubscribe c l s).
Proof.
  apply retains_upd_cell. intros cell e He. left.
  simpl in He. by apply list_elem_of_filter in He as [_ He].
Qed.

Lemma retains_addListener s0 c fn s :
  notQueryListener fn → retains s0 s → retains s0 (upd_cell c (cell_addListener fn) s).
Proof.
  intros Hfn. apply retains_upd_cell. intros cell e He. simpl in He.
  apply elem_of_app in He as [He|He]; [by left|].
  apply list_elem_of_singleton in He as ->. by right.
Qed.

Lemma retains_run_listener s0 initial c l fn v s :
  notQueryListener fn → retains s0 s → retains s0 (run_listener initial c l fn v s).1.
Proof.
  intros Hfn H. assert (retains s0 (record_call c l v s)) as H'
    by (by eapply retains_frame; [| |exact H]).
  unfold run_listener. destruct fn as [tag|p t|p t]; [done| |done].
  destruct (isLoaded c (record_call c l v s)); [|done]. cbn [fst].
  destruct initial.
  - by eapply retains_frame; [| |exact H'].
  - eapply retains_frame; [| |apply (retains_removeListener s0 c l), H']; done.
Qed.

Lemma retains_sig_subscribe s0 c fn s :
  notQueryListener fn → retains s0 s → retains s0 (sig_subscribe c fn s).1.2.
Proof.
  intros Hfn H. unfold sig_subscribe. destruct (cells s !! c) as [cell|]; [|done].
  pose proof (retains_run_listener s0 true c (c_nextListener cell) fn (c_value cell)
                (upd_cell c (cell_addListener fn) s) Hfn) as Hr.
  destruct (run_listener true c (c_nextListener cell) fn (c_value cell)
              (upd_cell c (cell_addListener fn) s)) as [s1 threw].
  cbn [fst] in Hr.
  assert (retains s0 s1) as H1 by (apply Hr; by apply retains_addListener).
  destruct threw; [|done]. by apply retains_removeListener.
Qed.

Lemma retains_notify s0 c v snapshot :
  (∀ e, e ∈ snapshot → notQueryListener e.2) →
  ∀ s, retains s0 s → retains s0 (notify c v snapshot s).
Proof.
  induction snapshot as [|[l fn] rest IH]; intros Hsn s H; [done|].
  cbn [notify]. apply IH; [intros e He; apply Hsn; by right|].
  destruct (subscribed c l s); [|done].
  apply retains_run_listener; [|done]. apply (Hsn (l, fn)). left.
Qed.

Lemma retains_refresh s0 c s : retains s0 s → retains s0 (refresh c s).
Proof.
  intros H. unfold refresh, sig_write. destruct (cells s !! c) as [cell|] eqn:E; [|done].
  case_decide; [done|]. apply retains_notify.
  - intros e He. by apply (proj2 H c cell e).
  - by apply retains_same_listeners.
Qed.

Lemma retains_querySignal s0 name args s :
  retains s0 s → retains s0 (querySignal name args s).2.
Proof.
  intros [H1 H2].
  destruct (signals s !! Backend.serializePathAndArgs name args) as [c|] eqn:E.
  - rewrite (querySignal_known _ _ _ _ E). by split.
  - rewrite (querySignal_fresh _ _ _ E). split.
    + intros tok c H. simpl. rewrite lookup_insert_ne; [by apply H1|].
      intros <-. apply H1 in H. congruence.
    + intros c cell e. simpl. intros [H|[_ H]]%lookup_app_Some; [by apply (H2 c)|].
      apply list_lookup_singleton_Some in H as [_ <-]. simpl.
      intros He. by apply elem_of_nil in He.
Qed.

Lemma retains_subscribe s0 c fn s :
  notQueryListener fn → retains s0 s → retains s0 (subscribe c fn s).2.
Proof.
  intros Hfn H. unfold subscribe.
  pose proof (retains_sig_subscribe s0 c fn
                (upd_cell c (λ cell, cell_setCounter (c_counter cell + 1) cell) s) Hfn)
    as Hs.
  destruct (sig_subscribe c fn _) as [[l s1] threw]. cbn [fst snd] in *.
  apply Hs. by apply retains_same_listeners.
Qed.

Lemma retains_sync s0 c timeout s : retains s0 s → retains s0 (sync c timeout s).2.
Proof.
  intros H. unfold sync, newPromise, setTimeout.
  match goal with |- context [sig_subscribe c ?fn ?st] =>
    pose proof (retains_sig_subscribe s0 c fn st I) as Hs;
    destruct (sig_subscribe c fn st) as [[l s1] threw] end.
  cbn [fst snd] in *. apply Hs. by eapply retains_frame; [| |exact H].
Qed.

Lemma retains_onTransition s0 updatedQueries :
  ∀ s, retains s0 s → retains s0 (onTransition updatedQueries s).
Proof.
  induction updatedQueries as [|tok rest IH]; intros s H; [done|].
  cbn [onTransition]. apply IH. destruct (signals s !! tok); [|done].
  apply retains_refresh. by apply retains_same_listeners.
Qed.

Lemma retains_fireTimer s0 t s : retains s0 s → retains s0 (fireTimer t s).
Proof.
  intros H. unfold fireTimer. destruct (timers s !! t) as [[cb ms| |]|]; try done.
  destruct cb as [c l p|p].
  - apply retains_removeListener. by eapply retains_frame; [| |exact H].
  - by eapply retains_frame; [| |exact H].
Qed.

Lemma retains_computed_sig s0 k s : retains s0 s → retains s0 (computed_sig k s).2.
Proof.
  intros H. unfold computed_sig. destruct (computeds s !! k) as [cp|]; [|done].
  pose proof (retains_querySignal s0 (cp_query cp) (cp_argsFn cp (trigger s)) s H) as Hq.
  destruct (querySignal (cp_query cp) (cp_argsFn cp (trigger s)) s) as [c s1].
  cbn [snd] in Hq.
  assert (∀ f, retains s0 (set_computeds f s1)) as Hf
    by (intros f; by eapply retains_frame; [| |exact Hq]).
  destruct (cp_cache cp) as [[ver c0]|]; [|apply Hf].
  destruct (cp_tracked cp && negb (ver =? triggerVersion s)%nat); [apply Hf|done].
Qed.

Lemma retains_step s0 o s : tearsDown o = false → retains s0 s → retains s0 (step o s).
Proof.
  intros Ho H. destruct o; try discriminate Ho; cbn [step];
    try (by eapply retains_frame; [| |exact H]);
    try (unfold computed_value, computed_isLoaded, computed_refresh, computed_subscribe,
           computed_sync;
         pose proof (retains_computed_sig s0 k s H) as Hk;
         destruct (computed_sig k s) as [[c|] s1]; cbn [fst snd] in *; try done).
  - by apply retains_querySignal.
  - by apply retains_subscribe.
  - by apply retains_refresh.
  - by apply retains_sync.
  - by apply retains_refresh.
  - pose proof (retains_subscribe s0 c (ExternalListener tag) s1 I Hk) as H1.
    by destruct (subscribe c (ExternalListener tag) s1) as [l s2].
  - pose proof (retains_sync s0 c 10000 s1 Hk) as H1.
    by destruct (sync c 10000 s1) as [p s2].
  - unfold writeTrigger. case_decide; [done|]. by eapply retains_frame; [| |exact H].
  - by apply retains_onTransition.
  - by apply retains_fireTimer.
  - unfold authChanged. destruct (Backend.onAuthChange (client s)); [|done].
    by eapply retains_frame; [| |exact H].
Qed.

Lemma retains_run s0 ops :
  Forall (λ o, tearsDown o = false) ops →
  ∀ s, retains s0 s → retains s0 (run ops s).
Proof.
  induction 1 as [|o ops Ho _ IH]; intros s H; [done|].
  cbn [run foldl]. apply IH. by apply retains_step.
Qed.

(** ** The registry deduplicates by token: the claim *)

Lemma noPendingQuery_new_client : noPendingQuery new_client.
Proof. intros c cell e H. simpl in H. by rewrite lookup_nil in H. Qed.

Lemma counted_run ops :
  registry_ok (run ops new_client) ∧ counted (run ops new_client).
Proof.
  split; [apply well_formed_run|].
  apply (synchronized_run ops new_client synchronized_new_client).
Qed.

(** C1, as the code has it. After a call of querySignal the registry
    holds the returned cell under the token. A later call with the same
    name and arguments, whatever was done with the client in between,
    returns the same cell exactly when the registry still holds it,
    that is, when the cell has not been torn down since: the call then
    opens a backend subscription, invokes its unsubscribe capability
    once before returning, and changes neither the registry nor any
    cell nor the number of subscribers the backend holds for any
    token. The registry does still hold the cell after every run
    without destroy, without a call of a capability of subscribe and
    without query(), when no query() was waiting before. At every time
    the registry holds, under a token, only a cell created for that
    token, and the backend holds exactly one subscriber for every token
    of the registry and none for any other token. *)
Theorem querySignal_twice_same_cell
    (name : string) (args : Args) (s : Client) (ops : list Op) :
  let tok := Backend.serializePathAndArgs name args in
  let r1 := querySignal name args s in
  let s2 := run ops r1.2 in
  let r2 := querySignal name args s2 in
  let speculative := length (Backend.subscriptions (client s2)) in
  signals r1.2 !! tok = Some r1.1
  ∧ (signals s2 !! tok = Some r1.1 →
     r2.1 = r1.1
     ∧ signals r2.2 = signals s2
     ∧ cells r2.2 = cells s2
     ∧ Backend.subscriptions (client s2) !! speculative = None
     ∧ Backend.subscriptions (client r2.2) !! speculative
       = Some (Backend.mkSubscription tok 1)
     ∧ length (Backend.subscriptions (client r2.2)) = S speculative
     ∧ (counted s2 →
        Backend.numSubscribers (client r2.2) = Backend.numSubscribers (client s2)))
  ∧ (registry_ok s → signals s2 !! tok ≠ Some r1.1 → r2.1 ≠ r1.1)
  ∧ (noPendingQuery s → Forall (λ o, tearsDown o = false) ops →
     signals s2 !! tok = Some r1.1)
  ∧ (registry_ok s → synchronized s →
     (registry_ok r1.2 ∧ counted r1.2)
     ∧ (registry_ok s2 ∧ counted s2)
     ∧ (registry_ok r2.2 ∧ counted r2.2))
  ∧ (∀ ops', registry_ok (run ops' new_client) ∧ counted (run ops' new_client)).
Proof.
  intros tok r1 s2 r2 speculative.
  pose proof (querySignal_registers name args s) as Hreg. fold tok r1 in Hreg.
  assert (evolves s r1.2) as He1 by apply quiet_querySignal, quiet_refl.
  assert (evolves r1.2 s2) as He2 by apply evolves_run.
  assert (evolves s2 r2.2) as He3 by apply quiet_querySignal, quiet_refl.
  split; [exact Hreg|]. split; [|split; [|split; [|split]]].
  - intros Hkept. subst r2 speculative.
    rewrite (querySignal_known _ _ _ _ Hkept). cbn [fst snd]. split_and!; try done.
    + by apply lookup_ge_None_2.
    + simpl. apply lookup_snoc_new.
    + simpl. rewrite length_app. simpl. lia.
    + intros Hcnt. cbn [client set_client Backend.numSubscribers].
      apply speculative_subscriber. fold tok. rewrite (Hcnt tok), Hkept. discriminate.
  - intros Hr Hgone Heq.
    assert (registry_ok r1.2) as Hr1 by (by eapply registry_ok_evolves).
    destruct (Hr1 _ _ Hreg) as (cell & E & _).
    pose proof (evolves_length _ _ He2) as Hlen. apply lookup_lt_Some in E.
    subst r2. destruct (signals s2 !! tok) as [c|] eqn:Hs2.
    + rewrite (querySignal_known _ _ _ _ Hs2) in Heq. simpl in Heq. congruence.
    + rewrite (querySignal_fresh _ _ _ Hs2) in Heq. simpl in Heq. lia.
  - intros Hnq Hops.
    assert (retains r1.2 r1.2) as Hret.
    { apply retains_refl. exact (proj2 (retains_querySignal s name args s
                                           (retains_refl s Hnq))). }
    exact (proj1 (retains_run r1.2 ops Hops r1.2 Hret) _ _ Hreg).
  - intros Hr Hsy.
    assert (synchronized r1.2) as Hsy1 by (by apply synchronized_querySignal).
    assert (synchronized s2) as Hsy2 by (by apply synchronized_run).
    assert (synchronized r2.2) as Hsy3 by (by apply synchronized_querySignal).
    assert (registry_ok r1.2) as Hr1 by (by eapply registry_ok_evolves).
    assert (registry_ok s2) as Hr2 by (by eapply registry_ok_evolves).
    assert (registry_ok r2.2) as Hr3 by (by eapply registry_ok_evolves).
    split_and!; try done; [apply Hsy1|apply Hsy2|apply Hsy3].
  - apply counted_run.
Qed.

Lemma querySignal_twice_same_cell_witness :
  let tok := ("listMessages", "{}") in
  let ops := [OpSubscribe 0%nat 1%nat; OpLocalResult tok (Some 7); OpTransition [tok];
              OpSync 0%nat 100; OpRefresh 0%nat] in
  let r1 := querySignal "listMessages" "{}" new_client in
  let r2 := querySignal "listMessages" "{}" (run ops r1.2) in
  r2.1 = r1.1
  ∧ Backend.numSubscribers (client r2.2) !! tok = Some 1%nat.
Proof.
  intros tok ops r1 r2.
  destruct (querySignal_twice_same_cell "listMessages" "{}" new_client ops)
    as (_ & H1 & _ & H2 & H3 & _).
  assert (signals (run ops r1.2) !! tok = Some r1.1) as Hkept.
  { apply H2; [exact noPendingQuery_new_client|]. by repeat constructor. }
  destruct (H1 Hkept) as (Hsame & _).
  destruct (H3 (proj1 well_formed_new_client) synchronized_new_client)
    as (_ & _ & _ & Hcnt).
  split; [exact Hsame|]. exact (Hcnt tok).
Defined.

(** C1 as stated fails: two calls of querySignal with the same name and
    arguments do not return the same cell when the cell of the first
    call was torn down between them, by destroy or by the capability
    of its only subscriber; the second call then creates a new cell. *)
Lemma querySignal_after_teardown_new_cell :
  let r1 := querySignal "listMessages" "{}" new_client in
  let destroyed := destroy r1.1 r1.2 in
  let released := unsub r1.1 0%nat (subscribe r1.1 (ExternalListener 1) r1.2).2 in
  r1.1 = 0%nat
  ∧ (querySignal "listMessages" "{}" destroyed).1 = 1%nat
  ∧ (querySignal "listMessages" "{}" released).1 = 1%nat
  ∧ (querySignal "listMessages" "{}" destroyed).1 ≠ r1.1
  ∧ (querySignal "listMessages" "{}" released).1 ≠ r1.1.
Proof. by split_and!. Qed.

(** * Further properties of the client *)

(** ** One transition notification for a registered cell *)

Lemma onTransition_one_new tok c cell s :
  signals s !! tok = Some c → cells s !! c = Some cell →
  Backend.localQueryResult (c_name cell) (c_args cell) (client s) ≠ c_value cell →
  onTransition [tok] s
  = notify c (Backend.localQueryResult (c_name cell) (c_args cell) (client s))
      (c_listeners cell)
      (upd_cell c
         (cell_setValue (Backend.localQueryResult (c_name cell) (c_args cell) (client s)))
         (upd_cell c (cell_setIsLoaded true) s)).
Proof.
  intros Hreg E Hne. simpl. rewrite Hreg.
  assert (cells (upd_cell c (cell_setIsLoaded true) s) !! c
          = Some (cell_setIsLoaded true cell)) as E1.
  { simpl. by rewrite list_lookup_alter_eq, E. }
  unfold refresh. rewrite E1. simpl. unfold sig_write. rewrite E1. simpl.
  by rewrite decide_False by done.
Qed.

Lemma onTransition_one_same tok c cell s :
  signals s !! tok = Some c → cells s !! c = Some cell →
  Backend.localQueryResult (c_name cell) (c_args cell) (client s) = c_value cell →
  onTransition [tok] s = upd_cell c (cell_setIsLoaded true) s.
Proof.
  intros Hreg E Heq. simpl. rewrite Hreg.
  assert (cells (upd_cell c (cell_setIsLoaded true) s) !! c
          = Some (cell_setIsLoaded true cell)) as E1.
  { simpl. by rewrite list_lookup_alter_eq, E. }
  unfold refresh. rewrite E1. simpl. unfold sig_write. rewrite E1. simpl.
  by rewrite decide_True by done.
Qed.

Lemma subscribed_elem c l fn cell s :
  cells s !! c = Some cell → (l, fn) ∈ c_listeners cell → subscribed c l s = true.
Proof.
  intros E Hin. unfold subscribed, listeners. rewrite E.
  apply bool_decide_eq_true. by apply (list_elem_of_fmap_2 fst) in Hin.
Qed.

Lemma listener_ids_ok_Forall cell :
  NoDup (c_listeners cell).*1 →
  Forall (λ l, (l < c_nextListener cell)%nat) (c_listeners cell).*1 →
  listener_ids_ok cell.
Proof. intros H1 H2. split; [done|]. by apply Forall_forall. Qed.

(** The load of a registered cell, seen from a sync that is pending on
    it. *)
Lemma transition_resolves_sync tok c cell l p t cb ms s :
  signals s !! tok = Some c → cells s !! c = Some cell → listener_ids_ok cell →
  (l, SyncListener p t) ∈ c_listeners cell →
  promises s !! p = Some Pending → timers s !! t = Some (Armed cb ms) →
  Backend.localQueryResult (c_name cell) (c_args cell) (client s) ≠ c_value cell →
  let v := Backend.localQueryResult (c_name cell) (c_args cell) (client s) in
  let s' := onTransition [tok] s in
  promises s' !! p = Some (Resolved v) ∧ timers s' !! t = Some Cleared
  ∧ subscribed c l s' = false ∧ isLoaded c s' = true ∧ value c s' = v
  ∧ notified c v (upd_cell c (cell_setValue v) (upd_cell c (cell_setIsLoaded true) s)) s'.
Proof.
  intros Hreg E Hok Hin Hp Ht Hne v s'. subst s'.
  rewrite (onTransition_one_new _ _ _ _ Hreg E Hne). fold v.
  set (s1 := upd_cell c (cell_setValue v) (upd_cell c (cell_setIsLoaded true) s)).
  assert (cells s1 !! c = Some (cell_setValue v (cell_setIsLoaded true cell))) as E1.
  { subst s1. simpl. by rewrite !list_lookup_alter_eq, E. }
  assert (isLoaded c s1 = true) as Hl1 by (unfold isLoaded; by rewrite E1).
  pose proof (notified_notify c v (c_listeners cell) s1) as Hn.
  destruct (sync_listener_fires c v l p t cb ms (c_listeners cell) s1) as (H1 & H2 & H3);
    [apply Hok|done|by eapply subscribed_elem|done|done|done|].
  split_and!; [done..| | |done].
  - by rewrite (nt_isLoaded _ _ _ _ Hn).
  - rewrite (nt_value _ _ _ _ Hn). unfold value. by rewrite E1.
Qed.

(** X1. A sync that is pending on a registered cell, in whatever state
    the client is by then, is settled by the next transition
    notification for the cell's token that brings a new value: the
    promise is resolved with that value, the listener is removed and
    the timer is cleared, so its firing afterwards changes nothing. *)
Theorem pending_sync_resolves_on_load
    (tok : QueryToken) (c : CellId) (cell : Cell) (l : ListenerId)
    (p : PromiseId) (t : TimerId) (ms : Z) (s : Client) :
  signals s !! tok = Some c →
  cells s !! c = Some cell →
  listener_ids_ok cell →
  (l, SyncListener p t) ∈ c_listeners cell →
  promises s !! p = Some Pending →
  timers s !! t = Some (Armed (SyncTimeout c l p) ms) →
  Backend.localQueryResult (c_name cell) (c_args cell) (client s) ≠ c_value cell →
  let v := Backend.localQueryResult (c_name cell) (c_args cell) (client s) in
  let s' := onTransition [tok] s in
  promises s' !! p = Some (Resolved v)
  ∧ timers s' !! t = Some Cleared
  ∧ subscribed c l s' = false
  ∧ isLoaded c s' = true
  ∧ value c s' = v
  ∧ fireTimer t s' = s'.
Proof.
  intros Hreg E Hok Hin Hp Ht Hne v s'.
  destruct (transition_resolves_sync _ _ _ _ _ _ _ _ _ Hreg E Hok Hin Hp Ht Hne)
    as (H1 & H2 & H3 & H4 & H5 & _).
  fold v s' in H1, H2, H3, H4, H5.
  split_and!; [done..|]. unfold fireTimer. by rewrite H2.
Qed.

Lemma pending_sync_resolves_on_load_witness :
  let tok := ("listMessages", "{}") in
  let s := run [OpQuerySignal "listMessages" "{}"; OpSubscribe 0%nat 1%nat;
                OpSync 0%nat 10000; OpRefresh 0%nat;
                OpLocalResult tok (Some 7)] new_client in
  promises (onTransition [tok] s) !! 0%nat = Some (Resolved (Some 7))
  ∧ timers (onTransition [tok] s) !! 0%nat = Some Cleared.
Proof.
  intros tok s.
  destruct (pending_sync_resolves_on_load tok 0%nat
              (mkCell "listMessages" "{}" tok 0%nat false None
                 [(0%nat, ExternalListener 1); (1%nat, SyncListener 0 0)] 2%nat 1)
              1%nat 0%nat 0%nat 10000 s)
    as (H1 & H2 & _);
    [reflexivity|reflexivity|apply listener_ids_ok_Forall; compute_done
    |by apply (list_elem_of_lookup_2 _ 1%nat)|reflexivity|reflexivity|discriminate|].
  split; [exact H1|exact H2].
Defined.

(** ** Syncs that are pending *)

Lemma cells_sync_setup c cell timeout s :
  cells s !! c = Some cell →
  cells (sync_setup c cell timeout s) !! c
  = Some (cell_addListener (SyncListener (length (promises s)) (length (timers s))) cell).
Proof. intros E. unfold sync_setup. simpl. by rewrite list_lookup_alter_eq, E. Qed.

Lemma refresh_new c cell s :
  cells s !! c = Some cell →
  Backend.localQueryResult (c_name cell) (c_args cell) (client s) ≠ c_value cell →
  refresh c s
  = notify c (Backend.localQueryResult (c_name cell) (c_args cell) (client s))
      (c_listeners cell)
      (upd_cell c
         (cell_setValue (Backend.localQueryResult (c_name cell) (c_args cell) (client s))) s).
Proof.
  intros E Hne. unfold refresh, sig_write. rewrite E.
  by rewrite decide_False by done.
Qed.

Lemma refresh_same c cell s :
  cells s !! c = Some cell →
  Backend.localQueryResult (c_name cell) (c_args cell) (client s) = c_value cell →
  refresh c s = s.
Proof.
  intros E Heq. unfold refresh, sig_write. rewrite E.
  by rewrite decide_True by done.
Qed.

Lemma sync_timeout_fires c l p t ms s :
  promises s !! p = Some Pending →
  timers s !! t = Some (Armed (SyncTimeout c l p) ms) →
  let s' := fireTimer t s in
  promises s' !! p = Some (Rejected QueryTimedOut)
  ∧ timers s' !! t = Some Fired
  ∧ (∀ p', p' ≠ p → promises s' !! p' = promises s !! p')
  ∧ (∀ t', t' ≠ t → timers s' !! t' = timers s !! t')
  ∧ (client s' = client s ∧ signals s' = signals s).
Proof.
  intros Hp Ht s'. subst s'. unfold fireTimer. rewrite Ht. split_and!.
  - simpl. by rewrite list_lookup_alter_eq, Hp.
  - simpl. apply list_lookup_insert_eq. by eapply lookup_lt_Some.
  - intros p' Hne. simpl. by rewrite list_lookup_alter_ne.
  - intros t' Hne. simpl. by rewrite list_lookup_insert_ne.
  - done.
  - done.
Qed.

(** X2. The timeout of a pending sync, in whatever state the client is
    by then, rejects the promise of that sync and removes its listener,
    and nothing else: every other promise, timer and listener, the
    counter, the value, the registry and the backend stay as they are
    (a sync is not counted as a subscriber, so its timeout never tears
    the cell down), and the timer does not fire twice. *)
Theorem sync_timeout_only_its_own
    (c : CellId) (l : ListenerId) (p : PromiseId) (t : TimerId) (ms : Z) (s : Client) :
  promises s !! p = Some Pending →
  timers s !! t = Some (Armed (SyncTimeout c l p) ms) →
  let s' := fireTimer t s in
  promises s' !! p = Some (Rejected QueryTimedOut)
  ∧ timers s' !! t = Some Fired
  ∧ subscribed c l s' = false
  ∧ (∀ l', l' ≠ l → subscribed c l' s' = subscribed c l' s)
  ∧ (∀ p', p' ≠ p → promises s' !! p' = promises s !! p')
  ∧ (∀ t', t' ≠ t → timers s' !! t' = timers s !! t')
  ∧ (∀ c', c' ≠ c → cells s' !! c' = cells s !! c')
  ∧ counter c s' = counter c s
  ∧ value c s' = value c s
  ∧ isLoaded c s' = isLoaded c s
  ∧ signals s' = signals s
  ∧ client s' = client s
  ∧ fireTimer t s' = s'.
Proof.
  intros Hp Ht s'.
  assert (s' = sig_unsubscribe c l (reject p QueryTimedOut (set_timers <[t:=Fired]> s)))
    as -> by (subst s'; unfold fireTimer; by rewrite Ht).
  assert (timers (sig_unsubscribe c l (reject p QueryTimedOut (set_timers <[t:=Fired]> s)))
          !! t = Some Fired) as Ht'.
  { simpl. apply list_lookup_insert_eq. by eapply lookup_lt_Some. }
  split_and!.
  - simpl. by rewrite list_lookup_alter_eq, Hp.
  - exact Ht'.
  - rewrite subscribed_removeListener. by rewrite bool_decide_eq_false_2 by auto.
  - intros l' Hne. rewrite subscribed_removeListener.
    rewrite bool_decide_eq_true_2 by done. simpl. by apply subscribed_same.
  - intros p' Hne. simpl. by rewrite list_lookup_alter_ne.
  - intros t' Hne. simpl. by rewrite list_lookup_insert_ne.
  - intros c' Hne. simpl. by rewrite list_lookup_alter_ne.
  - unfold counter, sig_unsubscribe. by rewrite (field_upd_cell c_counter 0) by done.
  - unfold value, sig_unsubscribe. by rewrite (field_upd_cell c_value None) by done.
  - unfold isLoaded, sig_unsubscribe. by rewrite (field_upd_cell c_IsLoaded false) by done.
  - done.
  - done.
  - unfold fireTimer. by rewrite Ht'.
Qed.

Lemma sync_timeout_only_its_own_witness :
  let s := (sync 0%nat 10000 (querySignal "listMessages" "{}" new_client).2).2 in
  promises (fireTimer 0%nat s) !! 0%nat = Some (Rejected QueryTimedOut)
  ∧ signals (fireTimer 0%nat s) = signals s.
Proof.
  intros s.
  destruct (sync_timeout_only_its_own 0%nat 0%nat 0%nat 0%nat 10000 s)
    as (H1 & _ & _ & _ & _ & _ & _ & _ & _ & _ & H2 & _);
    [reflexivity|reflexivity|].
  split; [exact H1|exact H2].
Defined.

(** X3. Two syncs started one after the other on a registered cell that
    is not loaded are independent and are served by one notification:
    the load resolves both promises with the loaded value, clears both
    timers and removes both listeners; when the timer of the first has
    fired before, the first stays rejected and the second is still
    resolved by the load. *)
Theorem concurrent_syncs
    (tok : QueryToken) (c : CellId) (cell : Cell) (timeout1 timeout2 : Z) (s : Client) :
  signals s !! tok = Some c →
  cells s !! c = Some cell →
  c_IsLoaded cell = false →
  listener_ids_ok cell →
  Backend.localQueryResult (c_name cell) (c_args cell) (client s) ≠ c_value cell →
  let v := Backend.localQueryResult (c_name cell) (c_args cell) (client s) in
  let r1 := sync c timeout1 s in
  let r2 := sync c timeout2 r1.2 in
  let t1 := length (timers s) in
  let t2 := S (length (timers s)) in
  r1.1 ≠ r2.1
  ∧ promises r2.2 !! r1.1 = Some Pending
  ∧ promises r2.2 !! r2.1 = Some Pending
  ∧ (let s' := onTransition [tok] r2.2 in
     promises s' !! r1.1 = Some (Resolved v)
     ∧ promises s' !! r2.1 = Some (Resolved v)
     ∧ timers s' !! t1 = Some Cleared
     ∧ timers s' !! t2 = Some Cleared
     ∧ subscribed c (c_nextListener cell) s' = false
     ∧ subscribed c (S (c_nextListener cell)) s' = false)
  ∧ (let s' := onTransition [tok] (fireTimer t1 r2.2) in
     promises s' !! r1.1 = Some (Rejected QueryTimedOut)
     ∧ promises s' !! r2.1 = Some (Resolved v)
     ∧ timers s' !! t1 = Some Fired
     ∧ timers s' !! t2 = Some Cleared).
Proof.
  intros Hreg E Hl Hok Hne v r1 r2 t1 t2.
  set (P := length (promises s)).
  set (cell1 := cell_addListener (SyncListener P t1) cell).
  set (cell2 := cell_addListener (SyncListener (S P) t2) cell1).
  assert (r1 = (P, sync_setup c cell timeout1 s)) as Hr1
    by (subst r1; by rewrite (sync_unloaded _ _ _ _ E Hl)).
  assert (cells r1.2 !! c = Some cell1) as E1
    by (rewrite Hr1; by apply cells_sync_setup).
  assert (length (promises r1.2) = S P) as HP1
    by (rewrite Hr1; simpl; rewrite length_app; simpl; subst P; lia).
  assert (length (timers r1.2) = t2) as HT1
    by (rewrite Hr1; simpl; rewrite length_app; simpl; subst t2; lia).
  assert (r2 = (S P, sync_setup c cell1 timeout2 r1.2)) as Hr2.
  { subst r2. rewrite (sync_unloaded _ cell1 _ _ E1 Hl). by rewrite HP1. }
  assert (cells r2.2 !! c = Some cell2) as E2.
  { rewrite Hr2. cbn [snd]. rewrite (cells_sync_setup _ _ _ _ E1).
    by rewrite HP1, HT1. }
  assert (promises r2.2 = promises s ++ [Pending; Pending]) as HP2.
  { rewrite Hr2, Hr1. simpl. by rewrite <- app_assoc. }
  assert (timers r2.2 = timers s ++ [Armed (SyncTimeout c (c_nextListener cell) P) timeout1;
                                     Armed (SyncTimeout c (S (c_nextListener cell)) (S P))
                                           timeout2]) as HT2.
  { rewrite Hr2. cbn [snd]. unfold sync_setup at 1. simpl. rewrite HP1.
    rewrite Hr1. simpl. by rewrite <- app_assoc. }
  assert (client r2.2 = client s) as Hc2 by (by rewrite Hr2, Hr1).
  assert (signals r2.2 = signals s) as Hs2 by (by rewrite Hr2, Hr1).
  assert (listener_ids_ok cell2) as Hok2.
  { apply keeps_addListener. by apply keeps_addListener. }
  assert (promises r2.2 !! P = Some Pending) as Hp1.
  { rewrite HP2. by rewrite lookup_app_r, Nat.sub_diag by (subst P; lia). }
  assert (promises r2.2 !! S P = Some Pending) as Hp2.
  { rewrite HP2. rewrite lookup_app_r by (subst P; lia).
    by replace (S P - length (promises s))%nat with 1%nat by (subst P; lia). }
  assert (timers r2.2 !! t1 = Some (Armed (SyncTimeout c (c_nextListener cell) P) timeout1))
    as Ht1.
  { rewrite HT2. by rewrite lookup_app_r, Nat.sub_diag by (subst t1; lia). }
  assert (timers r2.2 !! t2
          = Some (Armed (SyncTimeout c (S (c_nextListener cell)) (S P)) timeout2)) as Ht2.
  { rewrite HT2. rewrite lookup_app_r by (subst t2; lia).
    by replace (t2 - length (timers s))%nat with 1%nat by (subst t2; lia). }
  assert ((c_nextListener cell, SyncListener P t1) ∈ c_listeners cell2) as Hin1.
  { simpl. rewrite !elem_of_app. left. right. by apply list_elem_of_singleton. }
  assert ((S (c_nextListener cell), SyncListener (S P) t2) ∈ c_listeners cell2) as Hin2.
  { simpl. rewrite !elem_of_app. right. by apply list_elem_of_singleton. }
  assert (Backend.localQueryResult (c_name cell2) (c_args cell2) (client r2.2) = v) as Hv
    by (by rewrite Hc2).
  assert (c_value cell2 = c_value cell) as Hval by done.
  assert (r1.1 = P) as Hf1 by (by rewrite Hr1).
  assert (r2.1 = S P) as Hf2 by (by rewrite Hr2).
  clearbody r2. clearbody r1. rewrite !Hf1, !Hf2.
  split; [lia|]. split; [done|]. split; [done|]. split.
  - cbv zeta.
    destruct (transition_resolves_sync tok c cell2 _ _ _ _ _ r2.2
                ltac:(by rewrite Hs2) E2 Hok2 Hin1 Hp1 Ht1 ltac:(by rewrite Hv, Hval))
      as (A1 & A2 & A3 & _).
    destruct (transition_resolves_sync tok c cell2 _ _ _ _ _ r2.2
                ltac:(by rewrite Hs2) E2 Hok2 Hin2 Hp2 Ht2 ltac:(by rewrite Hv, Hval))
      as (B1 & B2 & B3 & _).
    rewrite Hv in A1, B1. by split_and!.
  - cbv zeta.
    destruct (sync_timeout_fires c (c_nextListener cell) P t1 timeout1 r2.2 Hp1 Ht1)
      as (F1 & F2 & F3 & F4 & F5).
    set (s3 := fireTimer t1 r2.2) in *.
    assert (cells s3 !! c = Some (cell_removeListener (c_nextListener cell) cell2)) as E3.
    { subst s3. unfold fireTimer. rewrite Ht1. simpl.
      by rewrite list_lookup_alter_eq, E2. }
    destruct (transition_resolves_sync tok c _ (S (c_nextListener cell)) (S P) t2
                (SyncTimeout c (S (c_nextListener cell)) (S P)) timeout2 s3
                ltac:(by rewrite (proj2 F5), Hs2) E3) as (B1 & B2 & B3 & _ & _ & Hn).
    + by apply keeps_removeListener.
    + simpl. apply list_elem_of_filter. split; [simpl; lia|exact Hin2].
    + rewrite F3 by lia. exact Hp2.
    + rewrite F4 by (subst t1 t2; lia). exact Ht2.
    + simpl. rewrite (proj1 F5). by rewrite Hc2.
    + simpl in B1. rewrite (proj1 F5), Hc2 in B1. fold v in B1.
      split_and!; [|done|..|done].
      * eapply settled_by_rejected; [apply (nt_promises _ _ _ _ Hn)|]. exact F1.
      * eapply cleared_by_fired; [apply (nt_timers _ _ _ _ Hn)|]. exact F2.
Qed.

Lemma concurrent_syncs_witness :
  let tok := ("listMessages", "{}") in
  let s := run [OpQuerySignal "listMessages" "{}"; OpLocalResult tok (Some 7)] new_client in
  let s2 := (sync 0%nat 500 (sync 0%nat 10000 s).2).2 in
  promises (onTransition [tok] s2) !! 0%nat = Some (Resolved (Some 7))
  ∧ promises (onTransition [tok] s2) !! 1%nat = Some (Resolved (Some 7)).
Proof.
  intros tok s s2.
  destruct (concurrent_syncs tok 0%nat (newCell "listMessages" "{}" tok 0%nat) 10000 500 s)
    as (_ & _ & _ & (H1 & H2 & _) & _);
    [reflexivity|reflexivity|reflexivity|apply listener_ids_ok_newCell|discriminate|].
  split; [exact H1|exact H2].
Defined.

(** X4. A sync on a cell that is already loaded resolves at once but
    leaves its listener subscribed (its capability is not yet assigned
    when the listener first runs); the sync is not counted as a
    subscriber. The listener goes away only with the next refresh that
    changes the value, and the promise keeps the value it was resolved
    with. *)
Theorem sync_loaded_leaves_listener
    (c : CellId) (cell : Cell) (timeout : Z) (s : Client) :
  cells s !! c = Some cell →
  c_IsLoaded cell = true →
  listener_ids_ok cell →
  let r := sync c timeout s in
  let l := c_nextListener cell in
  let v := Backend.localQueryResult (c_name cell) (c_args cell) (client s) in
  subscribed c l s = false
  ∧ subscribed c l r.2 = true
  ∧ counter c r.2 = counter c s
  ∧ promises r.2 !! r.1 = Some (Resolved (c_value cell))
  ∧ (v = c_value cell → refresh c r.2 = r.2)
  ∧ (v ≠ c_value cell →
     subscribed c l (refresh c r.2) = false
     ∧ promises (refresh c r.2) !! r.1 = Some (Resolved (c_value cell))
     ∧ value c (refresh c r.2) = v).
Proof.
  intros E Hl Hok r l v. subst r. rewrite (sync_loaded _ _ _ _ E Hl). cbn [fst snd].
  set (P := length (promises s)). set (T := length (timers s)).
  set (s1 := clearTimeout T (resolve P (c_value cell) (sync_setup c cell timeout s))).
  set (cell1 := cell_addListener (SyncListener P T) cell).
  assert (cells s1 !! c = Some cell1) as E1.
  { subst s1. simpl. by rewrite list_lookup_alter_eq, E. }
  assert (promises s1 !! P = Some (Resolved (c_value cell))) as Hp.
  { subst s1 P. simpl. by rewrite list_lookup_alter_eq, lookup_snoc_new. }
  assert (subscribed c l s1 = true) as Hsub.
  { eapply subscribed_elem; [exact E1|]. simpl. apply elem_of_app. right.
    by apply list_elem_of_singleton. }
  assert (client s1 = client s) as Hc by done.
  split_and!.
  - unfold subscribed, listeners. rewrite E. apply bool_decide_eq_false.
    intros Hin. apply Hok in Hin. subst l. lia.
  - exact Hsub.
  - unfold counter. by rewrite E1, E.
  - exact Hp.
  - intros Hv. apply (refresh_same c cell1); [done|]. by rewrite Hc.
  - intros Hv. rewrite (refresh_new c cell1 s1 E1) by (by rewrite Hc).
    rewrite Hc. change (Backend.localQueryResult (c_name cell1) (c_args cell1) (client s))
      with v.
    set (s2 := upd_cell c (cell_setValue v) s1).
    assert (subscribed c l s2 = true) as Hsub2.
    { subst s2. unfold subscribed, listeners.
      rewrite (field_upd_cell c_listeners []) by done. exact Hsub. }
    assert (listener_ids_ok cell1) as Hok1 by (by apply keeps_addListener).
    destruct (notify_runs c v l (SyncListener P T) (c_listeners cell1) s2)
      as (s3 & Hn1 & Hs3 & Hn2); [apply Hok1| |done|].
    { simpl. apply elem_of_app. right. by apply list_elem_of_singleton. }
    pose proof (notified_notify c v (c_listeners cell1) s2) as Hn.
    assert (isLoaded c s3 = true) as Hl3.
    { rewrite (nt_isLoaded _ _ _ _ Hn1). subst s2. unfold isLoaded. simpl.
      by rewrite !list_lookup_alter_eq, E. }
    split_and!.
    + eapply notified_unsubscribed; [exact Hn2|].
      unfold run_listener.
      replace (isLoaded c (record_call c l v s3)) with true by (symmetry; exact Hl3).
      cbn [fst]. unfold clearTimeout.
      erewrite (subscribed_same c l (sig_unsubscribe c l _)); [|reflexivity].
      rewrite subscribed_removeListener. by rewrite bool_decide_eq_false_2 by auto.
    + eapply settled_by_resolved; [apply (nt_promises _ _ _ _ Hn)|]. exact Hp.
    + rewrite (nt_value _ _ _ _ Hn). subst s2.
      unfold value, upd_cell, set_cells. cbn [cells].
      by rewrite list_lookup_alter_eq, E1.
Qed.

Lemma sync_loaded_leaves_listener_witness :
  let tok := ("listMessages", "{}") in
  let s := run [OpQuerySignal "listMessages" "{}"; OpLocalResult tok (Some 7);
                OpTransition [tok]; OpLocalResult tok (Some 8)] new_client in
  let r := sync 0%nat 10000 s in
  subscribed 0%nat 0%nat r.2 = true
  ∧ promises (refresh 0%nat r.2) !! r.1 = Some (Resolved (Some 7)).
Proof.
  intros tok s r.
  destruct (sync_loaded_leaves_listener 0%nat
              (mkCell "listMessages" "{}" tok 0%nat true (Some 7) [] 0%nat 0) 10000 s)
    as (_ & H1 & _ & _ & _ & H2);
    [reflexivity|reflexivity|apply listener_ids_ok_Forall; compute_done|].
  split; [exact H1|].
  destruct H2 as (_ & H2 & _); [discriminate|exact H2].
Defined.

(** ** One-shot queries *)

(** X5. A query() that is pending on a registered cell, in whatever
    state the client is by then, is settled by the next transition
    notification for the cell's token that brings a new value: the
    promise is resolved with that value, the timer is cleared (so its
    firing afterwards changes nothing), the listener is removed and the
    counter goes down by at least the one query() had added. *)
Theorem pending_query_resolves_on_load
    (tok : QueryToken) (c : CellId) (cell : Cell) (l : ListenerId)
    (p : PromiseId) (t : TimerId) (ms : Z) (s : Client) :
  signals s !! tok = Some c →
  cells s !! c = Some cell →
  listener_ids_ok cell →
  (l, QueryListener p t) ∈ c_listeners cell →
  promises s !! p = Some Pending →
  timers s !! t = Some (Armed (QueryTimeout p) ms) →
  Backend.localQueryResult (c_name cell) (c_args cell) (client s) ≠ c_value cell →
  let v := Backend.localQueryResult (c_name cell) (c_args cell) (client s) in
  let s' := onTransition [tok] s in
  promises s' !! p = Some (Resolved v)
  ∧ timers s' !! t = Some Cleared
  ∧ subscribed c l s' = false
  ∧ counter c s' ≤ c_counter cell - 1
  ∧ isLoaded c s' = true
  ∧ value c s' = v
  ∧ fireTimer t s' = s'.
Proof.
  intros Hreg E Hok Hin Hp Ht Hne v s'. subst s'.
  rewrite (onTransition_one_new _ _ _ _ Hreg E Hne). fold v.
  set (s1 := upd_cell c (cell_setValue v) (upd_cell c (cell_setIsLoaded true) s)).
  assert (cells s1 !! c = Some (cell_setValue v (cell_setIsLoaded true cell))) as E1.
  { subst s1. simpl. by rewrite !list_lookup_alter_eq, E. }
  assert (isLoaded c s1 = true) as Hl1 by (unfold isLoaded; by rewrite E1).
  assert (counter c s1 = c_counter cell) as Hc1 by (unfold counter; by rewrite E1).
  pose proof (notified_notify c v (c_listeners cell) s1) as Hn.
  destruct (query_listener_fires c v l p t (c_listeners cell) s1)
    as (H1 & H2 & _ & H3 & _ & H4);
    [apply Hok|done|by eapply subscribed_elem|done|].
  assert (timers (notify c v (c_listeners cell) s1) !! t = Some Cleared) as Ht'
    by (by eapply H4).
  split_and!.
  - by apply H3.
  - exact Ht'.
  - exact H1.
  - lia.
  - by rewrite (nt_isLoaded _ _ _ _ Hn).
  - rewrite (nt_value _ _ _ _ Hn). unfold value. by rewrite E1.
  - unfold fireTimer. by rewrite Ht'.
Qed.

Lemma pending_query_resolves_on_load_witness :
  let tok := ("listMessages", "{}") in
  let s := run [OpQuerySignal "listMessages" "{}"; OpSubscribe 0%nat 1%nat;
                OpQuery "listMessages" "{}" 10000;
                OpLocalResult tok (Some 7)] new_client in
  promises (onTransition [tok] s) !! 0%nat = Some (Resolved (Some 7))
  ∧ subscribed 0%nat 1%nat (onTransition [tok] s) = false.
Proof.
  intros tok s.
  destruct (pending_query_resolves_on_load tok 0%nat
              (mkCell "listMessages" "{}" tok 0%nat false None
                 [(0%nat, ExternalListener 1); (1%nat, QueryListener 0 0)] 2%nat 2)
              1%nat 0%nat 0%nat 10000 s)
    as (H1 & _ & H2 & _);
    [reflexivity|reflexivity|apply listener_ids_ok_Forall; compute_done
    |by apply (list_elem_of_lookup_2 _ 1%nat)|reflexivity|reflexivity|discriminate|].
  split; [exact H1|exact H2].
Defined.

Lemma query_fresh_setup name args timeout s :
  let tok := Backend.serializePathAndArgs name args in
  signals s !! tok = None →
  let r := query name args timeout s in
  let c := length (cells s) in
  let sid := length (Backend.subscriptions (client s)) in
  let t := length (timers s) in
  let P := length (promises s) in
  r.1 = P
  ∧ cells r.2 !! c
    = Some (cell_addListener (QueryListener P t)
              (cell_setCounter 1 (newCell name args tok sid)))
  ∧ promises r.2 !! P = Some Pending
  ∧ timers r.2 !! t = Some (Armed (QueryTimeout P) timeout)
  ∧ signals r.2 !! tok = Some c
  ∧ Backend.subscriptions (client r.2)
    = Backend.subscriptions (client s) ++ [Backend.mkSubscription tok 0].
Proof.
  intros tok Hfresh r c sid t P.
  pose proof (querySignal_fresh name args s Hfresh) as Hq. fold tok c sid in Hq.
  assert (r = (P, query_setup (querySignal name args s).1 (newCell name args tok sid)
                   timeout (querySignal name args s).2)) as ->.
  { pose proof (query_unloaded name args timeout s (newCell name args tok sid)) as H.
    cbv zeta in H. apply H; [|done]. rewrite Hq. simpl. apply lookup_snoc_new. }
  rewrite Hq. cbn [fst snd]. unfold query_setup. split_and!.
  - done.
  - simpl. rewrite !list_lookup_alter_eq. subst c. by rewrite lookup_snoc_new.
  - simpl. apply lookup_snoc_new.
  - simpl. apply lookup_snoc_new.
  - simpl. apply lookup_insert_eq.
  - done.
Qed.

(** X6. A query() for a token the registry does not hold cleans up
    after itself: it creates the cell and is its only subscriber, and
    when the backend then delivers the first result the promise is
    resolved with it, the timer is cleared, the listener is removed,
    the counter is back at zero, the token has left the registry and
    the backend unsubscribe capability of the cell has been invoked
    once. *)
Theorem query_fresh_releases_everything
    (name : string) (args : Args) (timeout : Z) (z : Z) (s : Client) :
  let tok := Backend.serializePathAndArgs name args in
  signals s !! tok = None →
  let r := query name args timeout s in
  let c := length (cells s) in
  let sid := length (Backend.subscriptions (client s)) in
  let t := length (timers s) in
  let s' := onTransition [tok] (set_client (Backend.setLocalResult tok (Some z)) r.2) in
  (signals r.2 !! tok = Some c
   ∧ promises r.2 !! r.1 = Some Pending
   ∧ counter c r.2 = 1
   ∧ Backend.unsubscribeCalls sid (client r.2) = Some 0%nat)
  ∧ promises s' !! r.1 = Some (Resolved (Some z))
  ∧ timers s' !! t = Some Cleared
  ∧ listeners c s' = []
  ∧ counter c s' = 0
  ∧ signals s' !! tok = None
  ∧ Backend.unsubscribeCalls sid (client s') = Some 1%nat
  ∧ fireTimer t s' = s'.
Proof.
  intros tok Hfresh r c sid t s'.
  pose proof (query_fresh_setup name args timeout s Hfresh) as H. cbv zeta in H.
  fold tok c sid t in H. subst s' r.
  destruct (query name args timeout s) as [P' s2]. cbn [fst snd] in *.
  set (P := length (promises s)) in *.
  set (cell := newCell name args tok sid) in *.
  set (fn := QueryListener P t) in *.
  set (cell2 := cell_addListener fn (cell_setCounter 1 cell)) in *.
  destruct H as (-> & E2 & Hp & Ht & Hs2 & Hb2).
  split.
  { split_and!; [done|done| |].
    - unfold counter. by rewrite E2.
    - unfold Backend.unsubscribeCalls. rewrite Hb2. subst sid. by rewrite lookup_snoc_new. }
  set (s3 := set_client (Backend.setLocalResult tok (Some z)) s2).
  assert (cells s3 = cells s2 ∧ promises s3 = promises s2 ∧ timers s3 = timers s2
          ∧ signals s3 = signals s2
          ∧ Backend.subscriptions (client s3) = Backend.subscriptions (client s2)
          ∧ Backend.localQueryResult name args (client s3) = Some z)
    as (Hc3 & Hp3 & Ht3 & Hs3 & Hb3 & Hv).
  { split_and!; [reflexivity..|].
    unfold Backend.localQueryResult, Backend.setLocalResult, set_client.
    cbn [client Backend.localResults]. apply lookup_insert_eq. }
  clearbody s3.
  rewrite <- Hc3 in E2. rewrite <- Hp3 in Hp. rewrite <- Ht3 in Ht.
  rewrite <- Hs3 in Hs2. rewrite <- Hb3 in Hb2.
  clear Hc3 Hp3 Ht3 Hs3 Hb3 s2.
  assert (Backend.localQueryResult (c_name cell2) (c_args cell2) (client s3) ≠ c_value cell2)
    as Hne by (cbn [c_name c_args c_value cell2 cell_addListener cell_setCounter cell newCell];
               by rewrite Hv).
  rewrite (onTransition_one_new tok c cell2 s3 Hs2 E2 Hne).
  replace (Backend.localQueryResult (c_name cell2) (c_args cell2) (client s3))
    with (Some z) by (symmetry; exact Hv).
  set (s4 := upd_cell c (cell_setValue (Some z)) (upd_cell c (cell_setIsLoaded true) s3)).
  set (cell4 := cell_setValue (Some z) (cell_setIsLoaded true cell2)).
  assert (cells s4 !! c = Some cell4) as E4.
  { subst s4. unfold upd_cell, set_cells. cbn [cells].
    by rewrite !list_lookup_alter_eq, E2. }
  assert (promises s4 = promises s3 ∧ timers s4 = timers s3 ∧ signals s4 = signals s3
          ∧ client s4 = client s3) as (Hp4 & Ht4 & Hs4 & Hb4) by done.
  clearbody s4. rewrite <- Hp4 in Hp. rewrite <- Ht4 in Ht. rewrite <- Hb4 in Hb2.
  clear Hp4 Ht4 Hb4 E2 Hne Hv.
  set (s5 := resolve P (Some z) (clearTimeout t (record_call c 0%nat (Some z) s4))).
  assert (notify c (Some z) (c_listeners cell2) s4 = unsub c 0%nat s5) as ->.
  { change (c_listeners cell2) with [(0%nat, fn)]. cbn [notify].
    replace (subscribed c 0%nat s4) with true.
    2:{ symmetry. eapply subscribed_elem; [exact E4|]. by apply list_elem_of_singleton. }
    unfold run_listener, fn.
    replace (isLoaded c (record_call c 0%nat (Some z) s4)) with true
      by (unfold isLoaded; cbn [record_call cells]; by rewrite E4).
    done. }
  assert (cells s5 = cells s4 ∧ signals s5 = signals s4 ∧ client s5 = client s4)
    as (Hc5 & Hs5 & Hb5) by done.
  assert (promises s5 !! P = Some (Resolved (Some z))) as Hp5.
  { subst s5. unfold resolve, set_promises. cbn [promises].
    rewrite list_lookup_alter_eq. cbn [clearTimeout set_timers record_call promises].
    by rewrite Hp. }
  assert (timers s5 !! t = Some Cleared) as Ht5.
  { subst s5. unfold resolve, clearTimeout, set_promises, set_timers. cbn [timers].
    rewrite list_lookup_alter_eq. cbn [record_call timers]. by rewrite Ht. }
  clearbody s5. rewrite <- Hc5 in E4. rewrite <- Hb5 in Hb2.
  unfold unsub. rewrite E4.
  change (c_counter cell4 - 1) with (1 - 1).
  change (c_queryToken cell4) with tok. change (c_unsubscribe cell4) with sid.
  rewrite decide_True by lia.
  set (s6 := upd_cell c (cell_setCounter (1 - 1)) (sig_unsubscribe c 0%nat s5)).
  assert (cells s6 !! c = Some (cell_setCounter (1 - 1) (cell_removeListener 0%nat cell4)))
    as E6.
  { subst s6. unfold sig_unsubscribe, upd_cell, set_cells. cbn [cells].
    by rewrite !list_lookup_alter_eq, E4. }
  assert (promises s6 = promises s5 ∧ timers s6 = timers s5 ∧ client s6 = client s5)
    as (Hp6 & Ht6 & Hb6) by done.
  clearbody s6.
  assert (timers (set_signals (delete tok) (set_client (Backend.unsubscribe sid) s6)) !! t
          = Some Cleared) as Htf by (cbn [timers set_signals set_client]; by rewrite Ht6).
  split_and!.
  - cbn [promises set_signals set_client]. by rewrite Hp6.
  - exact Htf.
  - unfold listeners. cbn [cells set_signals set_client]. rewrite E6.
    cbn [c_listeners cell_setCounter cell_removeListener cell4 cell_setValue
         cell_setIsLoaded cell2 cell_addListener cell newCell app].
    rewrite filter_cons. by rewrite decide_False by (simpl; intros H; by apply H).
  - unfold counter. cbn [cells set_signals set_client]. rewrite E6.
    cbn [c_counter cell_setCounter]. lia.
  - cbn [signals set_signals]. apply lookup_delete_eq.
  - unfold Backend.unsubscribeCalls.
    cbn [client set_signals set_client Backend.unsubscribe Backend.subscriptions].
    rewrite Hb6, Hb2. subst sid. by rewrite alter_snoc, lookup_snoc_new.
  - unfold fireTimer. by rewrite Htf.
Qed.

Lemma query_fresh_releases_everything_witness :
  let tok := ("listMessages", "{}") in
  let r := query "listMessages" "{}" 10000 new_client in
  let s' := onTransition [tok] (set_client (Backend.setLocalResult tok (Some 7)) r.2) in
  promises s' !! r.1 = Some (Resolved (Some 7))
  ∧ signals s' !! tok = None
  ∧ Backend.unsubscribeCalls 0%nat (client s') = Some 1%nat.
Proof.
  intros tok r s'.
  destruct (query_fresh_releases_everything "listMessages" "{}" 10000 7 new_client)
    as (_ & H1 & _ & _ & _ & H2 & H3 & _); [reflexivity|].
  split_and!; [exact H1|exact H2|exact H3].
Defined.

Lemma filter_all {A} (P : A → Prop) `{∀ x, Decision (P x)} (l : list A) :
  (∀ x, x ∈ l → P x) → filter P l = l.
Proof.
  induction l as [|x l IH]; intros Hall; [done|].
  rewrite filter_cons_True by (apply Hall; left).
  f_equal. apply IH. intros y Hy. apply Hall. by right.
Qed.

Lemma filter_fresh_listener (ls : list (ListenerId * Listener)) l fn :
  (∀ l', l' ∈ ls.*1 → (l' < l)%nat) →
  filter (λ e, e.1 ≠ l) (ls ++ [(l, fn)]) = ls.
Proof.
  intros Hlt. rewrite filter_app, filter_cons, filter_nil.
  rewrite decide_False by (simpl; intros H; by apply H).
  rewrite app_nil_r. apply filter_all.
  intros e He. apply (list_elem_of_fmap_2 fst) in He. apply Hlt in He. lia.
Qed.

(** X7. A query() for a token whose registered cell is already loaded
    resolves at once with the current value and clears its timer, but
    its listener throws on that first run (the capability it invokes is
    not initialised yet): the listener is dropped, no capability
    exists, and the increment of the counter is never taken back. The
    unsubscribe of the only real subscriber afterwards therefore no
    longer tears the cell down. *)
Theorem query_loaded_leaks_count
    (name : string) (args : Args) (timeout : Z) (c : CellId) (cell : Cell) (s : Client) :
  signals s !! Backend.serializePathAndArgs name args = Some c →
  cells s !! c = Some cell →
  c_IsLoaded cell = true →
  listener_ids_ok cell →
  let r := query name args timeout s in
  let t := length (timers s) in
  promises r.2 !! r.1 = Some (Resolved (c_value cell))
  ∧ timers r.2 !! t = Some Cleared
  ∧ fireTimer t r.2 = r.2
  ∧ listeners c r.2 = c_listeners cell
  ∧ counter c r.2 = c_counter cell + 1
  ∧ signals r.2 = signals s
  ∧ (c_counter cell = 1 →
     ∀ l, signals (unsub c l r.2) = signals s ∧ client (unsub c l r.2) = client r.2).
Proof.
  intros Hreg E Hl Hok r t. subst r. unfold query.
  rewrite (querySignal_known name args s c Hreg).
  unfold newPromise, setTimeout, subscribe, sig_subscribe.
  cbn [fst snd promises timers set_promises set_timers set_client cells upd_cell set_cells].
  rewrite list_lookup_alter_eq, E.
  cbn [option_map fmap option_fmap c_nextListener cell_setCounter c_value].
  unfold run_listener.
  match goal with |- context [isLoaded c ?st] =>
    replace (isLoaded c st) with true
      by (unfold isLoaded; simpl; by rewrite !list_lookup_alter_eq, E) end.
  cbn [negb fst snd].
  set (P := length (promises s)).
  set (l := c_nextListener cell).
  match goal with |- context [reject P ReferenceError ?st] => set (s1 := st) end.
  assert (cells s1 !! c = Some (cell_removeListener l
            (cell_addListener (QueryListener P t) (cell_setCounter (c_counter cell + 1) cell))))
    as E1.
  { subst s1. simpl. by rewrite !list_lookup_alter_eq, E. }
  assert (promises s1 !! P = Some (Resolved (c_value cell))) as Hp.
  { subst s1 P. simpl. by rewrite list_lookup_alter_eq, lookup_snoc_new. }
  assert (timers s1 !! t = Some Cleared) as Ht.
  { subst s1 t. simpl. by rewrite list_lookup_alter_eq, lookup_snoc_new. }
  assert (signals s1 = signals s) as Hs by done.
  assert (cells (reject P ReferenceError s1) = cells s1) as Hcells by done.
  clearbody s1. split_and!.
  - simpl. by rewrite list_lookup_alter_eq, Hp.
  - exact Ht.
  - unfold fireTimer. cbn [timers reject set_promises]. by rewrite Ht.
  - unfold listeners. rewrite Hcells, E1. simpl. apply filter_fresh_listener. apply Hok.
  - unfold counter. by rewrite Hcells, E1.
  - done.
  - intros Hc1 l'. unfold unsub. rewrite Hcells, E1.
    cbn [c_counter cell_removeListener cell_addListener cell_setCounter].
    by rewrite decide_False by lia.
Qed.

Lemma query_loaded_leaks_count_witness :
  let tok := ("listMessages", "{}") in
  let s := run [OpQuerySignal "listMessages" "{}"; OpSubscribe 0%nat 1%nat;
                OpLocalResult tok (Some 7); OpTransition [tok]] new_client in
  let r := query "listMessages" "{}" 10000 s in
  promises r.2 !! r.1 = Some (Resolved (Some 7))
  ∧ counter 0%nat r.2 = 2
  ∧ signals (unsub 0%nat 0%nat r.2) = signals s.
Proof.
  intros tok s r.
  destruct (query_loaded_leaks_count "listMessages" "{}" 10000 0%nat
              (mkCell "listMessages" "{}" tok 0%nat true (Some 7)
                 [(0%nat, ExternalListener 1)] 1%nat 1) s)
    as (H1 & _ & _ & _ & H2 & _ & H3);
    [reflexivity|reflexivity|reflexivity|apply listener_ids_ok_Forall; compute_done|].
  split_and!; [exact H1|exact H2|].
  destruct (H3 eq_refl 0%nat) as [H4 _]. exact H4.
Defined.

(** ** After a teardown *)

Lemma detached_unsub_last c cell l s :
  registry_ok s → cells s !! c = Some cell → c_counter cell = 1 →
  detached c (unsub c l s).
Proof.
  intros Hr E Hc. destruct (unsub_last c l cell s E Hc) as [Hs _]. split.
  - pose proof (proj1 (quiet_unsub s c l s (quiet_refl s))) as He.
    pose proof (evolves_length _ _ He). apply lookup_lt_Some in E. lia.
  - intros tok. rewrite Hs. intros [Hne H]%lookup_delete_Some.
    destruct (Hr _ _ H) as (cell' & E' & Htok). congruence.
Qed.

(** X8. The unsubscribe that brings the counter of a cell to zero is
    final: whatever is done with the client and with the handle
    afterwards (subscribing again included), the registry never holds
    the cell again, no transition notification changes anything of it,
    [isLoaded] stays what it was, and the backend subscription of the
    cell stays released. *)
Theorem last_unsubscribe_is_final
    (c : CellId) (cell : Cell) (l : ListenerId) (s : Client) (ops : list Op) :
  registry_ok s →
  cells s !! c = Some cell →
  c_counter cell = 1 →
  let s' := run ops (unsub c l s) in
  (∀ tok, signals s' !! tok ≠ Some c)
  ∧ (∀ updatedQueries,
       cells (onTransition updatedQueries s') !! c = cells s' !! c)
  ∧ isLoaded c s' = isLoaded c s
  ∧ (∀ sub, Backend.subscriptions (client s) !! c_unsubscribe cell = Some sub →
       ∃ sub', Backend.subscriptions (client s') !! c_unsubscribe cell = Some sub'
               ∧ Backend.sub_token sub' = Backend.sub_token sub
               ∧ (Backend.sub_unsubscribed sub < Backend.sub_unsubscribed sub')%nat).
Proof.
  intros Hr E Hc s'.
  pose proof (detached_unsub_last _ _ l _ Hr E Hc) as Hd.
  destruct (run_detached c ops _ Hd) as [Hd' Hl]. fold s' in Hd', Hl.
  assert (evolves (unsub c l s) s') as He2 by apply evolves_run.
  split_and!.
  - apply Hd'.
  - intros uq. by apply onTransition_detached.
  - rewrite Hl. exact (proj2 (quiet_unsub s c l s (quiet_refl s)) c).
  - intros sub Hsub.
    assert (Backend.subscriptions (client (unsub c l s)) !! c_unsubscribe cell
            = Some (Backend.mkSubscription (Backend.sub_token sub)
                      (S (Backend.sub_unsubscribed sub)))) as H1.
    { rewrite (proj2 (unsub_last c l cell s E Hc)). simpl.
      by rewrite list_lookup_alter_eq, Hsub. }
    destruct (ev_subs _ _ He2 _ _ H1) as (sub' & H' & Ht & Hu).
    exists sub'. simpl in *. split_and!; [done..|lia].
Qed.

Lemma last_unsubscribe_is_final_witness :
  let tok := ("listMessages", "{}") in
  let s := run [OpQuerySignal "listMessages" "{}"; OpSubscribe 0%nat 1%nat] new_client in
  let s' := run [OpSubscribe 0%nat 2%nat; OpLocalResult tok (Some 7); OpTransition [tok]]
              (unsub 0%nat 0%nat s) in
  signals s' !! tok ≠ Some 0%nat ∧ isLoaded 0%nat s' = false.
Proof.
  intros tok s s'.
  destruct (last_unsubscribe_is_final 0%nat
              (mkCell "listMessages" "{}" tok 0%nat false None
                 [(0%nat, ExternalListener 1)] 1%nat 1) 0%nat s
              [OpSubscribe 0%nat 2%nat; OpLocalResult tok (Some 7); OpTransition [tok]])
    as (H1 & _ & H2 & _);
    [exact (proj1 (well_formed_run _))|reflexivity|reflexivity|].
  split; [apply H1|exact H2].
Defined.

Lemma stale_capability_effect
    (c : CellId) (cell : Cell) (l : ListenerId) (n : nat) (s : Client) :
  registry_ok s →
  cells s !! c = Some cell →
  c_queryToken cell = Backend.serializePathAndArgs (c_name cell) (c_args cell) →
  c_counter cell = 1 →
  Backend.unsubscribeCalls (c_unsubscribe cell) (client s) = Some n →
  let tok := c_queryToken cell in
  let r := querySignal (c_name cell) (c_args cell) (destroy c s) in
  let s' := unsub c l r.2 in
  let sid := length (Backend.subscriptions (client s)) in
  (r.1 = length (cells s)
   ∧ signals r.2 !! tok = Some r.1
   ∧ isLoaded r.1 r.2 = false
   ∧ value r.1 r.2 = None
   ∧ listeners r.1 r.2 = []
   ∧ cells r.2 !! c = Some cell)
  ∧ signals s' !! tok = None
  ∧ detached r.1 s'
  ∧ Backend.unsubscribeCalls (c_unsubscribe cell) (client s') = Some (S (S n))
  ∧ Backend.unsubscribeCalls sid (client s') = Some 0%nat.
Proof.
  intros Hr E Htok Hc Hn tok r s' sid.
  assert (c_unsubscribe cell < sid)%nat as Hlt.
  { unfold Backend.unsubscribeCalls in Hn.
    destruct (Backend.subscriptions (client s) !! c_unsubscribe cell) eqn:Hsub;
      [|discriminate].
    by apply lookup_lt_Some in Hsub. }
  pose proof (lookup_lt_Some _ _ _ E) as Hclt.
  assert (destroy c s = set_client (Backend.unsubscribe (c_unsubscribe cell))
                          (set_signals (delete tok) s)) as Hd
    by (unfold destroy; by rewrite E).
  assert (signals (destroy c s) !! Backend.serializePathAndArgs (c_name cell) (c_args cell)
          = None) as Hfresh.
  { rewrite Hd, <- Htok. simpl. apply lookup_delete_eq. }
  pose proof (querySignal_fresh _ _ _ Hfresh) as Hq. rewrite <- Htok in Hq. fold tok in Hq.
  subst s' r. rewrite Hq. cbn [fst snd]. rewrite Hd.
  cbn [cells client signals set_client set_signals set_cells Backend.unsubscribe
       Backend.subscriptions].
  rewrite length_alter. fold sid.
  set (new := newCell (c_name cell) (c_args cell) tok sid).
  split.
  { split_and!.
    - done.
    - apply lookup_insert_eq.
    - unfold isLoaded. simpl. by rewrite lookup_snoc_new.
    - unfold value. simpl. by rewrite lookup_snoc_new.
    - unfold listeners. simpl. by rewrite lookup_snoc_new.
    - simpl. by apply lookup_app_l_Some. }
  unfold unsub. cbn [cells set_signals set_cells set_client]. rewrite (lookup_app_l_Some _ _ _ _ E).
  rewrite decide_True by lia. fold tok.
  split_and!.
  - simpl. apply lookup_delete_eq.
  - split.
    + simpl. rewrite !length_alter, length_app. simpl. lia.
    + intros tok'. simpl. intros [Hne H]%lookup_delete_Some.
      apply lookup_insert_Some in H as [[? _]|[_ H]]; [done|].
      apply lookup_delete_Some in H as [_ H].
      destruct (Hr _ _ H) as (cell' & E' & _). apply lookup_lt_Some in E'. lia.
  - unfold Backend.unsubscribeCalls in *. simpl.
    rewrite list_lookup_alter_eq. rewrite lookup_app_l by (rewrite length_alter; lia).
    rewrite list_lookup_alter_eq.
    destruct (Backend.subscriptions (client s) !! c_unsubscribe cell); [|discriminate].
    simpl in *. by injection Hn as ->.
  - unfold Backend.unsubscribeCalls. simpl.
    rewrite list_lookup_alter_ne by lia.
    replace sid with (length (alter (λ s0, Backend.mkSubscription (Backend.sub_token s0)
                        (S (Backend.sub_unsubscribed s0))) (c_unsubscribe cell)
                        (Backend.subscriptions (client s))))
      by (by rewrite length_alter).
    by rewrite lookup_snoc_new.
Qed.


(** X9. A capability kept from before a destroy evicts the cell created
    since: after destroy() of a cell whose counter is one, a new
    querySignal for the same query creates a new, unloaded cell without
    listeners (the old cell keeps its own), and the old capability,
    invoked then, removes the token of the new cell from the registry
    and invokes the backend unsubscribe capability of the old cell a
    second time; the capability of the new cell is not invoked, and the
    backend, which counts subscribers per token, holds none for the
    token any more. *)
Theorem stale_capability_evicts_new_cell
    (c : CellId) (cell : Cell) (l : ListenerId) (n : nat) (s : Client) :
  registry_ok s →
  cells s !! c = Some cell →
  c_queryToken cell = Backend.serializePathAndArgs (c_name cell) (c_args cell) →
  c_counter cell = 1 →
  Backend.unsubscribeCalls (c_unsubscribe cell) (client s) = Some n →
  let tok := c_queryToken cell in
  let r := querySignal (c_name cell) (c_args cell) (destroy c s) in
  let s' := unsub c l r.2 in
  let sid := length (Backend.subscriptions (client s)) in
  (r.1 = length (cells s)
   ∧ signals r.2 !! tok = Some r.1
   ∧ isLoaded r.1 r.2 = false
   ∧ value r.1 r.2 = None
   ∧ listeners r.1 r.2 = []
   ∧ cells r.2 !! c = Some cell)
  ∧ signals s' !! tok = None
  ∧ detached r.1 s'
  ∧ Backend.unsubscribeCalls (c_unsubscribe cell) (client s') = Some (S (S n))
  ∧ Backend.unsubscribeCalls sid (client s') = Some 0%nat
  ∧ (synchronized s → Backend.numSubscribers (client s') !! tok = None).
Proof.
  intros Hr E Htok Hc Hn tok r s' sid.
  destruct (stale_capability_effect c cell l n s Hr E Htok Hc Hn)
    as (H1 & H2 & H3 & H4 & H5).
  fold tok r s' sid in H1, H2, H3, H4, H5.
  split; [exact H1|]. split; [exact H2|]. split; [exact H3|].
  split; [exact H4|]. split; [exact H5|].
  intros Hsy.
  assert (synchronized s') as [_ Hcnt].
  { subst s' r. by apply synchronized_unsub, synchronized_querySignal,
      synchronized_destroy. }
  by rewrite (Hcnt tok), H2.
Qed.

Lemma stale_capability_evicts_new_cell_witness :
  let tok := ("listMessages", "{}") in
  let s := run [OpQuerySignal "listMessages" "{}"; OpSubscribe 0%nat 1%nat] new_client in
  let r := querySignal "listMessages" "{}" (destroy 0%nat s) in
  signals r.2 !! tok = Some 1%nat
  ∧ signals (unsub 0%nat 0%nat r.2) !! tok = None
  ∧ Backend.unsubscribeCalls 1%nat (client (unsub 0%nat 0%nat r.2)) = Some 0%nat.
Proof.
  intros tok s r.
  destruct (stale_capability_evicts_new_cell 0%nat
              (mkCell "listMessages" "{}" tok 0%nat false None
                 [(0%nat, ExternalListener 1)] 1%nat 1) 0%nat 0%nat s)
    as ((_ & H1 & _) & H2 & _ & _ & H3 & _);
    [exact (proj1 (well_formed_run _))|reflexivity|reflexivity|reflexivity|reflexivity|].
  split_and!; [exact H1|exact H2|exact H3].
Defined.

(** ** Notifications that settle nothing *)

Lemma deliver_fields c v (snapshot : list (ListenerId * Listener)) :
  ∀ s, let s' := foldl (λ s e, record_call c e.1 v s) s snapshot in
       cells s' = cells s ∧ promises s' = promises s ∧ timers s' = timers s
       ∧ signals s' = signals s ∧ client s' = client s
       ∧ calls s' = calls s ++ ((λ e, (c, e.1, v)) <$> snapshot).
Proof.
  induction snapshot as [|e rest IH]; intros s; simpl.
  - by rewrite app_nil_r.
  - destruct (IH (record_call c e.1 v s)) as (H1 & H2 & H3 & H4 & H5 & H6).
    split_and!; [done..|]. rewrite H6. simpl. by rewrite <- app_assoc.
Qed.

Lemma notify_inert c v (snapshot : list (ListenerId * Listener)) :
  ∀ s, isLoaded c s = false
       ∨ (∀ e, e ∈ snapshot → ∃ tag, e.2 = ExternalListener tag) →
       (∀ e, e ∈ snapshot → subscribed c e.1 s = true) →
       notify c v snapshot s = foldl (λ s e, record_call c e.1 v s) s snapshot.
Proof.
  induction snapshot as [|[l fn] rest IH]; intros s Hin Hsub; [done|].
  cbn [notify foldl fst].
  pose proof (Hsub (l, fn) ltac:(left)) as Hs. cbn [fst] in Hs. rewrite Hs.
  assert ((run_listener false c l fn v s).1 = record_call c l v s) as ->.
  { unfold run_listener.
    change (isLoaded c (record_call c l v s)) with (isLoaded c s).
    destruct Hin as [Hl|Hext].
    - rewrite Hl. by destruct fn.
    - destruct (Hext (l, fn)) as [tag Htag]; [left|]. simpl in Htag. by subst fn. }
  apply IH.
  - destruct Hin as [Hl|Hext]; [by left|right].
    intros e He. apply Hext. by right.
  - intros e He. erewrite subscribed_same; [|reflexivity]. apply Hsub. by right.
Qed.

(** X10. A refresh of a cell that is not loaded, or whose listeners are
    all callbacks of callers, only delivers the value: when the backend
    holds the value the cell has, nothing happens at all; otherwise the
    value is stored and every listener is called once with it, in
    subscription order. No promise of a pending sync() or query() is
    settled and no timer is cleared by it, and the listeners, the
    counter, [IsLoaded], the registry and the backend stay as they
    are. *)
Theorem refresh_without_load_only_delivers (c : CellId) (cell : Cell) (s : Client) :
  cells s !! c = Some cell →
  c_IsLoaded cell = false
  ∨ (∀ e, e ∈ c_listeners cell → ∃ tag, e.2 = ExternalListener tag) →
  let v := Backend.localQueryResult (c_name cell) (c_args cell) (client s) in
  let s' := refresh c s in
  (v = c_value cell → s' = s)
  ∧ (v ≠ c_value cell →
     s' = foldl (λ s e, record_call c e.1 v s) (upd_cell c (cell_setValue v) s)
            (c_listeners cell)
     ∧ calls s' = calls s ++ ((λ e, (c, e.1, v)) <$> c_listeners cell))
  ∧ value c s' = v
  ∧ promises s' = promises s
  ∧ timers s' = timers s
  ∧ signals s' = signals s
  ∧ client s' = client s
  ∧ listeners c s' = c_listeners cell
  ∧ counter c s' = c_counter cell
  ∧ isLoaded c s' = c_IsLoaded cell.
Proof.
  intros E Hin v s'.
  destruct (decide (v = c_value cell)) as [Heq|Hne].
  - assert (s' = s) as -> by (by apply (refresh_same c cell)).
    split_and!; try done.
    + unfold value. by rewrite E.
    + unfold listeners. by rewrite E.
    + unfold counter. by rewrite E.
    + unfold isLoaded. by rewrite E.
  - set (s1 := upd_cell c (cell_setValue v) s).
    assert (cells s1 !! c = Some (cell_setValue v cell)) as E1.
    { subst s1. simpl. by rewrite list_lookup_alter_eq, E. }
    assert (s' = foldl (λ s e, record_call c e.1 v s) s1 (c_listeners cell)) as Hs'.
    { subst s'. rewrite (refresh_new c cell s E Hne). fold v s1.
      apply notify_inert.
      - destruct Hin as [Hl|Hext]; [left|by right].
        unfold isLoaded. by rewrite E1.
      - intros [l fn] He. by eapply subscribed_elem. }
    destruct (deliver_fields c v (c_listeners cell) s1) as (H1 & H2 & H3 & H4 & H5 & H6).
    rewrite <- Hs' in H1, H2, H3, H4, H5, H6. clearbody s'.
    split_and!; try done.
    + unfold value. by rewrite H1, E1.
    + unfold listeners. by rewrite H1, E1.
    + unfold counter. by rewrite H1, E1.
    + unfold isLoaded. by rewrite H1, E1.
Qed.

Lemma refresh_without_load_only_delivers_witness :
  let tok := ("listMessages", "{}") in
  let s := run [OpQuerySignal "listMessages" "{}"; OpSubscribe 0%nat 1%nat;
                OpSync 0%nat 10000; OpLocalResult tok (Some 7)] new_client in
  promises (refresh 0%nat s) = [Pending]
  ∧ value 0%nat (refresh 0%nat s) = Some 7.
Proof.
  intros tok s.
  destruct (refresh_without_load_only_delivers 0%nat
              (mkCell "listMessages" "{}" tok 0%nat false None
                 [(0%nat, ExternalListener 1); (1%nat, SyncListener 0 0)] 2%nat 1) s)
    as (_ & _ & H1 & H2 & _); [reflexivity|by left|].
  split; [exact H2|exact H1].
Defined.

(** ** Transition notifications *)

Lemma spared_upd_cell tok c f c' s :
  (∀ cell, c_queryToken (f cell) = c_queryToken cell) →
  match cells (upd_cell c f s) !! c' with
  | Some cell => bool_decide (c_queryToken cell = tok) | None => false end
  = match cells s !! c' with
    | Some cell => bool_decide (c_queryToken cell = tok) | None => false end.
Proof.
  intros Hf. apply (field_upd_cell (λ cell, bool_decide (c_queryToken cell = tok)) false).
  intros cell. by rewrite Hf.
Qed.

Lemma unsub_spares tok c l s :
  ownsNot tok c s →
  signals (unsub c l s) !! tok = signals s !! tok ∧ ownsNot tok c (unsub c l s).
Proof.
  unfold ownsNot, unsub. intros H. destruct (cells s !! c) as [cell|] eqn:E; [|by rewrite E].
  apply bool_decide_eq_false in H.
  assert (ownsNot tok c (upd_cell c (cell_setCounter (c_counter cell - 1))
                           (sig_unsubscribe c l s))) as H'.
  { unfold ownsNot, sig_unsubscribe. rewrite !spared_upd_cell by done. rewrite E.
    by apply bool_decide_eq_false. }
  case_decide; [|done]. split; [|exact H'].
  simpl. by rewrite lookup_delete_ne.
Qed.

Lemma run_listener_spares tok c l fn v s :
  ownsNot tok c s →
  signals (run_listener false c l fn v s).1 !! tok = signals s !! tok
  ∧ ownsNot tok c (run_listener false c l fn v s).1.
Proof.
  intros H. unfold run_listener. destruct fn as [tag|p t|p t]; simpl.
  - done.
  - destruct (isLoaded c (record_call c l v s)); [|done]. split; [done|].
    unfold ownsNot, clearTimeout, sig_unsubscribe. simpl.
    change (alter (cell_removeListener l) c (cells s))
      with (cells (upd_cell c (cell_removeListener l) s)).
    by rewrite spared_upd_cell.
  - destruct (isLoaded c (record_call c l v s)); [|done]. simpl.
    by apply (unsub_spares tok c l (resolve p v (clearTimeout t (record_call c l v s)))).
Qed.

Lemma notify_spares tok c v snapshot :
  ∀ s, ownsNot tok c s →
       signals (notify c v snapshot s) !! tok = signals s !! tok
       ∧ ownsNot tok c (notify c v snapshot s).
Proof.
  induction snapshot as [|[l fn] rest IH]; intros s H; [done|].
  cbn [notify]. destruct (subscribed c l s); [|by apply IH].
  destruct (run_listener_spares tok c l fn v s H) as [H1 H2].
  destruct (IH _ H2) as [H3 H4]. split; [|done]. by rewrite H3.
Qed.

Lemma refresh_spares tok c s :
  ownsNot tok c s → signals (refresh c s) !! tok = signals s !! tok.
Proof.
  intros H. unfold refresh, sig_write. destruct (cells s !! c) as [cell|] eqn:E; [|done].
  case_decide; [done|].
  etrans; [apply notify_spares|done].
  unfold ownsNot in *. rewrite spared_upd_cell by done. exact H.
Qed.

(** X11. A transition notification touches only the cells the registry
    holds under the listed tokens: a notification whose tokens are all
    unknown to the registry changes nothing at all, and in general a
    cell that is registered under none of the listed tokens (a
    destroyed cell, or a cell of another query) keeps its value, its
    [IsLoaded], its listeners and its counter. *)
Theorem transition_touches_listed_only (updatedQueries : list QueryToken) (s : Client) :
  ((∀ tok, tok ∈ updatedQueries → signals s !! tok = None) →
   onTransition updatedQueries s = s)
  ∧ (∀ c, (∀ tok, tok ∈ updatedQueries → signals s !! tok ≠ Some c) →
          cells (onTransition updatedQueries s) !! c = cells s !! c).
Proof.
  split.
  - revert s. induction updatedQueries as [|tok rest IH]; intros s H; simpl; [done|].
    rewrite (H tok) by left. apply IH. intros tok' Hin. apply H. by right.
  - revert s. induction updatedQueries as [|tok rest IH]; intros s c H; simpl; [done|].
    destruct (signals s !! tok) as [c'|] eqn:E.
    + assert (c ≠ c') as Hne.
      { intros ->. apply (H tok); [left|done]. }
      rewrite IH.
      * rewrite refresh_others by done. simpl. by rewrite list_lookup_alter_ne.
      * intros tok' Hin Hs. apply refresh_signals in Hs. apply (H tok'); [by right|done].
    + apply IH. intros tok' Hin. apply H. by right.
Qed.

Lemma transition_touches_listed_only_witness :
  let s := run [OpQuerySignal "listMessages" "{}"; OpQuerySignal "listUsers" "{}";
                OpLocalResult ("listUsers", "{}") (Some 3)] new_client in
  cells (onTransition [("listUsers", "{}")] s) !! 0%nat = cells s !! 0%nat.
Proof.
  intros s.
  apply (proj2 (transition_touches_listed_only [("listUsers", "{}")] s) 0%nat).
  intros tok Hin. apply list_elem_of_singleton in Hin. subst tok. discriminate.
Defined.



(** ** Computed queries *)

Lemma querySignal_keeps name args s :
  let r := querySignal name args s in
  (∀ tok c, signals s !! tok = Some c → signals r.2 !! tok = Some c)
  ∧ (∀ c cell, cells s !! c = Some cell → cells r.2 !! c = Some cell)
  ∧ (∀ sid sub, Backend.subscriptions (client s) !! sid = Some sub →
                Backend.subscriptions (client r.2) !! sid = Some sub)
  ∧ promises r.2 = promises s ∧ timers r.2 = timers s ∧ calls r.2 = calls s.
Proof.
  intros r. subst r.
  destruct (signals s !! Backend.serializePathAndArgs name args) as [c|] eqn:E.
  - rewrite (querySignal_known _ _ _ _ E). simpl. split_and!; try done.
    intros sid sub H. by apply lookup_app_l_Some.
  - rewrite (querySignal_fresh _ _ _ E). simpl. split_and!; try done.
    + intros tok c H. rewrite lookup_insert_ne; [done|]. intros <-. congruence.
    + intros c cell H. by apply lookup_app_l_Some.
    + intros sid sub H. by apply lookup_app_l_Some.
Qed.

Lemma computed_sig_keeps k s :
  let r := computed_sig k s in
  (∀ tok c, signals s !! tok = Some c → signals r.2 !! tok = Some c)
  ∧ (∀ c cell, cells s !! c = Some cell → cells r.2 !! c = Some cell)
  ∧ (∀ sid sub, Backend.subscriptions (client s) !! sid = Some sub →
                Backend.subscriptions (client r.2) !! sid = Some sub)
  ∧ promises r.2 = promises s ∧ timers r.2 = timers s ∧ calls r.2 = calls s
  ∧ (∀ c, r.1 = Some c → cells s !! c = None → listeners c r.2 = []).
Proof.
  intros r. subst r. unfold computed_sig.
  destruct (computeds s !! k) as [cp|]; [|done].
  pose proof (querySignal_keeps (cp_query cp) (cp_argsFn cp (trigger s)) s) as HK.
  cbv zeta in HK.
  assert (∀ c, (querySignal (cp_query cp) (cp_argsFn cp (trigger s)) s).1 = c →
               cells s !! c = None →
               listeners c (querySignal (cp_query cp) (cp_argsFn cp (trigger s)) s).2 = [])
    as HN.
  { intros c.
    destruct (signals s !! Backend.serializePathAndArgs (cp_query cp)
                (cp_argsFn cp (trigger s))) as [c0|] eqn:Hreg.
    - rewrite (querySignal_known _ _ _ _ Hreg). simpl. intros _ Hc.
      unfold listeners. simpl. by rewrite Hc.
    - rewrite (querySignal_fresh _ _ _ Hreg). simpl. intros <- _.
      unfold listeners. simpl. by rewrite lookup_snoc_new. }
  destruct (querySignal (cp_query cp) (cp_argsFn cp (trigger s)) s) as [c' s1].
  cbn [fst snd] in HK, HN. destruct HK as (K1 & K2 & K3 & K4 & K5 & K6).
  assert (∀ c, Some c' = Some c → cells s !! c = None → listeners c s1 = []) as HN'
    by (intros c [= <-]; by apply HN).
  destruct (cp_cache cp) as [[ver c0]|]; [|done].
  destruct (cp_tracked cp && negb (ver =? triggerVersion s)%nat); [done|].
  cbn [fst snd]. split_and!; try done.
  intros c1 _ Hc. unfold listeners. by rewrite Hc.
Qed.

(** X13. Reading a computed query releases nothing: whether the read
    returns the cached cell or evaluates the derivation again (the
    arguments may have changed), every registry entry, every cell with
    its listeners and counter, and every backend subscription with its
    unsubscribe count is afterwards as before, and no promise, timer or
    listener is touched. In particular the cell of the previous
    arguments stays registered and subscribed at the backend. *)
Theorem computed_read_releases_nothing (k : ComputedId) (s : Client) :
  let r := computed_sig k s in
  (∀ tok c, signals s !! tok = Some c → signals r.2 !! tok = Some c)
  ∧ (∀ c cell, cells s !! c = Some cell → cells r.2 !! c = Some cell)
  ∧ (∀ sid sub, Backend.subscriptions (client s) !! sid = Some sub →
                Backend.subscriptions (client r.2) !! sid = Some sub)
  ∧ promises r.2 = promises s
  ∧ timers r.2 = timers s
  ∧ calls r.2 = calls s
  ∧ (computed_value k s).2 = r.2
  ∧ (computed_isLoaded k s).2 = r.2.
Proof.
  intros r.
  assert ((computed_value k s).2 = r.2 ∧ (computed_isLoaded k s).2 = r.2) as [Hv Hl].
  { unfold computed_value, computed_isLoaded. fold r. by destruct r. }
  destruct (computed_sig_keeps k s) as (K1 & K2 & K3 & K4 & K5 & K6 & _).
  fold r in K1, K2, K3, K4, K5, K6. by split_and!.
Qed.

Lemma computed_destroy_evaluates k cp s :
  computeds s !! k = Some cp → stale cp s → registry_ok s →
  let tok := Backend.serializePathAndArgs (cp_query cp) (cp_argsFn cp (trigger s)) in
  let s' := computed_destroy k s in
  signals s' = delete tok (signals s)
  ∧ (signals s !! tok = None →
     cells s' = cells s ++ [newCell (cp_query cp) (cp_argsFn cp (trigger s)) tok
                              (length (Backend.subscriptions (client s)))]
     ∧ Backend.subscriptions (client s')
       = Backend.subscriptions (client s) ++ [Backend.mkSubscription tok 1])
  ∧ (∀ c, signals s !! tok = Some c → cells s' = cells s ∧ detached c s').
Proof.
  intros E Hst Hr tok s'.
  subst s'. unfold computed_destroy. rewrite (computed_sig_evaluate _ _ _ E Hst).
  cbn [fst snd]. fold tok.
  destruct (signals s !! tok) as [c|] eqn:Hreg.
  - rewrite (querySignal_known _ _ _ _ Hreg). cbn [fst snd].
    destruct (Hr _ _ Hreg) as (cell & Ec & Htok).
    unfold destroy. cbn [cells set_computeds set_client]. rewrite Ec. rewrite Htok.
    split; [done|]. split; [done|]. intros c0 [= <-]. split; [done|]. split.
    + simpl. by eapply lookup_lt_Some.
    + intros tok'. simpl. intros [Hne H]%lookup_delete_Some.
      destruct (Hr _ _ H) as (cell' & E' & Htok'). congruence.
  - rewrite (querySignal_fresh _ _ _ Hreg). cbn [fst snd]. fold tok.
    unfold destroy. cbn [cells set_computeds set_client set_signals set_cells].
    rewrite lookup_snoc_new. cbn [c_queryToken c_unsubscribe newCell].
    split_and!; [|split|done].
    + simpl. rewrite delete_insert_eq. by rewrite !delete_id.
    + done.
    + simpl. by rewrite alter_snoc.
Qed.

(** X14. destroy() of a computed query destroys the cell of the
    arguments its function gives now: when the derivation has to be
    evaluated (never read, or the tracked input has changed), the token
    removed from the registry is the one of the current arguments, so a
    cell read earlier under other arguments keeps its entry; when no
    cell exists for the current arguments, one is created, subscribed
    at the backend and released at once. *)
Theorem computed_destroy_hits_current_cell (k : ComputedId) (cp : Computed) (s : Client) :
  computeds s !! k = Some cp →
  stale cp s →
  registry_ok s →
  let tok := Backend.serializePathAndArgs (cp_query cp) (cp_argsFn cp (trigger s)) in
  let s' := computed_destroy k s in
  signals s' = delete tok (signals s)
  ∧ (∀ tok' c, tok' ≠ tok → signals s !! tok' = Some c → signals s' !! tok' = Some c)
  ∧ (signals s !! tok = None →
     cells s' = cells s ++ [newCell (cp_query cp) (cp_argsFn cp (trigger s)) tok
                              (length (Backend.subscriptions (client s)))]
     ∧ Backend.subscriptions (client s')
       = Backend.subscriptions (client s) ++ [Backend.mkSubscription tok 1])
  ∧ (∀ c, signals s !! tok = Some c → cells s' = cells s ∧ detached c s').
Proof.
  intros E Hst Hr tok s'.
  destruct (computed_destroy_evaluates k cp s E Hst Hr) as (H1 & H2 & H3).
  fold tok s' in H1, H2, H3.
  split_and!; [done| |done..].
  intros tok' c Hne H. rewrite H1. by rewrite lookup_delete_ne.
Qed.

Lemma computed_destroy_hits_current_cell_witness :
  let s := run [OpQueryComputed "listMessages" flipArgs true; OpComputedValue 0%nat;
                OpWriteTrigger 1] new_client in
  signals (computed_destroy 0%nat s) !! ("listMessages", "{room:1}") = Some 0%nat
  ∧ signals (computed_destroy 0%nat s) !! ("listMessages", "{room:2}") = None.
Proof.
  intros s.
  destruct (computed_destroy_hits_current_cell 0%nat
              (mkComputed "listMessages" flipArgs true (Some (0%nat, 0%nat))) s)
    as (H1 & H2 & _);
    [reflexivity|split; [reflexivity|discriminate]|exact (proj1 (well_formed_run _))|].
  split.
  - apply H2; [discriminate|reflexivity].
  - rewrite H1. apply lookup_delete_eq.
Defined.

(** ** Who writes the authenticated cell *)

(** X15. The authenticated cell is written by the callback setAuth
    hands to the backend and by nothing else: a run of the client that
    contains no report of the backend leaves it as it is. So setAuth
    and clearAuth themselves do not change it, and after clearAuth it
    still holds the last outcome reported. *)
Theorem authenticated_written_by_reports_only (ops : list Op) (s : Client) :
  (∀ o a, o ∈ ops → o ≠ OpAuthChanged a) →
  authenticated (run ops s) = authenticated s.
Proof.
  revert s. induction ops as [|o ops IH]; intros s H; [done|].
  cbn [run foldl]. fold (run ops (step o s)). rewrite IH.
  - apply auth_step. intros a. apply H. left.
  - intros o' a Hin. apply H. by right.
Qed.

Lemma authenticated_written_by_reports_only_witness :
  let s := run [OpSetAuth; OpAuthChanged true] new_client in
  authenticated (run [OpClearAuth; OpQuery "listMessages" "{}" 10000] s) = Some true.
Proof.
  intros s.
  rewrite (authenticated_written_by_reports_only
             [OpClearAuth; OpQuery "listMessages" "{}" 10000] s); [reflexivity|].
  intros o a Hin.
  apply elem_of_cons in Hin as [->|Hin]; [discriminate|].
  apply list_elem_of_singleton in Hin as ->. discriminate.
Defined.

(** ** A subscription that comes and goes *)

(** X16. On a cell that has other subscribers (its counter is not
    zero), subscribing a callback and invoking the capability returned
    is a round trip: the callback is called once, with the current
    value, and afterwards the listeners, the counter, the registry, the
    backend, the promises and the timers are as before. *)
Theorem subscribe_unsubscribe_round_trip
    (c : CellId) (cell : Cell) (tag : nat) (s : Client) :
  cells s !! c = Some cell →
  listener_ids_ok cell →
  c_counter cell ≠ 0 →
  let r := subscribe c (ExternalListener tag) s in
  let l := c_nextListener cell in
  let s' := unsub c l r.2 in
  r.1 = Some l
  ∧ subscribed c l r.2 = true
  ∧ counter c r.2 = c_counter cell + 1
  ∧ calls s' = calls s ++ [(c, l, c_value cell)]
  ∧ listeners c s' = c_listeners cell
  ∧ counter c s' = c_counter cell
  ∧ value c s' = c_value cell
  ∧ isLoaded c s' = c_IsLoaded cell
  ∧ (∀ c', c' ≠ c → cells s' !! c' = cells s !! c')
  ∧ signals s' = signals s
  ∧ client s' = client s
  ∧ promises s' = promises s
  ∧ timers s' = timers s.
Proof.
  intros E Hok Hc r l s'. subst s' r. rewrite (subscribe_external _ _ _ _ E).
  cbn [fst snd]. fold l.
  set (s1 := record_call c l (c_value cell)
               (upd_cell c (cell_addListener (ExternalListener tag))
                  (upd_cell c (λ cell, cell_setCounter (c_counter cell + 1) cell) s))).
  assert (cells s1 !! c = Some (cell_addListener (ExternalListener tag)
                                  (cell_setCounter (c_counter cell + 1) cell))) as E1.
  { subst s1. simpl. by rewrite !list_lookup_alter_eq, E. }
  assert (calls s1 = calls s ++ [(c, l, c_value cell)]) as Hcalls by done.
  assert (∀ c', c' ≠ c → cells s1 !! c' = cells s !! c') as Hothers.
  { intros c' Hne. subst s1. simpl. by rewrite !list_lookup_alter_ne. }
  assert (signals s1 = signals s ∧ client s1 = client s ∧ promises s1 = promises s
          ∧ timers s1 = timers s) as (Hs & Hb & Hp & Ht) by done.
  clearbody s1.
  assert (unsub c l s1 = upd_cell c (cell_setCounter (c_counter cell + 1 - 1))
                           (sig_unsubscribe c l s1)) as ->.
  { unfold unsub. rewrite E1. cbn [c_counter cell_addListener cell_setCounter].
    by rewrite decide_False by lia. }
  assert (cells (upd_cell c (cell_setCounter (c_counter cell + 1 - 1))
                   (sig_unsubscribe c l s1)) !! c
          = Some (cell_setCounter (c_counter cell + 1 - 1)
                    (cell_removeListener l
                       (cell_addListener (ExternalListener tag)
                          (cell_setCounter (c_counter cell + 1) cell))))) as E2.
  { simpl. by rewrite !list_lookup_alter_eq, E1. }
  split_and!; try done.
  - eapply subscribed_elem; [exact E1|]. simpl. apply elem_of_app. right.
    by apply list_elem_of_singleton.
  - unfold counter. by rewrite E1.
  - unfold listeners. rewrite E2. simpl. apply filter_fresh_listener. apply Hok.
  - unfold counter. rewrite E2. simpl. lia.
  - unfold value. by rewrite E2.
  - unfold isLoaded. by rewrite E2.
  - intros c' Hne. simpl. rewrite !list_lookup_alter_ne by done. by apply Hothers.
Qed.

Lemma subscribe_unsubscribe_round_trip_witness :
  let s := run [OpQuerySignal "listMessages" "{}"; OpSubscribe 0%nat 1%nat] new_client in
  let r := subscribe 0%nat (ExternalListener 2) s in
  signals (unsub 0%nat 1%nat r.2) = signals s
  ∧ listeners 0%nat (unsub 0%nat 1%nat r.2) = [(0%nat, ExternalListener 1)].
Proof.
  intros s r.
  destruct (subscribe_unsubscribe_round_trip 0%nat
              (mkCell "listMessages" "{}" ("listMessages", "{}") 0%nat false None
                 [(0%nat, ExternalListener 1)] 1%nat 1) 2%nat s)
    as (_ & _ & _ & _ & H1 & _ & _ & _ & _ & H2 & _);
    [reflexivity|apply listener_ids_ok_Forall; compute_done|discriminate|].
  split; [exact H2|exact H1].
Defined.

(** ** The React hooks *)

(** X17. Two components that render useQuery for the same query get
    the same cell, and the cleanup of one of them destroys it for both:
    from the unmount of the first on, whatever happens afterwards, the
    registry no longer holds the cell the second component still uses,
    no transition notification changes anything of it, and its
    [isLoaded] stays what it was. *)
Theorem useQuery_cleanup_destroys_shared_cell
    (name : string) (args : Args) (s : Client) (ops : list Op) :
  registry_ok s →
  let a := React.useQuery name args s in
  let b := React.useQuery name args a.2 in
  let s' := run ops (React.useQuery_cleanup a.1 b.2) in
  b.1 = a.1
  ∧ signals b.2 !! Backend.serializePathAndArgs name args = Some b.1
  ∧ (∀ tok, signals s' !! tok ≠ Some b.1)
  ∧ (∀ updatedQueries,
       cells (onTransition updatedQueries s') !! b.1 = cells s' !! b.1)
  ∧ isLoaded b.1 s' = isLoaded b.1 b.2.
Proof.
  intros Hr a b s'. unfold React.useQuery, React.useQuery_cleanup in *.
  pose proof (querySignal_registers name args s) as Ha. fold a in Ha.
  assert (b = (a.1, b.2)) as Hb.
  { subst b. by rewrite (querySignal_known _ _ _ _ Ha). }
  assert (b.1 = a.1) as Hb1 by (by rewrite Hb).
  assert (registry_ok b.2) as Hr2.
  { eapply registry_ok_evolves; [|exact Hr].
    subst b a. apply quiet_querySignal, quiet_querySignal, quiet_refl. }
  assert (signals b.2 !! Backend.serializePathAndArgs name args = Some a.1) as Hreg.
  { subst b. rewrite (querySignal_known _ _ _ _ Ha). exact Ha. }
  destruct (Hr2 _ _ Hreg) as (cell & E & _).
  pose proof (detached_destroy _ _ _ Hr2 E) as Hd.
  destruct (run_detached a.1 ops _ Hd) as [Hd' Hl]. fold s' in Hd', Hl.
  rewrite Hb1. split_and!; [done|done|apply Hd'| |].
  - intros uq. by apply onTransition_detached.
  - rewrite Hl. exact (proj2 (quiet_destroy _ a.1 _ (quiet_refl b.2)) a.1).
Qed.

Lemma useQuery_cleanup_destroys_shared_cell_witness :
  let tok := ("listMessages", "{}") in
  let a := React.useQuery "listMessages" "{}" new_client in
  let b := React.useQuery "listMessages" "{}" a.2 in
  let s' := run [OpLocalResult tok (Some 7); OpTransition [tok]]
              (React.useQuery_cleanup a.1 b.2) in
  b.1 = a.1 ∧ isLoaded b.1 s' = false.
Proof.
  intros tok a b s'.
  destruct (useQuery_cleanup_destroys_shared_cell "listMessages" "{}" new_client
              [OpLocalResult tok (Some 7); OpTransition [tok]])
    as (H1 & _ & _ & _ & H2); [exact (proj1 well_formed_new_client)|].
  split; [exact H1|exact H2].
Defined.

(** X18. A component that renders useComputedQuery and unmounts without
    the computed query ever having been read still reaches the backend:
    the cleanup evaluates the derivation, which creates the cell for
    the current arguments and subscribes it, and destroys that cell at
    once; the registry is afterwards as before. *)
Theorem useComputedQuery_cleanup_unread
    (name : string) (factory : Z → Args) (tracked : bool) (s : Client) :
  registry_ok s →
  let tok := Backend.serializePathAndArgs name (factory (trigger s)) in
  signals s !! tok = None →
  let m := React.useComputedQuery name factory tracked s in
  let s' := React.useComputedQuery_cleanup m.1 m.2 in
  signals s' = signals s
  ∧ cells s' = cells s ++ [newCell name (factory (trigger s)) tok
                             (length (Backend.subscriptions (client s)))]
  ∧ Backend.subscriptions (client s')
    = Backend.subscriptions (client s) ++ [Backend.mkSubscription tok 1].
Proof.
  intros Hr tok Hfresh m s'.
  subst s' m. unfold React.useComputedQuery, React.useComputedQuery_cleanup, queryComputed.
  cbn [fst snd].
  set (s1 := set_computeds (λ cs, cs ++ [mkComputed name factory tracked None]) s).
  destruct (computed_destroy_evaluates (length (computeds s))
              (mkComputed name factory tracked None) s1) as (H1 & H2 & _).
  - subst s1. simpl. apply lookup_snoc_new.
  - done.
  - exact Hr.
  - cbn [cp_query cp_argsFn] in H1, H2.
    change (trigger s1) with (trigger s) in H1, H2. fold tok in H1, H2.
    destruct (H2 Hfresh) as [H3 H4]. split_and!; [|done..].
    rewrite H1. by apply delete_id.
Qed.

Lemma useComputedQuery_cleanup_unread_witness :
  let m := React.useComputedQuery "listMessages" flipArgs true new_client in
  Backend.subscriptions (client (React.useComputedQuery_cleanup m.1 m.2))
  = [Backend.mkSubscription ("listMessages", "{room:1}") 1].
Proof.
  intros m.
  destruct (useComputedQuery_cleanup_unread "listMessages" flipArgs true new_client)
    as (_ & _ & H); [exact (proj1 well_formed_new_client)|reflexivity|].
  exact H.
Defined.

(** ** Who is called *)

Lemma calls_unsub c l s : calls (unsub c l s) = calls s.
Proof. unfold unsub. destruct (cells s !! c); [|done]. by case_decide. Qed.

Lemma calls_run_listener c l fn v s :
  calls (run_listener false c l fn v s).1 = calls s ++ [(c, l, v)].
Proof.
  unfold run_listener. destruct fn as [tag|p t|p t]; [done| |].
  - by destruct (isLoaded c (record_call c l v s)).
  - destruct (isLoaded c (record_call c l v s)); [|done]. cbn [negb fst].
    by rewrite calls_unsub.
Qed.

Lemma calls_notify c v snapshot :
  ∀ s, ∃ k, calls (notify c v snapshot s) = calls s ++ k
            ∧ ∀ e, e ∈ k → e.1.1 = c ∧ e.1.2 ∈ snapshot.*1 ∧ e.2 = v.
Proof.
  induction snapshot as [|[l fn] rest IH]; intros s.
  { exists []. split; [by rewrite app_nil_r|]. intros e He. by apply elem_of_nil in He. }
  cbn [notify]. destruct (subscribed c l s).
  - destruct (IH (run_listener false c l fn v s).1) as (k & Hk & Hin).
    exists ((c, l, v) :: k). split.
    + rewrite Hk, calls_run_listener. by rewrite <- app_assoc.
    + intros e [->|He]%elem_of_cons.
      * simpl. split_and!; [done|left|done].
      * destruct (Hin e He) as (H1 & H2 & H3). split_and!; [done|by right|done].
  - destruct (IH s) as (k & Hk & Hin). exists k. split; [done|].
    intros e He. destruct (Hin e He) as (H1 & H2 & H3). split_and!; [done|by right|done].
Qed.

Lemma calls_refresh c s :
  ∃ k, calls (refresh c s) = calls s ++ k
       ∧ ∀ e, e ∈ k → e.1.1 = c ∧ subscribed c e.1.2 s = true.
Proof.
  unfold refresh, sig_write. destruct (cells s !! c) as [cell|] eqn:E.
  2:{ exists []. split; [by rewrite app_nil_r|]. intros e He. by apply elem_of_nil in He. }
  case_decide.
  { exists []. split; [by rewrite app_nil_r|]. intros e He. by apply elem_of_nil in He. }
  destruct (calls_notify c (Backend.localQueryResult (c_name cell) (c_args cell) (client s))
              (c_listeners cell)
              (upd_cell c (cell_setValue
                 (Backend.localQueryResult (c_name cell) (c_args cell) (client s))) s))
    as (k & Hk & Hin).
  exists k. split; [done|]. intros e He. destruct (Hin e He) as (H1 & H2 & _).
  split; [done|]. unfold subscribed, listeners. rewrite E. by apply bool_decide_eq_true.
Qed.

Lemma unsubscribed_refresh c l c' s :
  subscribed c l s = false → subscribed c l (refresh c' s) = false.
Proof.
  intros H. unfold refresh, sig_write. destruct (cells s !! c') as [cell|] eqn:E; [|done].
  case_decide; [done|].
  set (v := Backend.localQueryResult (c_name cell) (c_args cell) (client s)).
  set (s1 := upd_cell c' (cell_setValue v) s).
  assert (subscribed c l s1 = false) as H1.
  { subst s1. unfold subscribed, listeners in *.
    by rewrite (field_upd_cell c_listeners []). }
  pose proof (notified_notify c' v (c_listeners cell) s1) as Hn.
  destruct (decide (c' = c)) as [->|Hne].
  - by eapply notified_unsubscribed.
  - unfold subscribed, listeners in *. by rewrite (nt_others _ _ _ _ Hn c) by done.
Qed.

Lemma unsubscribed_unsub c l s : subscribed c l (unsub c l s) = false.
Proof.
  unfold unsub. destruct (cells s !! c) as [cell|] eqn:E.
  - assert (subscribed c l (upd_cell c (cell_setCounter (c_counter cell - 1))
                              (sig_unsubscribe c l s)) = false) as H.
    { rewrite subscribed_setCounter, subscribed_removeListener.
      by rewrite bool_decide_eq_false_2 by auto. }
    case_decide; [|done]. erewrite subscribed_same; [exact H|done].
  - unfold subscribed, listeners. by rewrite E.
Qed.

(** X19. A listener whose capability has been invoked is not called
    again: it is no longer subscribed, and every call that a refresh or
    a transition notification makes from then on goes to another
    listener. The same holds for any listener that is not subscribed,
    so also across any sequence of refreshes and notifications. *)
Theorem unsubscribed_listener_not_called (c : CellId) (l : ListenerId) (s : Client) :
  subscribed c l (unsub c l s) = false
  ∧ (subscribed c l s = false →
     (∀ c', subscribed c l (refresh c' s) = false
            ∧ ∃ k, calls (refresh c' s) = calls s ++ k ∧ ∀ e, e ∈ k → e.1 ≠ (c, l))
     ∧ (∀ updatedQueries,
          subscribed c l (onTransition updatedQueries s) = false
          ∧ ∃ k, calls (onTransition updatedQueries s) = calls s ++ k
                 ∧ ∀ e, e ∈ k → e.1 ≠ (c, l))).
Proof.
  split; [apply unsubscribed_unsub|]. intros H.
  assert (∀ s c', subscribed c l s = false →
            ∃ k, calls (refresh c' s) = calls s ++ k ∧ ∀ e, e ∈ k → e.1 ≠ (c, l)) as Href.
  { intros s0 c' H0. destruct (calls_refresh c' s0) as (k & Hk & Hin).
    exists k. split; [done|]. intros [[c0 l0] v0] He [= -> ->].
    destruct (Hin _ He) as [H1 H2]. simpl in *. subst c'. congruence. }
  split.
  - intros c'. split; [by apply unsubscribed_refresh|by apply Href].
  - intros uq. revert s H. induction uq as [|tok rest IH]; intros s H.
    { split; [done|]. exists []. split; [by rewrite app_nil_r|].
      intros e He. by apply elem_of_nil in He. }
    cbn [onTransition].
    set (s1 := match signals s !! tok with
               | Some c => refresh c (upd_cell c (cell_setIsLoaded true) s)
               | None => s
               end).
    assert (subscribed c l s1 = false
            ∧ ∃ k, calls s1 = calls s ++ k ∧ ∀ e, e ∈ k → e.1 ≠ (c, l)) as [H1 (k1 & Hk1 & Hin1)].
    { subst s1. destruct (signals s !! tok) as [c'|].
      - assert (subscribed c l (upd_cell c' (cell_setIsLoaded true) s) = false) as H0.
        { unfold subscribed, listeners in *. by rewrite (field_upd_cell c_listeners []). }
        split; [by apply unsubscribed_refresh|].
        destruct (Href _ c' H0) as (k & Hk & Hin). exists k. split; [exact Hk|done].
      - split; [done|]. exists []. split; [by rewrite app_nil_r|].
        intros e He. by apply elem_of_nil in He. }
    destruct (IH s1 H1) as (H2 & k2 & Hk2 & Hin2). split; [done|].
    exists (k1 ++ k2). split; [by rewrite Hk2, Hk1, <- app_assoc|].
    intros e [He|He]%elem_of_app; auto.
Qed.

Lemma unsubscribed_listener_not_called_witness :
  let tok := ("listMessages", "{}") in
  let s := run [OpQuerySignal "listMessages" "{}"; OpSubscribe 0%nat 1%nat;
                OpSubscribe 0%nat 2%nat; OpLocalResult tok (Some 7)] new_client in
  subscribed 0%nat 0%nat (onTransition [tok] (unsub 0%nat 0%nat s)) = false.
Proof.
  intros tok s.
  destruct (unsubscribed_listener_not_called 0%nat 0%nat (unsub 0%nat 0%nat s))
    as [_ H].
  destruct (H eq_refl) as [_ H']. destruct (H' [tok]) as [H1 _]. exact H1.
Defined.

(** X20. destroy() has no guard and resets nothing of the cell: each
    call removes the token from the registry and invokes the backend
    unsubscribe capability of the cell again, and the listeners, the
    counter, the value and [IsLoaded] of the cell are left as they
    are. *)
Theorem destroy_twice_unsubscribes_twice
    (c : CellId) (cell : Cell) (n : nat) (s : Client) :
  cells s !! c = Some cell →
  Backend.unsubscribeCalls (c_unsubscribe cell) (client s) = Some n →
  let once := destroy c s in
  let twice := destroy c once in
  cells once = cells s
  ∧ cells twice = cells s
  ∧ signals once = delete (c_queryToken cell) (signals s)
  ∧ signals twice = signals once
  ∧ Backend.unsubscribeCalls (c_unsubscribe cell) (client once) = Some (S n)
  ∧ Backend.unsubscribeCalls (c_unsubscribe cell) (client twice) = Some (S (S n))
  ∧ (∀ sid, sid ≠ c_unsubscribe cell →
       Backend.unsubscribeCalls sid (client twice) = Backend.unsubscribeCalls sid (client s)).
Proof.
  intros E Hn once twice.
  assert (once = set_client (Backend.unsubscribe (c_unsubscribe cell))
                   (set_signals (delete (c_queryToken cell)) s)) as Ho
    by (subst once; unfold destroy; by rewrite E).
  assert (twice = set_client (Backend.unsubscribe (c_unsubscribe cell))
                    (set_signals (delete (c_queryToken cell)) once)) as Ht.
  { subst twice. unfold destroy at 1.
    replace (cells once !! c) with (Some cell) by (by rewrite Ho). done. }
  clearbody once twice. subst twice once.
  unfold Backend.unsubscribeCalls in *.
  destruct (Backend.subscriptions (client s) !! c_unsubscribe cell) as [sub|] eqn:Hsub;
    [|discriminate].
  simpl in Hn. injection Hn as <-.
  split_and!; try done.
  - simpl. by rewrite delete_delete_eq.
  - simpl. by rewrite list_lookup_alter_eq, Hsub.
  - simpl. by rewrite !list_lookup_alter_eq, Hsub.
  - intros sid Hne. simpl. by rewrite !list_lookup_alter_ne.
Qed.

Lemma destroy_twice_unsubscribes_twice_witness :
  let s := (querySignal "listMessages" "{}" new_client).2 in
  Backend.unsubscribeCalls 0%nat (client (destroy 0%nat (destroy 0%nat s))) = Some 2%nat.
Proof.
  intros s.
  destruct (destroy_twice_unsubscribes_twice 0%nat
              (newCell "listMessages" "{}" ("listMessages", "{}") 0%nat) 0%nat s)
    as (_ & _ & _ & _ & _ & H & _); [reflexivity|reflexivity|].
  exact H.
Defined.

(** X21. A subscription made through a computed query is a subscription
    to the cell the derivation denotes at that moment, and it stays
    there: when the input of the argument function is written
    afterwards and the computed query is read again, the listener and
    its count are still on the former cell, and a cell newly created
    for the new arguments has no listener. *)
Theorem computed_subscription_stays_on_cell
    (k : ComputedId) (tag : nat) (c : CellId) (cell : Cell) (s : Client) :
  let b := computed_sig k s in
  b.1 = Some c →
  cells b.2 !! c = Some cell →
  let r := computed_subscribe k (ExternalListener tag) s in
  let l := c_nextListener cell in
  r.1 = Some (c, l)
  ∧ subscribed c l r.2 = true
  ∧ counter c r.2 = c_counter cell + 1
  ∧ ∀ z, let r' := computed_sig k (writeTrigger z r.2) in
         subscribed c l r'.2 = true
         ∧ counter c r'.2 = c_counter cell + 1
         ∧ ∀ c', r'.1 = Some c' → cells r.2 !! c' = None → listeners c' r'.2 = [].
Proof.
  intros b Hb E r l. subst r. unfold computed_subscribe. fold b.
  destruct b as [b1 s1]. cbn [fst snd] in Hb, E. subst b1.
  rewrite (subscribe_external _ _ _ _ E). cbn [fst snd fmap option_fmap option_map].
  fold l.
  set (s2 := record_call c l (c_value cell)
               (upd_cell c (cell_addListener (ExternalListener tag))
                  (upd_cell c (λ cell, cell_setCounter (c_counter cell + 1) cell) s1))).
  assert (cells s2 !! c = Some (cell_addListener (ExternalListener tag)
                                  (cell_setCounter (c_counter cell + 1) cell))) as E2.
  { subst s2. simpl. by rewrite !list_lookup_alter_eq, E. }
  clearbody s2.
  assert (∀ st, cells st !! c = Some (cell_addListener (ExternalListener tag)
                                        (cell_setCounter (c_counter cell + 1) cell)) →
                subscribed c l st = true ∧ counter c st = c_counter cell + 1) as Hst.
  { intros st Est. split.
    - eapply subscribed_elem; [exact Est|]. simpl. apply elem_of_app. right.
      by apply list_elem_of_singleton.
    - unfold counter. by rewrite Est. }
  destruct (Hst s2 E2) as [H1 H2].
  split; [done|]. split; [done|]. split; [done|]. intros z.
  set (r' := computed_sig k (writeTrigger z s2)).
  assert (cells (writeTrigger z s2) = cells s2) as Hw
    by (unfold writeTrigger; by case_decide).
  destruct (computed_sig_keeps k (writeTrigger z s2)) as (_ & K2 & _ & _ & _ & _ & K7).
  fold r' in K2, K7.
  destruct (Hst r'.2) as [H3 H4]; [apply K2; by rewrite Hw|].
  split_and!; [done..|].
  intros c' Hc' Hnone. apply K7; [done|]. by rewrite Hw.
Qed.

Lemma computed_subscription_stays_on_cell_witness :
  let s := (queryComputed "listMessages" flipArgs true new_client).2 in
  let r := computed_subscribe 0%nat (ExternalListener 1) s in
  let r' := computed_sig 0%nat (writeTrigger 1 r.2) in
  r'.1 = Some 1%nat
  ∧ subscribed 0%nat 0%nat r'.2 = true
  ∧ listeners 1%nat r'.2 = [].
Proof.
  intros s r r'.
  destruct (computed_subscription_stays_on_cell 0%nat 1%nat 0%nat
              (newCell "listMessages" "{room:1}" ("listMessages", "{room:1}") 0%nat) s)
    as (_ & _ & _ & H); [reflexivity|reflexivity|].
  destruct (H 1) as (H1 & _ & H2).
  split_and!; [reflexivity|exact H1|].
  apply H2; reflexivity.
Defined.

(** ** Promises settle once, timers run once *)

Lemma stable_refl s : stable s s.
Proof. by split. Qed.

Lemma stable_frame s0 s s' :
  promises s' = promises s → timers s' = timers s → stable s0 s → stable s0 s'.
Proof. intros Hp Ht [H1 H2]. split; intros ???; rewrite ?Hp, ?Ht; auto. Qed.

Lemma stable_resolve s0 p v s : stable s0 s → stable s0 (resolve p v s).
Proof.
  intros [H1 H2]. split; [|exact H2]. intros p' st H Hne. simpl.
  destruct (decide (p' = p)) as [->|Hp].
  - rewrite list_lookup_alter_eq, (H1 _ _ H Hne). by destruct st.
  - rewrite list_lookup_alter_ne by done. by apply H1.
Qed.

Lemma stable_reject s0 p e s : stable s0 s → stable s0 (reject p e s).
Proof.
  intros [H1 H2]. split; [|exact H2]. intros p' st H Hne. simpl.
  destruct (decide (p' = p)) as [->|Hp].
  - rewrite list_lookup_alter_eq, (H1 _ _ H Hne). by destruct st.
  - rewrite list_lookup_alter_ne by done. by apply H1.
Qed.

Lemma stable_clearTimeout s0 t s : stable s0 s → stable s0 (clearTimeout t s).
Proof.
  intros [H1 H2]. split; [exact H1|]. intros t' st H Hst. simpl.
  destruct (decide (t' = t)) as [->|Ht].
  - rewrite list_lookup_alter_eq, (H2 _ _ H Hst). by destruct Hst as [->| ->].
  - rewrite list_lookup_alter_ne by done. by apply H2.
Qed.

Lemma stable_newPromise s0 s : stable s0 s → stable s0 (newPromise s).2.
Proof.
  intros [H1 H2]. split; [|exact H2]. intros p st H Hne. simpl.
  apply lookup_app_l_Some. by apply H1.
Qed.

Lemma stable_setTimeout s0 cb ms s : stable s0 s → stable s0 (setTimeout cb ms s).2.
Proof.
  intros [H1 H2]. split; [exact H1|]. intros t st H Hst. simpl.
  apply lookup_app_l_Some. by apply H2.
Qed.

Lemma stable_fire s0 t cb ms s :
  timers s !! t = Some (Armed cb ms) → stable s0 s →
  stable s0 (set_timers (<[t := Fired]>) s).
Proof.
  intros Ha [H1 H2]. split; [exact H1|]. intros t' st H Hst. simpl.
  destruct (decide (t' = t)) as [->|Ht].
  - rewrite (H2 _ _ H Hst) in Ha. injection Ha as ->. by destruct Hst.
  - rewrite list_lookup_insert_ne by done. by apply H2.
Qed.

Lemma stable_unsub s0 c l s : stable s0 s → stable s0 (unsub c l s).
Proof.
  intros H. unfold unsub. destruct (cells s !! c); [|done].
  case_decide; by eapply stable_frame; [| |exact H].
Qed.

Lemma stable_run_listener s0 initial c l fn v s :
  stable s0 s → stable s0 (run_listener initial c l fn v s).1.
Proof.
  intros H. assert (stable s0 (record_call c l v s)) as H'
    by (by eapply stable_frame; [| |exact H]).
  unfold run_listener. destruct fn as [tag|p t|p t]; [done| |].
  - destruct (isLoaded c (record_call c l v s)); [|done]. cbn [fst].
    apply stable_clearTimeout. destruct initial.
    + by apply stable_resolve.
    + eapply stable_frame; [| |apply stable_resolve, H']; done.
  - destruct (isLoaded c (record_call c l v s)); [|done]. cbn [negb].
    assert (stable s0 (resolve p v (clearTimeout t (record_call c l v s)))) as H''
      by (by apply stable_resolve, stable_clearTimeout).
    destruct initial; [done|]. cbn [fst]. by apply stable_unsub.
Qed.

Lemma stable_sig_subscribe s0 c fn s :
  stable s0 s → stable s0 (sig_subscribe c fn s).1.2.
Proof.
  intros H. unfold sig_subscribe. destruct (cells s !! c) as [cell|]; [|done].
  pose proof (stable_run_listener s0 true c (c_nextListener cell) fn (c_value cell)
                (upd_cell c (cell_addListener fn) s)) as Hr.
  destruct (run_listener true c (c_nextListener cell) fn (c_value cell)
              (upd_cell c (cell_addListener fn) s)) as [s1 threw].
  cbn [fst] in Hr.
  assert (stable s0 s1) as H1 by (apply Hr; by eapply stable_frame; [| |exact H]).
  destruct threw; [|done]. by eapply stable_frame; [| |exact H1].
Qed.

Lemma stable_notify s0 c v snapshot :
  ∀ s, stable s0 s → stable s0 (notify c v snapshot s).
Proof.
  induction snapshot as [|[l fn] rest IH]; intros s H; [done|].
  cbn [notify]. apply IH. destruct (subscribed c l s); [|done].
  by apply stable_run_listener.
Qed.

Lemma stable_refresh s0 c s : stable s0 s → stable s0 (refresh c s).
Proof.
  intros H. unfold refresh, sig_write. destruct (cells s !! c); [|done].
  case_decide; [done|]. apply stable_notify. by eapply stable_frame; [| |exact H].
Qed.

Lemma stable_destroy s0 c s : stable s0 s → stable s0 (destroy c s).
Proof.
  intros H. unfold destroy. destruct (cells s !! c); [|done].
  by eapply stable_frame; [| |exact H].
Qed.

Lemma stable_querySignal s0 name args s :
  stable s0 s → stable s0 (querySignal name args s).2.
Proof.
  intros H. destruct (querySignal_promises name args s) as [Hp Ht].
  by eapply stable_frame; [| |exact H].
Qed.

Lemma stable_subscribe s0 c fn s : stable s0 s → stable s0 (subscribe c fn s).2.
Proof.
  intros H. unfold subscribe.
  pose proof (stable_sig_subscribe s0 c fn
                (upd_cell c (λ cell, cell_setCounter (c_counter cell + 1) cell) s)) as Hs.
  destruct (sig_subscribe c fn _) as [[l s1] threw]. cbn [fst snd] in *.
  apply Hs. by eapply stable_frame; [| |exact H].
Qed.

Lemma stable_sync s0 c timeout s : stable s0 s → stable s0 (sync c timeout s).2.
Proof.
  intros H. unfold sync.
  pose proof (stable_newPromise s0 s H) as H1.
  destruct (newPromise s) as [p s1]. cbn [snd] in H1.
  set (l := match cells s1 !! c with Some cell => c_nextListener cell | None => 0%nat end).
  pose proof (stable_setTimeout s0 (SyncTimeout c l p) timeout s1 H1) as H2.
  destruct (setTimeout (SyncTimeout c l p) timeout s1) as [t s2]. cbn [snd] in H2.
  pose proof (stable_sig_subscribe s0 c (SyncListener p t) s2 H2) as H3.
  by destruct (sig_subscribe c (SyncListener p t) s2) as [[l' s3] threw].
Qed.

Lemma stable_query s0 name args timeout s :
  stable s0 s → stable s0 (query name args timeout s).2.
Proof.
  intros H. unfold query.
  pose proof (stable_querySignal s0 name args s H) as H0.
  destruct (querySignal name args s) as [c s0']. cbn [snd] in H0.
  pose proof (stable_newPromise s0 s0' H0) as H1.
  destruct (newPromise s0') as [p s1]. cbn [snd] in H1.
  pose proof (stable_setTimeout s0 (QueryTimeout p) timeout s1 H1) as H2.
  destruct (setTimeout (QueryTimeout p) timeout s1) as [t s2]. cbn [snd] in H2.
  pose proof (stable_subscribe s0 c (QueryListener p t) s2 H2) as H3.
  destruct (subscribe c (QueryListener p t) s2) as [r s3]. cbn [snd] in *.
  destruct r; [done|]. by apply stable_reject.
Qed.

Lemma stable_onTransition s0 updatedQueries :
  ∀ s, stable s0 s → stable s0 (onTransition updatedQueries s).
Proof.
  induction updatedQueries as [|tok rest IH]; intros s H; [done|].
  cbn [onTransition]. apply IH. destruct (signals s !! tok); [|done].
  apply stable_refresh. by eapply stable_frame; [| |exact H].
Qed.

Lemma stable_fireTimer s0 t s : stable s0 s → stable s0 (fireTimer t s).
Proof.
  intros H. unfold fireTimer. destruct (timers s !! t) as [[cb ms| |]|] eqn:E; try done.
  pose proof (stable_fire s0 t cb ms s E H) as H1.
  destruct cb as [c l p|p].
  - eapply stable_frame; [| |apply stable_reject, H1]; done.
  - by apply stable_reject.
Qed.

Lemma stable_computed_sig s0 k s : stable s0 s → stable s0 (computed_sig k s).2.
Proof.
  intros H. destruct (computed_sig_keeps k s) as (_ & _ & _ & Hp & Ht & _).
  by eapply stable_frame; [| |exact H].
Qed.

Lemma stable_step s0 o s : stable s0 s → stable s0 (step o s).
Proof.
  intros H. destruct o; cbn [step];
    try (by eapply stable_frame; [| |exact H]);
    try (unfold computed_value, computed_isLoaded, computed_refresh, computed_subscribe,
           computed_destroy, computed_sync;
         pose proof (stable_computed_sig s0 k s H) as Hk;
         destruct (computed_sig k s) as [[c|] s1]; cbn [fst snd] in *; try done).
  - by apply stable_querySignal.
  - by apply stable_subscribe.
  - by apply stable_unsub.
  - by apply stable_refresh.
  - by apply stable_destroy.
  - by apply stable_sync.
  - by apply stable_query.
  - by apply stable_refresh.
  - pose proof (stable_subscribe s0 c (ExternalListener tag) s1 Hk) as H1.
    by destruct (subscribe c (ExternalListener tag) s1) as [l s2].
  - by apply stable_destroy.
  - pose proof (stable_sync s0 c 10000 s1 Hk) as H1.
    by destruct (sync c 10000 s1) as [p s2].
  - unfold writeTrigger. case_decide; [done|]. by eapply stable_frame; [| |exact H].
  - by apply stable_onTransition.
  - by apply stable_fireTimer.
  - unfold authChanged. destruct (Backend.onAuthChange (client s)); [|done].
    by eapply stable_frame; [| |exact H].
Qed.

(** X22. Promises settle once and timers run once, in every run of the
    client: a promise that has been resolved or rejected keeps that
    outcome whatever happens afterwards (a later load does not resolve
    a promise rejected by its timeout, the error the listener of
    query() raises on a loaded cell does not replace the value), and a
    timer that was cleared or has fired stays so. *)
Theorem settled_promises_and_timers_stay (ops : list Op) (s : Client) :
  (∀ p st, promises s !! p = Some st → st ≠ Pending →
           promises (run ops s) !! p = Some st)
  ∧ (∀ t st, timers s !! t = Some st → st = Cleared ∨ st = Fired →
             timers (run ops s) !! t = Some st
             ∧ fireTimer t (run ops s) = run ops s).
Proof.
  assert (stable s (run ops s)) as [H1 H2].
  { assert (∀ s', stable s s' → stable s (run ops s')) as H; [|apply H, stable_refl].
    induction ops as [|o ops IH]; intros s' H; [done|].
    cbn [run foldl]. apply IH. by apply stable_step. }
  split; [exact H1|]. intros t st H Hst. pose proof (H2 _ _ H Hst) as H'.
  split; [exact H'|]. unfold fireTimer. rewrite H'. by destruct Hst as [->| ->].
Qed.

Lemma settled_promises_and_timers_stay_witness :
  let tok := ("listMessages", "{}") in
  let s := run [OpQuerySignal "listMessages" "{}"; OpSync 0%nat 10000;
                OpFireTimer 0%nat] new_client in
  promises (run [OpLocalResult tok (Some 7); OpTransition [tok]] s) !! 0%nat
  = Some (Rejected QueryTimedOut).
Proof.
  intros tok s.
  apply (proj1 (settled_promises_and_timers_stay
                  [OpLocalResult tok (Some 7); OpTransition [tok]] s));
    [reflexivity|discriminate].
Defined.

(** ** The registry in reachable states *)

(** X23. In every state the client can reach, the registry holds only
    cells that exist, each under the token it was created for, so no
    cell is registered under two tokens; and the listeners of every
    cell have distinct identities that are never handed out again. *)
Theorem reachable_registry_is_injective (ops : list Op) :
  let s := run ops new_client in
  (∀ tok c, signals s !! tok = Some c →
     ∃ cell, cells s !! c = Some cell ∧ c_queryToken cell = tok)
  ∧ (∀ tok1 tok2 c,
       signals s !! tok1 = Some c → signals s !! tok2 = Some c → tok1 = tok2)
  ∧ (∀ c cell, cells s !! c = Some cell →
       NoDup (c_listeners cell).*1
       ∧ ∀ l, l ∈ (c_listeners cell).*1 → (l < c_nextListener cell)%nat).
Proof.
  intros s. destruct (well_formed_run ops) as [Hr Hl]. fold s in Hr, Hl.
  split_and!.
  - exact Hr.
  - intros tok1 tok2 c H1 H2.
    destruct (Hr _ _ H1) as (cell1 & E1 & <-).
    destruct (Hr _ _ H2) as (cell2 & E2 & <-). congruence.
  - intros c cell E. exact (Hl c cell E).
Qed.
